(** * electro_gla: inventory application (app_negocio.py)

    A shallow embedding of the application's core logic: the price
    normalizer, the pricing totals of the inventory view, the reorder
    generator, the sell statement, spreadsheet import and export, and the
    password change, with the Python and SQLite primitives they rest on.

    Conventions.
    - A Python [str] is a [string] holding its UTF-8 bytes.
    - A Python [float] is an IEEE 754 binary64 number, [spec_float] with
      precision 53 and maximal exponent 1024; every operation rounds to
      nearest, ties to even, as the hardware does.
    - A Python exception is the [Raise] branch of [result].
    - The product table is the list of its rows in rowid order. *)

From Stdlib Require Import ZArith List String Ascii Bool Lia.
From Stdlib Require Import Floats.SpecFloat DecimalString DecimalPos.
From Stdlib Require Import Sorting.Sorted Sorting.Permutation.
Import ListNotations.

Local Open Scope string_scope.
Local Open Scope Z_scope.

(* ================================================================== *)
(** * Exceptions *)

Inductive exn : Type :=
| ValueError
| OverflowError
| TypeError
| IndexError
| KeyError
| IntegrityError.

Inductive result (A : Type) : Type :=
| Ok (a : A)
| Raise (e : exn).

Arguments Ok {A} a.
Arguments Raise {A} e.

Definition bind {A B : Type} (c : result A) (k : A -> result B) : result B :=
  match c with
  | Ok a => k a
  | Raise e => Raise e
  end.

Notation "x <- c ;; k" := (bind c (fun x => k))
  (at level 61, c at next level, right associativity).

(** [try: c except ValueError: h] *)
Definition except_ValueError {A : Type} (c h : result A) : result A :=
  match c with
  | Raise ValueError => h
  | r => r
  end.

(** [try: c except Exception: h]; every exception of [exn] derives from
    [Exception]. *)
Definition except_Exception {A : Type} (c : result A) (h : exn -> result A)
  : result A :=
  match c with
  | Raise e => h e
  | r => r
  end.


(* ================================================================== *)
(** * Python strings *)

Module Str.

Definition between (lo hi c : ascii) : bool :=
  (N_of_ascii lo <=? N_of_ascii c)%N && (N_of_ascii c <=? N_of_ascii hi)%N.

Definition is_digit (c : ascii) : bool := between "0" "9" c.
Definition is_upper (c : ascii) : bool := between "A" "Z" c.
Definition is_lower (c : ascii) : bool := between "a" "z" c.

(** Whitespace in the ASCII range: tab, LF, VT, FF, CR, the separators
    0x1c-0x1f and the space.  Whitespace outside ASCII is several bytes
    long in UTF-8 and is not recognised here. *)
Definition is_space (c : ascii) : bool :=
  between "009" "013" c || between "028" " " c.

Definition digit_val (c : ascii) : Z := Z.of_N (N_of_ascii c) - 48.

(** [s.lstrip()], [s.rstrip()], [s.strip()] *)
Fixpoint lstrip (s : string) : string :=
  match s with
  | String c r => if is_space c then lstrip r else s
  | EmptyString => EmptyString
  end.

Fixpoint rstrip (s : string) : string :=
  match s with
  | EmptyString => EmptyString
  | String c r =>
      match rstrip r with
      | EmptyString => if is_space c then EmptyString else String c EmptyString
      | r' => String c r'
      end
  end.

Definition strip (s : string) : string := rstrip (lstrip s).

(** [re.sub(r"[^...]", "", s)]: drop every character outside the class. *)
Fixpoint keep_only (cls : ascii -> bool) (s : string) : string :=
  match s with
  | EmptyString => EmptyString
  | String c r => if cls c then String c (keep_only cls r) else keep_only cls r
  end.

(** [s.count(c)] for a one-character [c] *)
Fixpoint count (c : ascii) (s : string) : Z :=
  match s with
  | EmptyString => 0
  | String a r => (if Ascii.eqb a c then 1 else 0) + count c r
  end.

(** [s.split(c)] for a one-character separator: never the empty list. *)
Fixpoint split (c : ascii) (s : string) : list string :=
  match s with
  | EmptyString => [EmptyString]
  | String a r =>
      if Ascii.eqb a c then EmptyString :: split c r
      else match split c r with
           | seg :: segs => String a seg :: segs
           | [] => [String a EmptyString]
           end
  end.

(** [sep.join(parts)] *)
Fixpoint join (sep : string) (parts : list string) : string :=
  match parts with
  | [] => EmptyString
  | [p] => p
  | p :: ps => p ++ sep ++ join sep ps
  end.

(** [xs[:-1]] and [xs[-1]] *)
Definition all_but_last {A : Type} (xs : list A) : list A := removelast xs.

Fixpoint item_last {A : Type} (xs : list A) : result A :=
  match xs with
  | [] => Raise IndexError
  | [x] => Ok x
  | _ :: r => item_last r
  end.

(** [s.replace(c, new)] for a one-character [c] *)
Fixpoint replace (c : ascii) (new : string) (s : string) : string :=
  match s with
  | EmptyString => EmptyString
  | String a r =>
      if Ascii.eqb a c then new ++ replace c new r else String a (replace c new r)
  end.

(** [c in s] for a one-character [c] *)
Fixpoint has_char (c : ascii) (s : string) : bool :=
  match s with
  | EmptyString => false
  | String a r => Ascii.eqb a c || has_char c r
  end.

Fixpoint starts_with (p s : string) : bool :=
  match p, s with
  | EmptyString, _ => true
  | String a p', String b s' => Ascii.eqb a b && starts_with p' s'
  | String _ _, EmptyString => false
  end.

(** [q in s]: [q] occurs in [s] as a contiguous run. *)
Fixpoint contains (q s : string) : bool :=
  starts_with q s ||
  match s with
  | EmptyString => false
  | String _ r => contains q r
  end.

(** [s.lower()] on the letters A-Z; bytes outside ASCII are left as they
    are (Python also lowers the letters they encode). *)
Definition lower_char (c : ascii) : ascii :=
  if is_upper c then ascii_of_N (N_of_ascii c + 32) else c.

Fixpoint lower (s : string) : string :=
  match s with
  | EmptyString => EmptyString
  | String c r => String (lower_char c) (lower r)
  end.

Fixpoint repeat_char (c : ascii) (n : nat) : string :=
  match n with
  | O => EmptyString
  | S k => String c (repeat_char c k)
  end.

Fixpoint take (n : nat) (s : string) : string :=
  match n, s with
  | S k, String c r => String c (take k r)
  | _, _ => EmptyString
  end.

Fixpoint drop (n : nat) (s : string) : string :=
  match n, s with
  | S k, String _ r => drop k r
  | _, _ => s
  end.

(** The longest prefix of digits, and what follows it. *)
Fixpoint span_digits (s : string) : string * string :=
  match s with
  | String c r =>
      if is_digit c then let '(d, t) := span_digits r in (String c d, t)
      else (EmptyString, s)
  | EmptyString => (EmptyString, EmptyString)
  end.

Fixpoint all_digits (s : string) : bool :=
  match s with
  | EmptyString => true
  | String c r => is_digit c && all_digits r
  end.

(** The number a run of digits denotes. *)
Fixpoint digits_value (acc : Z) (s : string) : Z :=
  match s with
  | EmptyString => acc
  | String c r => digits_value (10 * acc + digit_val c) r
  end.

(** [str(n)] for an [int] *)
Definition of_Z (n : Z) : string := NilZero.string_of_int (Z.to_int n).

(** Underscores of a numeric literal (PEP 515): each must stand between
    two digits.  [prev] is the character before [s]. *)
Fixpoint drop_underscores (prev : ascii) (s : string) : option string :=
  match s with
  | EmptyString => if Ascii.eqb prev "_" then None else Some EmptyString
  | String c r =>
      if Ascii.eqb c "_" then
        if is_digit prev then drop_underscores c r else None
      else if Ascii.eqb prev "_" && negb (is_digit c) then None
      else option_map (String c) (drop_underscores c r)
  end.

End Str.

(* ================================================================== *)
(** * Python floats *)

Definition float : Type := spec_float.

Module Flt.

Definition prec : Z := 53.
Definition emax : Z := 1024.

Definition zero : float := S754_zero false.
Definition inf : float := S754_infinity false.
Definition nan : float := S754_nan.

Definition add : float -> float -> float := SFadd prec emax.
Definition sub : float -> float -> float := SFsub prec emax.
Definition mul : float -> float -> float := SFmul prec emax.
Definition div : float -> float -> float := SFdiv prec emax.

(** [float(n)] for an [int] in the binary64 range *)
Definition of_Z (n : Z) : float := binary_normalize prec emax n 0 false.

Definition is_nan (x : float) : bool :=
  match x with
  | S754_nan => true
  | _ => false
  end.

Definition is_zero (x : float) : bool :=
  match x with
  | S754_zero _ => true
  | _ => false
  end.

Definition is_finite (x : float) : bool :=
  match x with
  | S754_zero _ | S754_finite _ _ _ => true
  | _ => false
  end.

(** Equality of representations (not IEEE [==]: it tells the zeros apart
    and equates NaN with itself). *)
Definition same (x y : float) : bool :=
  match x, y with
  | S754_zero a, S754_zero b => Bool.eqb a b
  | S754_infinity a, S754_infinity b => Bool.eqb a b
  | S754_nan, S754_nan => true
  | S754_finite a m e, S754_finite b n f =>
      Bool.eqb a b && Pos.eqb m n && Z.eqb e f
  | _, _ => false
  end.

(** The binary64 number nearest to [(-1)^neg * m * 10^e10]: what a
    correctly rounded string-to-double conversion returns. *)
Definition of_decimal (neg : bool) (m e10 : Z) : float :=
  match m with
  | Zpos p =>
      if 0 <=? e10 then
        binary_round prec emax neg (Pos.mul p (Z.to_pos (10 ^ e10))) 0
      else
        let '(q, e, l) :=
          SFdiv_core_binary prec emax (Zpos p) 0 (10 ^ (- e10)) 0 in
        binary_round_aux prec emax neg q e l
  | _ => S754_zero neg
  end.

(** [float(s)]: underscores between digits, surrounding whitespace, a
    sign, then [inf], [infinity], [nan] in any case or a decimal numeral
    with an optional fraction and exponent.  Anything else is a
    [ValueError]. *)
Definition split_sign (s : string) : bool * string :=
  match s with
  | String "-" r => (true, r)
  | String "+" r => (false, r)
  | _ => (false, s)
  end.

Definition parse_exponent (s : string) : option Z :=
  match s with
  | EmptyString => Some 0
  | String c r =>
      if Ascii.eqb c "e" || Ascii.eqb c "E" then
        let '(neg, t) := split_sign r in
        if Str.all_digits t && negb (String.eqb t EmptyString) then
          Some (if neg then - Str.digits_value 0 t else Str.digits_value 0 t)
        else None
      else None
  end.

Definition parse_decimal (neg : bool) (s : string) : option float :=
  let '(int_part, r1) := Str.span_digits s in
  let '(frac_part, r2) :=
    match r1 with
    | String "." t => Str.span_digits t
    | _ => (EmptyString, r1)
    end in
  if String.eqb int_part EmptyString && String.eqb frac_part EmptyString
  then None
  else
    match parse_exponent r2 with
    | Some e =>
        Some (of_decimal neg (Str.digits_value 0 (int_part ++ frac_part))
                (e - Z.of_nat (String.length frac_part)))
    | None => None
    end.

Definition parse_special (neg : bool) (s : string) : option float :=
  let t := Str.lower s in
  if String.eqb t "inf" || String.eqb t "infinity" then Some (S754_infinity neg)
  else if String.eqb t "nan" then Some S754_nan
  else None.

Definition of_string (s : string) : result float :=
  match Str.drop_underscores "000" s with
  | None => Raise ValueError
  | Some s1 =>
      let '(neg, body) := split_sign (Str.strip s1) in
      match parse_special neg body with
      | Some x => Ok x
      | None =>
          match parse_decimal neg body with
          | Some x => Ok x
          | None => Raise ValueError
          end
      end
  end.

End Flt.

(* ================================================================== *)
(** * [repr] of a float

    CPython prints the shortest run of digits that reads back as the same
    float and, among runs of that length, the one nearest to the float's
    exact value; it switches to exponent notation when the decimal point
    would fall more than 16 places to the right of the first digit or
    more than 3 to its left. *)

Module Repr.

(** [x < 10^k] for [x = num/den] *)
Definition lt_pow10 (num den k : Z) : bool :=
  if 0 <=? k then num <? den * 10 ^ k else num * 10 ^ (- k) <? den.

(** The least [k] from [k0] on with [x < 10^k]: the position of the
    decimal point relative to the first significant digit. *)
Fixpoint find_decpt (fuel : nat) (k num den : Z) : Z :=
  match fuel with
  | O => k
  | S f => if lt_pow10 num den k then k else find_decpt f (k + 1) num den
  end.

(** [x * 10^s] as a fraction *)
Definition scaled (num den s : Z) : Z * Z :=
  if 0 <=? s then (num * 10 ^ s, den) else (num, den * 10 ^ (- s)).

(** The two [n]-digit decimals around [x], as integers to be multiplied
    by [10^(k-n)], and whether the lower one is the nearer. *)
Definition around (num den k n : Z) : Z * Z * bool :=
  let '(a, b) := scaled num den (n - k) in
  (a / b, a / b + 1, 2 * (a mod b) <=? b).

Definition candidate (x : float) (num den k n : Z) : option Z :=
  let '(lo, hi, lo_nearer) := around num den k n in
  let ok_lo := Flt.same (Flt.of_decimal false lo (k - n)) x in
  let ok_hi := Flt.same (Flt.of_decimal false hi (k - n)) x in
  if ok_lo && (lo_nearer || negb ok_hi) then Some lo
  else if ok_hi then Some hi
  else None.

(** The first [n] from [n] on (at most [fuel] tries) with a candidate
    that reads back as [x]; 17 digits when none does. *)
Fixpoint shortest (fuel : nat) (x : float) (num den k n : Z) : Z * Z :=
  match fuel with
  | O => let '(lo, hi, lo_nearer) := around num den k 17 in
         (if lo_nearer then lo else hi, k - 17)
  | S f =>
      match candidate x num den k n with
      | Some c => (c, k - n)
      | None => shortest f x num den k (n + 1)
      end
  end.

Fixpoint strip_zeros_rev (s : list ascii) : list ascii :=
  match s with
  | "0"%char :: r => strip_zeros_rev r
  | _ => s
  end.

Definition strip_trailing_zeros (s : string) : string :=
  string_of_list_ascii
    (rev (strip_zeros_rev (rev (list_ascii_of_string s)))).

(** The digits of a positive finite float and the position of its
    decimal point: the value is [0.d1d2...dn * 10^decpt]. *)
Definition digits (m : positive) (e : Z) : string * Z :=
  let num := if 0 <=? e then Zpos m * 2 ^ e else Zpos m in
  let den := if 0 <=? e then 1 else 2 ^ (- e) in
  let k := find_decpt 640 (-324) num den in
  let '(c, e10) := shortest 17 (S754_finite false m e) num den k 1 in
  let ds := Str.of_Z c in
  (strip_trailing_zeros ds, Z.of_nat (String.length ds) + e10).

Definition exponent_suffix (e : Z) : string :=
  (if e <? 0 then "e-" else "e+") ++
  (if Z.abs e <? 10 then "0" else "") ++ Str.of_Z (Z.abs e).

Definition layout (ds : string) (decpt : Z) : string :=
  let n := Z.of_nat (String.length ds) in
  if (decpt <=? -4) || (16 <? decpt) then
    Str.take 1 ds ++
    (if 1 <? n then "." ++ Str.drop 1 ds else "") ++
    exponent_suffix (decpt - 1)
  else if decpt <=? 0 then
    "0." ++ Str.repeat_char "0" (Z.to_nat (- decpt)) ++ ds
  else if n <=? decpt then
    ds ++ Str.repeat_char "0" (Z.to_nat (decpt - n)) ++ ".0"
  else
    Str.take (Z.to_nat decpt) ds ++ "." ++ Str.drop (Z.to_nat decpt) ds.

Definition sign (neg : bool) : string := if neg then "-" else "".

Definition repr (x : float) : string :=
  match x with
  | S754_nan => "nan"
  | S754_infinity s => sign s ++ "inf"
  | S754_zero s => sign s ++ "0.0"
  | S754_finite s m e =>
      let '(ds, decpt) := digits m e in sign s ++ layout ds decpt
  end.


End Repr.

(* ================================================================== *)
(** * Python values and numbers *)

Inductive pyval : Type :=
| PNone
| PInt (n : Z)
| PFloat (x : float)
| PStr (s : string).

(** Truth value: [None], [0], [0.0], [-0.0] and [""] are false. *)
Definition truthy (v : pyval) : bool :=
  match v with
  | PNone => false
  | PInt n => negb (n =? 0)
  | PFloat x => negb (Flt.is_zero x)
  | PStr s => negb (String.eqb s EmptyString)
  end.

(** [str(v)] *)
Definition py_str (v : pyval) : string :=
  match v with
  | PNone => "None"
  | PInt n => Str.of_Z n
  | PFloat x => Repr.repr x
  | PStr s => s
  end.

(** Numbers as the arithmetic of the views sees them: [int] or [float].
    An operation with a float operand converts the other one; the ints
    converted in this program are SQLite integers and the literals 0, 1
    and 100, all far inside the range where [float(n)] is defined. *)
Inductive num : Type :=
| NInt (n : Z)
| NFloat (x : float).

Module Num.

Definition to_float (a : num) : float :=
  match a with
  | NInt n => Flt.of_Z n
  | NFloat x => x
  end.

Definition add (a b : num) : num :=
  match a, b with
  | NInt m, NInt n => NInt (m + n)
  | _, _ => NFloat (Flt.add (to_float a) (to_float b))
  end.

Definition sub (a b : num) : num :=
  match a, b with
  | NInt m, NInt n => NInt (m - n)
  | _, _ => NFloat (Flt.sub (to_float a) (to_float b))
  end.

Definition mul (a b : num) : num :=
  match a, b with
  | NInt m, NInt n => NInt (m * n)
  | _, _ => NFloat (Flt.mul (to_float a) (to_float b))
  end.

(** [a / b], true division, for a divisor other than zero (the program
    divides by the literal 100 only). *)
Definition truediv (a b : num) : num :=
  NFloat (Flt.div (to_float a) (to_float b)).

(** [sum(xs)]: left to right from the int [0], each addition rounded.
    (CPython from 3.12 on carries a correction term through a sum of
    floats; the result can differ from this one in the last bits, and
    every statement below about a total holds for either reading since it
    relates two sums of the same terms.) *)
Definition sum (xs : list num) : num := fold_left add xs (NInt 0).

End Num.

(* ================================================================== *)
(** * The price normalizer (lines 22-48) *)

Definition numeric_char (c : ascii) : bool :=
  Str.is_digit c || Ascii.eqb c "," || Ascii.eqb c ".".

Definition normalizar_precio (valor : pyval) : result float :=
  if negb (truthy valor) then Ok Flt.zero
  else
    let valor := Str.strip (py_str valor) in
    let valor := Str.keep_only numeric_char valor in
    valor <-
      (if 1 <? Str.count "." valor then
         let partes := Str.split "." valor in
         ultimo <- Str.item_last partes ;;
         Ok (Str.join "" (Str.all_but_last partes) ++ "." ++ ultimo)
       else Ok valor) ;;
    let valor :=
      if Str.has_char "," valor
      then Str.replace "," "." (Str.replace "." "" valor)
      else valor in
    except_ValueError (Flt.of_string valor) (Ok Flt.zero).

(* ================================================================== *)
(** * The store (lines 50-141)

    Table [productos]: [id INTEGER PRIMARY KEY AUTOINCREMENT],
    [nombre TEXT NOT NULL], [cantidad INTEGER NOT NULL],
    [stock_minimo INTEGER NOT NULL], [precio_costo REAL NOT NULL],
    [proveedor TEXT NOT NULL], [ganancia REAL DEFAULT 0] (nullable).
    Table [usuarios]: [usuario TEXT UNIQUE NOT NULL],
    [password TEXT NOT NULL]. *)

Module Producto.
Record t : Type := make {
  id : Z;
  nombre : string;
  cantidad : Z;
  stock_minimo : Z;
  precio_costo : float;
  proveedor : string;
  ganancia : option float
}.
End Producto.

Definition producto : Type := Producto.t.

Module Usuario.
Record t : Type := make {
  usuario : string;
  password : string
}.
End Usuario.

(** The state a request runs against: the two tables, the largest rowid
    the product table ever gave out, the session's user, the messages
    flashed so far and the number of commits made on the store. *)
Record estado : Type := {
  productos : list producto;
  seq : Z;
  usuarios : list Usuario.t;
  sesion : option string;
  mensajes : list (string * string);
  commits : Z
}.

Definition con_productos (t : list producto) (st : estado) : estado :=
  {| productos := t; seq := seq st; usuarios := usuarios st;
     sesion := sesion st; mensajes := mensajes st; commits := commits st |}.

Definition con_seq (n : Z) (st : estado) : estado :=
  {| productos := productos st; seq := n; usuarios := usuarios st;
     sesion := sesion st; mensajes := mensajes st; commits := commits st |}.

Definition con_usuarios (u : list Usuario.t) (st : estado) : estado :=
  {| productos := productos st; seq := seq st; usuarios := u;
     sesion := sesion st; mensajes := mensajes st; commits := commits st |}.

(** [flash(msg, category)] *)
Definition flash (msg category : string) (st : estado) : estado :=
  {| productos := productos st; seq := seq st; usuarios := usuarios st;
     sesion := sesion st;
     mensajes := (mensajes st ++ [(msg, category)])%list;
     commits := commits st |}.

(** [conn.commit()] *)
Definition commit (st : estado) : estado :=
  {| productos := productos st; seq := seq st; usuarios := usuarios st;
     sesion := sesion st; mensajes := mensajes st;
     commits := commits st + 1 |}.

Module Sql.

Definition int64_min : Z := - 2 ^ 63.
Definition int64_max : Z := 2 ^ 63 - 1.

Definition in_int64 (n : Z) : bool :=
  (int64_min <=? n) && (n <=? int64_max).

(** Binding a Python [int]: sqlite3 refuses one outside 64 bits. *)
Definition bind_int (n : Z) : result Z :=
  if in_int64 n then Ok n else Raise OverflowError.

(** Binding a number for a [REAL] column: an integer becomes a float and
    a NaN becomes NULL. *)
Definition bind_real (v : num) : result (option float) :=
  match v with
  | NInt n => m <- bind_int n ;; Ok (Some (Flt.of_Z m))
  | NFloat x => Ok (if Flt.is_nan x then None else Some x)
  end.

(** The [NOT NULL] constraint of a column. *)
Definition not_null {A : Type} (v : option A) : result A :=
  match v with
  | Some a => Ok a
  | None => Raise IntegrityError
  end.

(** [UPDATE productos SET ... WHERE ...] *)
Definition update (where_ : producto -> bool) (set_ : producto -> producto)
  (t : list producto) : list producto :=
  map (fun p => if where_ p then set_ p else p) t.

(** [DELETE FROM productos WHERE ...] *)
Definition delete (where_ : producto -> bool) (t : list producto)
  : list producto :=
  filter (fun p => negb (where_ p)) t.

(** [SELECT ... WHERE ...] then [fetchone()] *)
Definition fetchone (where_ : producto -> bool) (t : list producto)
  : option producto :=
  find where_ t.

(** Byte-wise order of two texts (the BINARY collation). *)
Fixpoint text_leb (s t : string) : bool :=
  match s, t with
  | EmptyString, _ => true
  | String _ _, EmptyString => false
  | String a s', String b t' =>
      if (N_of_ascii a <? N_of_ascii b)%N then true
      else if Ascii.eqb a b then text_leb s' t'
      else false
  end.

Fixpoint insert_by (key : producto -> string) (p : producto)
  (t : list producto) : list producto :=
  match t with
  | [] => [p]
  | q :: r =>
      if text_leb (key p) (key q) then p :: t else q :: insert_by key p r
  end.

(** [ORDER BY key]; rows with equal keys stay in rowid order. *)
Definition order_by (key : producto -> string) (t : list producto)
  : list producto :=
  fold_right (insert_by key) [] t.

End Sql.

(** [SELECT * FROM productos ORDER BY LOWER(nombre)] *)
Definition obtener_productos (st : estado) : list producto :=
  Sql.order_by (fun p => Str.lower (Producto.nombre p)) (productos st).

(** [SELECT * FROM productos WHERE id=?] *)
Definition obtener_producto (id : Z) (st : estado) : option producto :=
  Sql.fetchone (fun p => Producto.id p =? id) (productos st).

(** [INSERT INTO productos (nombre, ..., ganancia) VALUES (?,?,?,?,?,?)]
    on an open connection: the new row takes the next rowid. *)
Definition insertar (nombre : string) (cantidad stock_minimo : Z)
  (precio_costo : num) (proveedor : string) (ganancia : num) (st : estado)
  : result estado :=
  c <- Sql.bind_int cantidad ;;
  s <- Sql.bind_int stock_minimo ;;
  pc0 <- Sql.bind_real precio_costo ;;
  g <- Sql.bind_real ganancia ;;
  pc <- Sql.not_null pc0 ;;
  let fila := Producto.make (seq st + 1) nombre c s pc proveedor g in
  Ok (con_seq (seq st + 1)
        (con_productos (productos st ++ [fila])%list st)).

Definition agregar_producto (nombre : string) (cantidad stock_minimo : Z)
  (precio_costo : float) (proveedor : string) (ganancia : float)
  (st : estado) : result estado :=
  st' <- insertar nombre cantidad stock_minimo (NFloat precio_costo)
           proveedor (NFloat ganancia) st ;;
  Ok (commit st').

Definition actualizar_producto (id : Z) (nombre : string)
  (cantidad stock_minimo : Z) (precio_costo : float) (proveedor : string)
  (ganancia : float) (st : estado) : result estado :=
  c <- Sql.bind_int cantidad ;;
  s <- Sql.bind_int stock_minimo ;;
  pc0 <- Sql.bind_real (NFloat precio_costo) ;;
  g <- Sql.bind_real (NFloat ganancia) ;;
  i <- Sql.bind_int id ;;
  pc <- Sql.not_null pc0 ;;
  Ok (commit
        (con_productos
           (Sql.update (fun p => Producto.id p =? i)
              (fun p => Producto.make (Producto.id p) nombre c s pc proveedor g)
              (productos st)) st)).

Definition eliminar_producto (id : Z) (st : estado) : result estado :=
  i <- Sql.bind_int id ;;
  Ok (commit
        (con_productos
           (Sql.delete (fun p => Producto.id p =? i) (productos st)) st)).

(* ================================================================== *)
(** * Ordered dictionaries

    A Python [dict] keeps its keys in insertion order: a list of
    bindings with distinct keys. *)

Module Dict.

Definition t (V : Type) : Type := list (string * V).

(** [k in d] *)
Fixpoint mem {V : Type} (k : string) (d : t V) : bool :=
  match d with
  | [] => false
  | (k', _) :: r => String.eqb k' k || mem k r
  end.

(** [d[k]] *)
Fixpoint getitem {V : Type} (k : string) (d : t V) : result V :=
  match d with
  | [] => Raise KeyError
  | (k', v) :: r => if String.eqb k' k then Ok v else getitem k r
  end.

(** [d[k] = v]: in place for a key already there, at the end for a new
    one. *)
Fixpoint setitem {V : Type} (k : string) (v : V) (d : t V) : t V :=
  match d with
  | [] => [(k, v)]
  | (k', v') :: r =>
      if String.eqb k' k then (k', v) :: r else (k', v') :: setitem k v r
  end.

Definition keys {V : Type} (d : t V) : list string := map fst d.

End Dict.

(* ================================================================== *)
(** * The reorder generator (lines 144-164) *)

Module Linea.
Record t : Type := make {
  faltante : Z;
  nombre : string;
  precio_costo : float
}.
End Linea.

Definition linea : Type := Linea.t.

(** One turn of the loop of [generar_pedidos].  [pedidos[prov].append(x)]
    reads the list under [prov] and extends that same list. *)
Definition generar_pedidos_paso (pedidos : Dict.t (list linea)) (p : producto)
  : result (Dict.t (list linea)) :=
  let faltante := Producto.stock_minimo p - Producto.cantidad p in
  if 0 <? faltante then
    let prov := Producto.proveedor p in
    let pedidos :=
      if negb (Dict.mem prov pedidos) then Dict.setitem prov [] pedidos
      else pedidos in
    lista <- Dict.getitem prov pedidos ;;
    Ok (Dict.setitem prov
          (lista ++ [Linea.make faltante (Producto.nombre p)
                       (Producto.precio_costo p)])%list
          pedidos)
  else Ok pedidos.

Fixpoint generar_pedidos_bucle (ps : list producto)
  (pedidos : Dict.t (list linea)) : result (Dict.t (list linea)) :=
  match ps with
  | [] => Ok pedidos
  | p :: r =>
      pedidos' <- generar_pedidos_paso pedidos p ;;
      generar_pedidos_bucle r pedidos'
  end.

Definition generar_pedidos (st : estado) : result (Dict.t (list linea)) :=
  generar_pedidos_bucle (obtener_productos st) [].

Module Url.

Definition hex_digit (n : N) : ascii :=
  if (n <? 10)%N then ascii_of_N (48 + n) else ascii_of_N (55 + n).

(** Characters [urllib.parse.quote] leaves as they are: letters, digits,
    [_.-~] and the default safe character [/]. *)
Definition unreserved (c : ascii) : bool :=
  Str.is_digit c || Str.is_upper c || Str.is_lower c ||
  Ascii.eqb c "_" || Ascii.eqb c "." || Ascii.eqb c "-" ||
  Ascii.eqb c "~" || Ascii.eqb c "/".

Definition quote_char (c : ascii) : string :=
  if unreserved c then String c EmptyString
  else
    let n := N_of_ascii c in
    String "%" (String (hex_digit (n / 16)) (String (hex_digit (n mod 16))
      EmptyString)).

(** [urllib.parse.quote(s)]: every other byte of the UTF-8 encoding
    becomes [%XX]. *)
Fixpoint quote (s : string) : string :=
  match s with
  | EmptyString => EmptyString
  | String c r => quote_char c ++ quote r
  end.

End Url.

Definition nl : string := String "010" EmptyString.

(** The header of a supplier's message, with its blank line. *)
Definition encabezado (proveedor : string) : string :=
  "📦 *Pedido para " ++ proveedor ++ "* 📦" ++ nl ++ nl.

(** The line of one product: [- <faltante> <nombre>]. *)
Definition renglon (p : linea) : string :=
  "- " ++ Str.of_Z (Linea.faltante p) ++ " " ++ Linea.nombre p ++ nl.

Definition generar_mensaje_whatsapp (proveedor : string)
  (lista_productos : list linea) : string :=
  let mensaje :=
    fold_left (fun mensaje p => mensaje ++ renglon p) lista_productos
      (encabezado proveedor) in
  Url.quote mensaje.

(* ================================================================== *)
(** * Views *)

Inductive respuesta (A : Type) : Type :=
| Redirect (endpoint : string)
| Render (template : string) (contexto : A)
| Texto (cuerpo : string) (codigo : Z).

Arguments Redirect {A} endpoint.
Arguments Render {A} template contexto.
Arguments Texto {A} cuerpo codigo.

(** ** The inventory view and its totals (lines 173-209) *)

(** [p["ganancia"] or 0] *)
Definition ganancia_o_0 (p : producto) : num :=
  match Producto.ganancia p with
  | Some g => if truthy (PFloat g) then NFloat g else NInt 0
  | None => NInt 0
  end.

Module Item.
Record t : Type := make {
  id : Z;
  nombre : string;
  cantidad : Z;
  stock_minimo : Z;
  precio_costo : float;
  ganancia : num;
  precio_venta : num;
  proveedor : string
}.
End Item.

Record inventario_ctx : Type := {
  ctx_productos : list Item.t;
  ctx_query : string;
  total_costo : num;
  total_venta : num;
  ctx_ganancia : num
}.

Definition inventario (q_arg : string) (st : estado)
  : respuesta inventario_ctx :=
  match sesion st with
  | None => Redirect "login"
  | Some _ =>
      let q := Str.lower q_arg in
      let productos_db := obtener_productos st in
      let productos :=
        map (fun p =>
               let precio_venta :=
                 Num.mul (NFloat (Producto.precio_costo p))
                   (Num.add (NInt 1)
                      (Num.truediv (ganancia_o_0 p) (NInt 100))) in
               Item.make (Producto.id p) (Producto.nombre p)
                 (Producto.cantidad p) (Producto.stock_minimo p)
                 (Producto.precio_costo p) (ganancia_o_0 p) precio_venta
                 (Producto.proveedor p))
          productos_db in
      let productos :=
        if truthy (PStr q) then
          filter (fun p =>
                    Str.contains q (Str.lower (Item.nombre p)) ||
                    Str.contains q (Str.lower (Item.proveedor p)))
            productos
        else productos in
      let total_costo :=
        Num.sum (map (fun p => Num.mul (NInt (Item.cantidad p))
                                 (NFloat (Item.precio_costo p))) productos) in
      let total_venta :=
        Num.sum (map (fun p => Num.mul (NInt (Item.cantidad p))
                                 (Item.precio_venta p)) productos) in
      let ganancia := Num.sub total_venta total_costo in
      Render "index.html"
        {| ctx_productos := productos; ctx_query := q;
           total_costo := total_costo; total_venta := total_venta;
           ctx_ganancia := ganancia |}
  end.

(** ** The sell operation (lines 304-315)

    The route [/vender/<nombre>/<int:cantidad>] matches digits only, so
    [cantidad] is never negative.  One statement,
    [UPDATE productos SET cantidad = cantidad - ? WHERE nombre=? AND
    cantidad >= ?], both tests and writes; the message is flashed whether
    or not a row matched. *)
Definition vender (nombre : string) (cantidad : N) (st : estado)
  : result (respuesta unit * estado) :=
  match sesion st with
  | None => Ok (Redirect "login", st)
  | Some _ =>
      c <- Sql.bind_int (Z.of_N cantidad) ;;
      let t :=
        Sql.update
          (fun p => String.eqb (Producto.nombre p) nombre &&
                    (c <=? Producto.cantidad p))
          (fun p => Producto.make (Producto.id p) (Producto.nombre p)
                      (Producto.cantidad p - c) (Producto.stock_minimo p)
                      (Producto.precio_costo p) (Producto.proveedor p)
                      (Producto.ganancia p))
          (productos st) in
      let st := commit (con_productos t st) in
      let st :=
        flash ("✅ Se vendieron " ++ Str.of_Z (Z.of_N cantidad) ++
               " unidades de " ++ nombre ++ ".") "success" st in
      Ok (Redirect "lista_precios", st)
  end.

(* ================================================================== *)
(** * Conversions to [int] *)

(** [int(x)] for a float: towards zero. *)
Definition int_of_float (x : float) : result Z :=
  match x with
  | S754_nan => Raise ValueError
  | S754_infinity _ => Raise OverflowError
  | S754_zero _ => Ok 0
  | S754_finite s m e =>
      let a := if 0 <=? e then Zpos m * 2 ^ e else Zpos m / 2 ^ (- e) in
      Ok (if s then - a else a)
  end.

(** [int(s)] for a text: underscores between digits, surrounding
    whitespace, a sign, digits. *)
Definition int_of_string (s : string) : result Z :=
  match Str.drop_underscores "000" s with
  | None => Raise ValueError
  | Some s1 =>
      let '(neg, body) := Flt.split_sign (Str.strip s1) in
      if Str.all_digits body && negb (String.eqb body EmptyString) then
        Ok (if neg then - Str.digits_value 0 body else Str.digits_value 0 body)
      else Raise ValueError
  end.

(** [int(v)] *)
Definition py_int (v : pyval) : result Z :=
  match v with
  | PNone => Raise TypeError
  | PInt n => Ok n
  | PFloat x => int_of_float x
  | PStr s => int_of_string s
  end.

(* ================================================================== *)
(** * Spreadsheets

    A frame is its column labels and its rows of cells; a blank cell is
    the float NaN.  Labels are taken to be distinct, as pandas makes
    them on reading. *)

Record dataframe : Type := {
  columns : list string;
  filas : list (list pyval)
}.

(** [pd.isna(v)] *)
Definition pd_isna (v : pyval) : bool :=
  match v with
  | PNone => true
  | PFloat x => Flt.is_nan x
  | _ => false
  end.

(** [row[label]] *)
Fixpoint row_get (cols : list string) (row : list pyval) (label : string)
  : result pyval :=
  match cols, row with
  | c :: cs, v :: vs =>
      if String.eqb c label then Ok v else row_get cs vs label
  | _, _ => Raise KeyError
  end.

(** [label in df.columns] *)
Definition has_column (cols : list string) (label : string) : bool :=
  existsb (String.eqb label) cols.




(* ================================================================== *)
(** * Spreadsheet import (lines 348-436) *)

(** [conv(row[label]) if label in df.columns and not pd.isna(row[label])
    else None] *)
Definition campo_opcional {A : Type} (cols : list string) (row : list pyval)
  (label : string) (conv : pyval -> result A) : result (option A) :=
  if has_column cols label then
    v <- row_get cols row label ;;
    if negb (pd_isna v) then a <- conv v ;; Ok (Some a) else Ok None
  else Ok None.

(** [float(str(v).replace(",", "."))] *)
Definition float_con_coma (v : pyval) : result float :=
  Flt.of_string (Str.replace "," "." (py_str v)).

(** One entry of [campos] with its entry of [valores]. *)
Inductive asignacion : Type :=
| SetCantidad (n : Z)
| SetStockMinimo (n : Z)
| SetPrecioCosto (x : float)
| SetProveedor (s : string)
| SetGanancia (x : float).

(** [if v is not None: campos.append(...); valores.append(v)] *)
Definition anexar {A : Type} (campos : list asignacion) (v : option A)
  (campo : A -> asignacion) : list asignacion :=
  match v with
  | Some a => campos ++ [campo a]
  | None => campos
  end.

(** An assignment with its value bound as SQLite stores it. *)
Inductive ligada : Type :=
| LCantidad (n : Z)
| LStockMinimo (n : Z)
| LPrecioCosto (x : option float)
| LProveedor (s : string)
| LGanancia (x : option float).

Definition ligar (a : asignacion) : result ligada :=
  match a with
  | SetCantidad n => m <- Sql.bind_int n ;; Ok (LCantidad m)
  | SetStockMinimo n => m <- Sql.bind_int n ;; Ok (LStockMinimo m)
  | SetPrecioCosto x => y <- Sql.bind_real (NFloat x) ;; Ok (LPrecioCosto y)
  | SetProveedor s => Ok (LProveedor s)
  | SetGanancia x => y <- Sql.bind_real (NFloat x) ;; Ok (LGanancia y)
  end.

Fixpoint ligar_todas (campos : list asignacion) : result (list ligada) :=
  match campos with
  | [] => Ok []
  | a :: r => l <- ligar a ;; ls <- ligar_todas r ;; Ok (l :: ls)
  end.

(** The effect of one [SET columna=?] on a row. *)
Definition asignar (l : ligada) (p : producto) : result producto :=
  match l with
  | LCantidad n =>
      Ok (Producto.make (Producto.id p) (Producto.nombre p) n
            (Producto.stock_minimo p) (Producto.precio_costo p)
            (Producto.proveedor p) (Producto.ganancia p))
  | LStockMinimo n =>
      Ok (Producto.make (Producto.id p) (Producto.nombre p)
            (Producto.cantidad p) n (Producto.precio_costo p)
            (Producto.proveedor p) (Producto.ganancia p))
  | LPrecioCosto x =>
      y <- Sql.not_null x ;;
      Ok (Producto.make (Producto.id p) (Producto.nombre p)
            (Producto.cantidad p) (Producto.stock_minimo p) y
            (Producto.proveedor p) (Producto.ganancia p))
  | LProveedor s =>
      Ok (Producto.make (Producto.id p) (Producto.nombre p)
            (Producto.cantidad p) (Producto.stock_minimo p)
            (Producto.precio_costo p) s (Producto.ganancia p))
  | LGanancia x =>
      Ok (Producto.make (Producto.id p) (Producto.nombre p)
            (Producto.cantidad p) (Producto.stock_minimo p)
            (Producto.precio_costo p) (Producto.proveedor p) x)
  end.

Fixpoint asignar_todas (ls : list ligada) (p : producto) : result producto :=
  match ls with
  | [] => Ok p
  | l :: r => p' <- asignar l p ;; asignar_todas r p'
  end.

(** [UPDATE productos SET <campos> WHERE nombre=?]: the statement fails
    as a whole, leaving the table as it was, when a value cannot be bound
    or a matching row would break a constraint. *)
Fixpoint actualizar_filas (ls : list ligada) (nombre : string)
  (t : list producto) : result (list producto) :=
  match t with
  | [] => Ok []
  | p :: r =>
      p' <- (if String.eqb (Producto.nombre p) nombre
             then asignar_todas ls p else Ok p) ;;
      r' <- actualizar_filas ls nombre r ;;
      Ok (p' :: r')
  end.

Definition ejecutar_update (campos : list asignacion) (nombre : string)
  (st : estado) : result estado :=
  ls <- ligar_todas campos ;;
  t <- actualizar_filas ls nombre (productos st) ;;
  Ok (con_productos t st).

(** [x if x is not None else d] *)
Definition o_defecto {A : Type} (v : option A) (d : A) : A :=
  match v with
  | Some a => a
  | None => d
  end.

(** What one row provides: the name, and each optional field when its
    column is there and its cell is not blank. *)
Record campos_fila : Type := {
  c_nombre : string;
  c_cantidad : option Z;
  c_stock_minimo : option Z;
  c_precio_costo : option float;
  c_ganancia : option float;
  c_proveedor : option string
}.

(** Lines 375-382: reading the fields of a row. *)
Definition leer_fila (cols : list string) (row : list pyval)
  : result campos_fila :=
  celda <- row_get cols row "Nombre" ;;
  let nombre := Str.strip (py_str celda) in
  cantidad <- campo_opcional cols row "Cantidad" py_int ;;
  stock_minimo <- campo_opcional cols row "Stock Mínimo" py_int ;;
  precio_costo <- campo_opcional cols row "Precio Costo" float_con_coma ;;
  ganancia <- campo_opcional cols row "% Ganancia" float_con_coma ;;
  proveedor <- campo_opcional cols row "Proveedor"
                 (fun v => Ok (Str.strip (py_str v))) ;;
  Ok {| c_nombre := nombre; c_cantidad := cantidad;
        c_stock_minimo := stock_minimo; c_precio_costo := precio_costo;
        c_ganancia := ganancia; c_proveedor := proveedor |}.

(** Lines 384-424: update the rows of that name, or insert a new one. *)
Definition upsert (f : campos_fila) (st : estado) : result estado :=
  let nombre := c_nombre f in
  let existe :=
    Sql.fetchone (fun p => String.eqb (Producto.nombre p) nombre)
      (productos st) in
  match existe with
  | Some _ =>
      let campos := [] in
      let campos := anexar campos (c_cantidad f) SetCantidad in
      let campos := anexar campos (c_stock_minimo f) SetStockMinimo in
      let campos := anexar campos (c_precio_costo f) SetPrecioCosto in
      let campos := anexar campos (c_proveedor f) SetProveedor in
      let campos := anexar campos (c_ganancia f) SetGanancia in
      match campos with
      | [] => Ok st
      | _ => ejecutar_update campos nombre st
      end
  | None =>
      insertar nombre
        (o_defecto (c_cantidad f) 0)
        (o_defecto (c_stock_minimo f) 0)
        (o_defecto (option_map NFloat (c_precio_costo f)) (NInt 0))
        (o_defecto (c_proveedor f) "")
        (o_defecto (option_map NFloat (c_ganancia f)) (NInt 0))
        st
  end.

(** The body of the [try] of one row. *)
Definition procesar_fila (cols : list string) (row : list pyval)
  (st : estado) : result estado :=
  f <- leer_fila cols row ;;
  upsert f st.

(** The loop over the rows: a row that raises is counted and skipped. *)
Fixpoint importar_bucle (cols : list string) (rows : list (list pyval))
  (st : estado) (filas_ok filas_err : Z) : estado * Z * Z :=
  match rows with
  | [] => (st, filas_ok, filas_err)
  | row :: r =>
      match procesar_fila cols row st with
      | Ok st' => importar_bucle cols r st' (filas_ok + 1) filas_err
      | Raise _ => importar_bucle cols r st filas_ok (filas_err + 1)
      end
  end.

Definition ends_with (suffix s : string) : bool :=
  let n := String.length s in
  let k := String.length suffix in
  (k <=? n)%nat && String.eqb (Str.drop (n - k) s) suffix.

Definition mensaje_importacion (filas_ok filas_err : Z) : string :=
  "✅ Importación completada: " ++ Str.of_Z filas_ok ++
  " productos actualizados/insertados, " ++ Str.of_Z filas_err ++
  " errores.".

(** The POST branch.  [archivo] is the uploaded file, if any: its name
    and the frame [pd.read_excel] reads from it. *)
Definition importar_excel (archivo : option (string * dataframe))
  (st : estado) : respuesta unit * estado :=
  match sesion st with
  | None => (Redirect "login", st)
  | Some _ =>
      match archivo with
      | Some (filename, df) =>
          if negb (ends_with ".xlsx" filename) then
            (Redirect "importar_excel",
             flash "❌ Debes subir un archivo Excel válido (.xlsx)." "danger"
               st)
          else
            let cols := map Str.strip (columns df) in
            if negb (has_column cols "Nombre") then
              (Redirect "importar_excel",
               flash
                 "❌ El Excel debe contener al menos la columna 'Nombre'."
                 "danger" st)
            else
              let '(st1, filas_ok, filas_err) :=
                importar_bucle cols (filas df) st 0 0 in
              let st2 := commit st1 in
              (Redirect "index",
               flash (mensaje_importacion filas_ok filas_err) "success" st2)
      | None =>
          (Redirect "importar_excel",
           flash "❌ Debes subir un archivo Excel válido (.xlsx)." "danger"
             st)
      end
  end.

(* ================================================================== *)
(** * General export (lines 440-468) *)

Definition pyval_of_num (a : num) : pyval :=
  match a with
  | NInt n => PInt n
  | NFloat x => PFloat x
  end.

Definition columnas_export : list string :=
  ["Nombre"; "Precio Costo"; "% Ganancia"; "Cantidad"; "Stock Mínimo";
   "Proveedor"].

Definition fila_export (p : producto) : list pyval :=
  [PStr (Producto.nombre p); PFloat (Producto.precio_costo p);
   pyval_of_num (ganancia_o_0 p); PInt (Producto.cantidad p);
   PInt (Producto.stock_minimo p); PStr (Producto.proveedor p)].

(** The frame written to [productos_export_<fecha>.xlsx]. *)
Definition exportar_frame (st : estado) : dataframe :=
  {| columns := columnas_export;
     filas := map fila_export (obtener_productos st) |}.

Inductive descarga : Type :=
| Archivo (nombre : string) (contenido : dataframe)
| IrA (endpoint : string).

Definition exportar_excel (fecha : string) (st : estado) : descarga :=
  match sesion st with
  | None => IrA "login"
  | Some _ =>
      Archivo ("productos_export_" ++ fecha ++ ".xlsx") (exportar_frame st)
  end.

(* ================================================================== *)
(** * The reorder view (lines 258-278) *)

Record pedidos_ctx : Type := {
  ctx_pedidos : Dict.t (list linea);
  enlaces : Dict.t string;
  totales : Dict.t num;
  total_general : num
}.

Definition total_proveedor (lista : list linea) : num :=
  Num.sum (map (fun p => Num.mul (NInt (Linea.faltante p))
                           (NFloat (Linea.precio_costo p))) lista).

Definition enlace (prov : string) (lista : list linea) : string :=
  "https://wa.me/?text=" ++ generar_mensaje_whatsapp prov lista.

Definition pedidos (st : estado) : result (respuesta pedidos_ctx) :=
  match sesion st with
  | None => Ok (Redirect "login")
  | Some _ =>
      pedidos <- generar_pedidos st ;;
      let '(enlaces, totales, total_general) :=
        fold_left
          (fun '(enlaces, totales, total_general) '(prov, lista) =>
             (Dict.setitem prov (enlace prov lista) enlaces,
              Dict.setitem prov (total_proveedor lista) totales,
              Num.add total_general (total_proveedor lista)))
          pedidos ([], [], NInt 0) in
      Ok (Render "pedidos.html"
            {| ctx_pedidos := pedidos; enlaces := enlaces;
               totales := totales; total_general := total_general |})
  end.

(* ================================================================== *)
(** * Create and edit (lines 211-249)

    The form carries every field as text. *)

Record formulario : Type := {
  f_nombre : string;
  f_cantidad : string;
  f_stock_minimo : string;
  f_precio_costo : string;
  f_proveedor : string;
  f_ganancia : string
}.

(** [agregar]; [form] is the posted form, [None] for a GET. *)
Definition agregar (form : option formulario) (st : estado)
  : result (respuesta unit * estado) :=
  match sesion st with
  | None => Ok (Redirect "login", st)
  | Some _ =>
      match form with
      | Some f =>
          cantidad <- int_of_string (f_cantidad f) ;;
          stock_minimo <- int_of_string (f_stock_minimo f) ;;
          precio_costo <- normalizar_precio (PStr (f_precio_costo f)) ;;
          ganancia <- Flt.of_string (Str.replace "," "." (f_ganancia f)) ;;
          st' <- agregar_producto (f_nombre f) cantidad stock_minimo
                   precio_costo (f_proveedor f) ganancia st ;;
          Ok (Redirect "index", st')
      | None => Ok (Render "agregar.html" tt, st)
      end
  end.

(** [editar]; the route [/editar/<int:id>] matches digits only. *)
Definition editar (id : N) (form : option formulario) (st : estado)
  : result (respuesta producto * estado) :=
  match sesion st with
  | None => Ok (Redirect "login", st)
  | Some _ =>
      match obtener_producto (Z.of_N id) st with
      | None => Ok (Texto "No encontrado" 404, st)
      | Some producto =>
          match form with
          | Some f =>
              cantidad <- int_of_string (f_cantidad f) ;;
              stock_minimo <- int_of_string (f_stock_minimo f) ;;
              precio_costo <- normalizar_precio (PStr (f_precio_costo f)) ;;
              ganancia <-
                Flt.of_string (Str.replace "," "." (f_ganancia f)) ;;
              st' <- actualizar_producto (Z.of_N id) (f_nombre f) cantidad
                       stock_minimo precio_costo (f_proveedor f) ganancia
                       st ;;
              Ok (Redirect "inventario", st')
          | None => Ok (Render "editar.html" producto, st)
          end
      end
  end.

(* ================================================================== *)
(** * Login and password change (lines 472-528)

    The two functions of [werkzeug.security] are taken as given:
    [check_password_hash stored password] tells whether [password]
    matches the stored hash, and [generate_password_hash] hashes a
    password with a salt it draws, passed here as an argument. *)

Section Auth.

Variable check_password_hash : string -> string -> bool.
Variable generate_password_hash : string -> string -> string.

(** [SELECT * FROM usuarios WHERE usuario=?] then [fetchone()] *)
Definition buscar_usuario (usuario : string) (st : estado)
  : option Usuario.t :=
  find (fun u => String.eqb (Usuario.usuario u) usuario) (usuarios st).

Definition con_sesion (s : option string) (st : estado) : estado :=
  {| productos := productos st; seq := seq st; usuarios := usuarios st;
     sesion := s; mensajes := mensajes st; commits := commits st |}.

(** [login]; [form] is the posted user name and password. *)
Definition login (form : option (string * string)) (st : estado)
  : respuesta unit * estado :=
  match form with
  | Some (usuario, password) =>
      match buscar_usuario usuario st with
      | Some user =>
          if check_password_hash (Usuario.password user) password then
            (Redirect "lista_precios",
             flash ("✅ Bienvenido, " ++ usuario) "success"
               (con_sesion (Some usuario) st))
          else
            (Render "login.html" tt,
             flash "❌ Usuario o contraseña incorrectos" "danger" st)
      | None =>
          (Render "login.html" tt,
           flash "❌ Usuario o contraseña incorrectos" "danger" st)
      end
  | None => (Render "login.html" tt, st)
  end.

Record cambio : Type := {
  actual : string;
  nueva : string;
  confirmar : string
}.

(** [cambiar_password]; [form] is the posted form, [None] for a GET, and
    [sal] the salt the new hash is made with. *)
Definition cambiar_password (form : option cambio) (sal : string)
  (st : estado) : respuesta unit * estado :=
  match sesion st with
  | None => (Redirect "login", st)
  | Some usuario =>
      match form with
      | Some f =>
          if negb (String.eqb (nueva f) (confirmar f)) then
            (Redirect "cambiar_password",
             flash "❌ Las contraseñas nuevas no coinciden" "danger" st)
          else
            let user := buscar_usuario usuario st in
            let rechazada :=
              match user with
              | None => true
              | Some u =>
                  negb (check_password_hash (Usuario.password u) (actual f))
              end in
            if rechazada then
              (Redirect "cambiar_password",
               flash "❌ Contraseña actual incorrecta" "danger" st)
            else
              let hash := generate_password_hash sal (nueva f) in
              let tabla :=
                map (fun u =>
                       if String.eqb (Usuario.usuario u) usuario
                       then Usuario.make (Usuario.usuario u) hash
                       else u)
                  (usuarios st) in
              (Redirect "inventario",
               flash "✅ Contraseña cambiada con éxito" "success"
                 (commit (con_usuarios tabla st)))
      | None => (Render "cambiar_password.html" tt, st)
      end
  end.

End Auth.

(* ================================================================== *)
(** * The normalizer's contract

    The contract as the specification words it, to be compared with
    [normalizar_precio]: keep digits, commas and periods; when more than
    one period remains, every period but the last is a thousands
    separator and goes away; when a comma is present, the periods go away
    and the comma is the decimal point; read the result as a decimal, 0.0
    when it is none. *)

Fixpoint drop_periods_but_last (s : string) : string :=
  match s with
  | EmptyString => EmptyString
  | String c r =>
      if Ascii.eqb c "." && Str.has_char "." r
      then drop_periods_but_last r
      else String c (drop_periods_but_last r)
  end.

(** The decimal a text denotes, 0.0 when it denotes none. *)
Definition decimal_or_zero (t : string) : float :=
  match Flt.of_string t with
  | Ok x => x
  | Raise _ => Flt.zero
  end.

Definition normalize_text (s : string) : float :=
  let kept := Str.keep_only numeric_char s in
  let joined :=
    if 1 <? Str.count "." kept then drop_periods_but_last kept else kept in
  let decimal :=
    if Str.has_char "," joined
    then Str.replace "," "." (Str.replace "." "" joined)
    else joined in
  decimal_or_zero decimal.

Definition normalize_spec (v : pyval) : float :=
  if truthy v then normalize_text (py_str v) else Flt.zero.

(* ================================================================== *)
(** * The price filter of the templates (lines 13-19)

    [f"{x:,.2f}"] with the two separators swapped: periods group the
    thousands and a comma marks the decimals. *)

Module Fmt.

(** The integer nearest to [num/den], ties to even. *)
Definition round_half_even (num den : Z) : Z :=
  let q := num / den in
  let r := num mod den in
  if 2 * r <? den then q
  else if den <? 2 * r then q + 1
  else if Z.even q then q else q + 1.

(** A separator after every third digit, counted on the reversed
    digits. *)
Fixpoint group_rev (sep : ascii) (k : nat) (ds : list ascii) : list ascii :=
  match ds with
  | [] => []
  | d :: r =>
      match k, r with
      | _, [] => [d]
      | O, _ => d :: sep :: group_rev sep 2 r
      | S k', _ => d :: group_rev sep k' r
      end
  end.

Definition group (sep : ascii) (s : string) : string :=
  string_of_list_ascii
    (rev (group_rev sep 2 (rev (list_ascii_of_string s)))).

Definition two_digits (n : Z) : string :=
  (if n <? 10 then "0" else "") ++ Str.of_Z n.

(** [f"{x:,.2f}"] *)
Definition fixed2 (x : float) : string :=
  match x with
  | S754_nan => "nan"
  | S754_infinity s => Repr.sign s ++ "inf"
  | S754_zero s => Repr.sign s ++ "0.00"
  | S754_finite s m e =>
      let num := if 0 <=? e then Zpos m * 2 ^ e else Zpos m in
      let den := if 0 <=? e then 1 else 2 ^ (- e) in
      let q := round_half_even (100 * num) den in
      Repr.sign s ++ group "," (Str.of_Z (q / 100)) ++ "." ++
      two_digits (q mod 100)
  end.

End Fmt.

(** [format_precio] on a number, where [float(value)] cannot fail. *)
Definition format_precio (value : float) : string :=
  Str.replace "X" "."
    (Str.replace "." "," (Str.replace "," "X" (Fmt.fixed2 value))).

(* ================================================================== *)
(** * The pricing contract

    The totals as the specification words them, to be compared with
    [inventario]: the sale price of a product is
    [cost_price * (1 + markup_percent/100)]; the filter keeps the
    products whose name or supplier contains the query, letter case
    aside; the totals are sums over the products kept. *)

Definition sale_price (p : producto) : num :=
  Num.mul (NFloat (Producto.precio_costo p))
    (Num.add (NInt 1) (Num.truediv (ganancia_o_0 p) (NInt 100))).



(* ================================================================== *)
(** * The reorder contract

    The grouping as the specification words it, to be compared with
    [generar_pedidos]: a product is short when
    [stock_minimum - quantity > 0]; the suppliers of the short products,
    each once and in the order first seen, are the keys; under each key
    stand the lines of its short products, in the order of the list. *)

Definition shortfall (p : producto) : Z :=
  Producto.stock_minimo p - Producto.cantidad p.

Definition is_short (p : producto) : bool := 0 <? shortfall p.

Definition line_of (p : producto) : linea :=
  Linea.make (shortfall p) (Producto.nombre p) (Producto.precio_costo p).

Definition lines_for (prov : string) (ps : list producto) : list linea :=
  map line_of
    (filter (fun p => is_short p && String.eqb (Producto.proveedor p) prov)
       ps).

(** The elements of [l] after those of [seen], each once, in the order
    first seen. *)
Fixpoint first_seen (seen l : list string) : list string :=
  match l with
  | [] => seen
  | x :: r =>
      if existsb (String.eqb x) seen then first_seen seen r
      else first_seen (seen ++ [x]) r
  end.

Definition short_suppliers (ps : list producto) : list string :=
  first_seen [] (map Producto.proveedor (filter is_short ps)).

Definition reorder_spec (ps : list producto) : Dict.t (list linea) :=
  map (fun prov => (prov, lines_for prov ps)) (short_suppliers ps).

(** The message of a supplier before percent-encoding: the header, a
    blank line, and a line for each product. *)
Definition message_text (prov : string) (lista : list linea) : string :=
  encabezado prov ++ String.concat "" (map renglon lista).

(* ================================================================== *)
(** * The sell contract *)

(** What one sale does to one row: [p] before, [p'] after. *)
Definition venta_de_fila (nombre : string) (c : Z) (p p' : producto) : Prop :=
  (Producto.nombre p = nombre /\ c <= Producto.cantidad p ->
   p' = Producto.make (Producto.id p) (Producto.nombre p)
          (Producto.cantidad p - c) (Producto.stock_minimo p)
          (Producto.precio_costo p) (Producto.proveedor p)
          (Producto.ganancia p)) /\
  (Producto.nombre p <> nombre \/ Producto.cantidad p < c -> p' = p) /\
  (Producto.nombre p = nombre /\ Producto.cantidad p = c ->
   Producto.cantidad p' = 0) /\
  (0 <= Producto.cantidad p -> 0 <= Producto.cantidad p') /\
  (Producto.cantidad p' < 0 -> p' = p).

(* ================================================================== *)
(** * A sample store *)

Definition ejemplo_productos : list producto :=
  [ Producto.make 1 "Cable 2mm" 5 10 (Flt.of_Z 100) "Acme"
      (Some (Flt.of_Z 20));
    Producto.make 2 "alambre" 20 5 (Flt.of_decimal false 25 (-1)) "Beta"
      (Some Flt.zero);
    Producto.make 3 "Bombilla" 0 4 (Flt.of_decimal false 4747363 (-2))
      "Acme" None;
    Producto.make 4 "Zócalo" 1 3 (Flt.of_Z 7) "beta SRL"
      (Some (Flt.of_decimal false 355 (-1))) ].

Definition ejemplo_usuarios : list Usuario.t :=
  [ Usuario.make "admin" "salt0$admin123" ].

Definition ejemplo : estado :=
  {| productos := ejemplo_productos; seq := 4;
     usuarios := ejemplo_usuarios; sesion := Some "admin";
     mensajes := []; commits := 0 |}.

(* ================================================================== *)
(** * The upsert contract

    The effect of a row on a product of its name as the specification
    words it: a field the row provides is written, a field it does not
    provide keeps its stored value.  A NaN markup is stored as NULL. *)

Definition stored_real (x : float) : option float :=
  if Flt.is_nan x then None else Some x.

Definition partial_update (f : campos_fila) (p : producto) : producto :=
  Producto.make (Producto.id p) (Producto.nombre p)
    (match c_cantidad f with Some n => n | None => Producto.cantidad p end)
    (match c_stock_minimo f with
     | Some n => n
     | None => Producto.stock_minimo p
     end)
    (match c_precio_costo f with
     | Some x => x
     | None => Producto.precio_costo p
     end)
    (match c_proveedor f with Some s => s | None => Producto.proveedor p end)
    (match c_ganancia f with
     | Some x => stored_real x
     | None => Producto.ganancia p
     end).

(** The product inserted for a row of a new name: 0 and the empty text
    stand in for what the row does not provide. *)
Definition new_product (id : Z) (f : campos_fila) : producto :=
  Producto.make id (c_nombre f)
    (match c_cantidad f with Some n => n | None => 0 end)
    (match c_stock_minimo f with Some n => n | None => 0 end)
    (match c_precio_costo f with Some x => x | None => Flt.zero end)
    (match c_proveedor f with Some s => s | None => "" end)
    (match c_ganancia f with
     | Some x => stored_real x
     | None => Some Flt.zero
     end).

(** The values of a row that SQLite accepts: integers within 64 bits and
    a cost price that is a number. *)
Definition storable (f : campos_fila) : bool :=
  match c_cantidad f with Some n => Sql.in_int64 n | None => true end &&
  match c_stock_minimo f with Some n => Sql.in_int64 n | None => true end &&
  match c_precio_costo f with
  | Some x => negb (Flt.is_nan x)
  | None => true
  end.

(* ================================================================== *)
(** * Export followed by import *)





(** A frame with a row whose quantity is no number. *)
Definition ejemplo_frame : dataframe :=
  {| columns := ["Nombre "; "Cantidad"];
     filas := [ [PStr "alambre"; PInt 7];
                [PStr "Cable 2mm"; PStr "abc"];
                [PStr "Nuevo"; PFloat (Flt.of_Z 3)] ] |}.


(* ================================================================== *)
(** * A stand-in for the password hashing

    Used to run the password change on the sample store: the hash is
    the salt, a dollar sign and the password, and a password matches a
    hash that ends with the dollar sign and the password. *)

Definition toy_generate (sal password : string) : string :=
  sal ++ "$" ++ password.

Definition toy_check (stored password : string) : bool :=
  ends_with ("$" ++ password) stored.

(* ================================================================== *)
(** * Sample forms *)

(** Every character of [s] is in the class. *)
Fixpoint all_chars (cls : ascii -> bool) (s : string) : bool :=
  match s with
  | EmptyString => true
  | String c r => cls c && all_chars cls r
  end.




(* ================================================================== *)
(** * The remaining views *)

(** A file sent to the browser, or a redirect. *)
Inductive envio (A : Type) : Type :=
| Enviar (nombre : string) (contenido : A)
| Ir (endpoint : string).

Arguments Enviar {A} nombre contenido.
Arguments Ir {A} endpoint.

(** ** The price list (lines 282-302) and the index (lines 167-171) *)

Module Precio.
Record t : Type := make {
  nombre : string;
  cantidad : Z;
  precio_venta : num
}.
End Precio.

Record lista_ctx : Type := {
  lista : list Precio.t;
  lista_query : string
}.

Definition lista_precios (q_arg : string) (st : estado)
  : respuesta lista_ctx :=
  match sesion st with
  | None => Redirect "login"
  | Some _ =>
      let q := Str.lower q_arg in
      let productos := obtener_productos st in
      let lista :=
        map (fun p =>
               let precio_venta :=
                 Num.mul (NFloat (Producto.precio_costo p))
                   (Num.add (NInt 1)
                      (Num.truediv (ganancia_o_0 p) (NInt 100))) in
               Precio.make (Producto.nombre p) (Producto.cantidad p)
                 precio_venta)
          productos in
      let lista :=
        if truthy (PStr q) then
          filter (fun p => Str.contains q (Str.lower (Precio.nombre p)))
            lista
        else lista in
      Render "lista_precios.html" {| lista := lista; lista_query := q |}
  end.

Definition index (q_arg : string) (st : estado) : respuesta lista_ctx :=
  match sesion st with
  | None => Redirect "login"
  | Some _ => lista_precios q_arg st
  end.

(** ** Delete (lines 251-256); the route matches digits only. *)
Definition eliminar (id : N) (st : estado)
  : result (respuesta unit * estado) :=
  match sesion st with
  | None => Ok (Redirect "login", st)
  | Some _ =>
      st' <- eliminar_producto (Z.of_N id) st ;;
      Ok (Redirect "index", st')
  end.

(** ** The price-list export (lines 317-335)

    [pd.DataFrame(data)] takes its columns from the keys of the rows:
    with no row there is no column. *)
Definition columnas_precios : list string :=
  ["Nombre"; "Precio Costo"; "% Ganancia"; "Precio Venta"; "Proveedor"].

Definition fila_precios (p : producto) : list pyval :=
  let precio_venta :=
    Num.mul (NFloat (Producto.precio_costo p))
      (Num.add (NInt 1) (Num.truediv (ganancia_o_0 p) (NInt 100))) in
  [PStr (Producto.nombre p); PFloat (Producto.precio_costo p);
   pyval_of_num (ganancia_o_0 p); pyval_of_num precio_venta;
   PStr (Producto.proveedor p)].

Definition exportar_precios (st : estado) : envio dataframe :=
  match sesion st with
  | None => Ir "login"
  | Some _ =>
      let data := map fila_precios (obtener_productos st) in
      let df :=
        match data with
        | [] => {| columns := []; filas := [] |}
        | _ => {| columns := columnas_precios; filas := data |}
        end in
      Enviar "lista_precios.xlsx" df
  end.

(** ** Backup (lines 338-345): a copy of the store's file. *)
Record copia : Type := {
  copia_productos : list producto;
  copia_seq : Z;
  copia_usuarios : list Usuario.t
}.

Definition backup (fecha : string) (st : estado) : envio copia :=
  match sesion st with
  | None => Ir "login"
  | Some _ =>
      Enviar ("backup_" ++ fecha ++ ".db")
        {| copia_productos := productos st; copia_seq := seq st;
           copia_usuarios := usuarios st |}
  end.

(** ** Logout (lines 491-495) *)
Definition logout (st : estado) : respuesta unit * estado :=
  (Redirect "login", flash "✅ Sesión cerrada" "info" (con_sesion None st)).

(* ================================================================== *)
(** * Start-up (lines 56-108)

    [CREATE TABLE IF NOT EXISTS] and the guarded [ALTER TABLE] leave an
    existing store as it is.  The legacy file holds a list of products
    as an earlier version wrote them: text, two integers, a number,
    text. *)

Record entrada : Type := {
  e_nombre : string;
  e_cantidad : Z;
  e_stock_minimo : Z;
  e_precio_costo : num;
  e_proveedor : string
}.

Fixpoint migrar_bucle (ps : list entrada) (st : estado) : result estado :=
  match ps with
  | [] => Ok st
  | p :: r =>
      st' <- insertar (e_nombre p) (e_cantidad p) (e_stock_minimo p)
               (e_precio_costo p) (e_proveedor p) (NInt 0) st ;;
      migrar_bucle r st'
  end.

(** [json_file] is the content of the legacy file, [None] when there is
    no such file. *)
Definition migrate_from_json (json_file : option (list entrada))
  (st : estado) : result estado :=
  match json_file with
  | Some productos_json =>
      match productos st with
      | [] => st' <- migrar_bucle productos_json st ;; Ok (commit st')
      | _ => Ok st
      end
  | None => Ok st
  end.

Definition init_db (generate_password_hash : string -> string -> string)
  (sal : string) (json_file : option (list entrada)) (st : estado)
  : result estado :=
  let st :=
    match usuarios st with
    | [] =>
        con_usuarios
          [Usuario.make "admin" (generate_password_hash sal "admin123")] st
    | _ => st
    end in
  migrate_from_json json_file (commit st).

(* ================================================================== *)
(** * Well-formed stores

    Rowids are pairwise distinct and none exceeds the largest one given
    out, as AUTOINCREMENT keeps them. *)

Definition ids_ok (st : estado) : Prop :=
  NoDup (map Producto.id (productos st)) /\
  forall p, In p (productos st) -> Producto.id p <= seq st.

(** The total stock of the products of a name. *)
Definition stock_de (nombre : string) (t : list producto) : Z :=
  fold_right Z.add 0
    (map Producto.cantidad
       (filter (fun p => String.eqb (Producto.nombre p) nombre) t)).

(** A float that is a number and carries no minus sign. *)
Definition no_negativo (x : float) : bool :=
  match x with
  | S754_zero s | S754_infinity s | S754_finite s _ _ => negb s
  | S754_nan => false
  end.

Definition digit_or_period (c : ascii) : bool :=
  Str.is_digit c || Ascii.eqb c ".".

(** A store just created: the two tables are there and hold nothing. *)
Definition estado_inicial : estado :=
  {| productos := []; seq := 0; usuarios := []; sesion := None;
     mensajes := []; commits := 0 |}.

(** A legacy file with two products. *)
Definition ejemplo_json : list entrada :=
  [ {| e_nombre := "Foco"; e_cantidad := 3; e_stock_minimo := 1;
       e_precio_costo := NInt 9; e_proveedor := "Beta" |};
    {| e_nombre := "Cable"; e_cantidad := 0; e_stock_minimo := 2;
       e_precio_costo := NFloat (Flt.of_decimal false 15 (-1));
       e_proveedor := "Acme" |} ].

(* ================================================================== *)
(** * Percent-encoded text *)

Definition is_hex (c : ascii) : bool :=
  Str.is_digit c || Str.between "A" "F" c.

(** A text made of characters [urllib.parse.quote] leaves alone and of
    escapes: a percent sign and two upper-case hexadecimal digits. *)
Fixpoint percent_encoded (s : string) : bool :=
  match s with
  | EmptyString => true
  | String c r =>
      if Ascii.eqb c "%" then
        match r with
        | String a (String b r') => is_hex a && is_hex b && percent_encoded r'
        | _ => false
        end
      else Url.unreserved c && percent_encoded r
  end.

(* ================================================================== *)
(** * Importing a file again

    The rows of a file the import takes are those that read and whose
    values SQLite accepts; the import applies them in order.  On one
    product a row of its name acts as [partial_update] and any other row
    not at all. *)

Definition tomadas (cols : list string) (rows : list (list pyval))
  : list campos_fila :=
  flat_map (fun row =>
              match leer_fila cols row with
              | Ok f => if storable f then [f] else []
              | Raise _ => []
              end) rows.

Definition aplicar (fs : list campos_fila) (st : estado) : estado :=
  fold_left (fun st f =>
               match upsert f st with
               | Ok st' => st'
               | Raise _ => st
               end) fs st.

Definition paso (q : producto) (f : campos_fila) : producto :=
  if String.eqb (Producto.nombre q) (c_nombre f) then partial_update f q
  else q.

Definition efecto (fs : list campos_fila) (q : producto) : producto :=
  fold_left paso fs q.

(** The fields of [g], and those of [f] where [g] has none. *)
Definition combinar (f g : campos_fila) : campos_fila :=
  {| c_nombre := c_nombre g;
     c_cantidad :=
       match c_cantidad g with Some n => Some n | None => c_cantidad f end;
     c_stock_minimo :=
       match c_stock_minimo g with
       | Some n => Some n
       | None => c_stock_minimo f
       end;
     c_precio_costo :=
       match c_precio_costo g with
       | Some x => Some x
       | None => c_precio_costo f
       end;
     c_ganancia :=
       match c_ganancia g with Some x => Some x | None => c_ganancia f end;
     c_proveedor :=
       match c_proveedor g with Some s => Some s | None => c_proveedor f end
  |}.

Definition sin_campos : campos_fila :=
  {| c_nombre := ""; c_cantidad := None; c_stock_minimo := None;
     c_precio_costo := None; c_ganancia := None; c_proveedor := None |}.

(** Some product of the table bears the name. *)
Definition con_nombre (n : string) (t : list producto) : Prop :=
  exists p, In p t /\ Producto.nombre p = n.

(* ================================================================== *)
(** * The price filter read back

    The amount the filter shows, in hundredths: the value rounded to two
    decimals, ties to even, sign aside; 0 for what is no finite number. *)


(** [float(value)]: an [int] too large for a float is an
    [OverflowError], [None] a [TypeError], a text that is no numeral a
    [ValueError]. *)
Definition py_float (v : pyval) : result float :=
  match v with
  | PNone => Raise TypeError
  | PInt n =>
      let x := Flt.of_Z n in
      if Flt.is_finite x then Ok x else Raise OverflowError
  | PFloat x => Ok x
  | PStr s => Flt.of_string s
  end.

(** [format_precio] on any value (lines 14-19): a value [float] does not
    take is returned as it is. *)
Module Filtro.
Definition format_precio (value : pyval) : pyval :=
  match py_float value with
  | Ok x => PStr (format_precio x)
  | Raise _ => value
  end.
End Filtro.



(* ================================================================== *)
(** * Facts about strings *)

Lemma append_empty_r (s : string) : s ++ "" = s.
Proof. induction s as [|c s IH]; simpl; [reflexivity | now rewrite IH]. Qed.

Lemma append_assoc_str (a b c : string) : (a ++ b) ++ c = a ++ (b ++ c).
Proof. induction a as [|x a IH]; simpl; [reflexivity | now rewrite IH]. Qed.

Lemma keep_only_lstrip (cls : ascii -> bool) (s : string) :
  (forall c, Str.is_space c = true -> cls c = false) ->
  Str.keep_only cls (Str.lstrip s) = Str.keep_only cls s.
Proof.
  intros Hcls. induction s as [|c s IH]; simpl; [reflexivity|].
  destruct (Str.is_space c) eqn:Hc.
  - rewrite (Hcls c Hc). exact IH.
  - reflexivity.
Qed.

Lemma keep_only_rstrip (cls : ascii -> bool) (s : string) :
  (forall c, Str.is_space c = true -> cls c = false) ->
  Str.keep_only cls (Str.rstrip s) = Str.keep_only cls s.
Proof.
  intros Hcls. induction s as [|c s IH]; simpl; [reflexivity|].
  destruct (Str.rstrip s) as [|d t] eqn:Hr.
  - simpl in IH. destruct (Str.is_space c) eqn:Hc.
    + rewrite (Hcls c Hc). simpl. exact IH.
    + simpl. now rewrite <- IH.
  - simpl. simpl in IH. now rewrite <- IH.
Qed.

Lemma keep_only_strip (cls : ascii -> bool) (s : string) :
  (forall c, Str.is_space c = true -> cls c = false) ->
  Str.keep_only cls (Str.strip s) = Str.keep_only cls s.
Proof.
  intros Hcls. unfold Str.strip.
  now rewrite keep_only_rstrip, keep_only_lstrip.
Qed.

Lemma space_not_numeric (c : ascii) :
  Str.is_space c = true -> numeric_char c = false.
Proof.
  destruct c as [[] [] [] [] [] [] [] []]; vm_compute; congruence.
Qed.

Lemma split_not_nil (c : ascii) (s : string) : Str.split c s <> [].
Proof.
  destruct s as [|a r]; simpl; [discriminate|].
  destruct (Ascii.eqb a c); [discriminate|].
  destruct (Str.split c r); discriminate.
Qed.

Lemma split_no_sep (c : ascii) (s : string) :
  Str.has_char c s = false -> Str.split c s = [s].
Proof.
  induction s as [|a r IH]; simpl; [reflexivity|].
  intros H. apply orb_false_iff in H as [Ha Hr].
  rewrite Ha, (IH Hr). reflexivity.
Qed.

Lemma split_with_sep (c : ascii) (s : string) :
  Str.has_char c s = true ->
  exists p q qs, Str.split c s = p :: q :: qs.
Proof.
  induction s as [|a r IH]; simpl; [discriminate|].
  destruct (Ascii.eqb a c) eqn:Ha; simpl.
  - intros _. destruct (Str.split c r) as [|q qs] eqn:Hs.
    + now apply split_not_nil in Hs.
    + now exists "", q, qs.
  - intros H. destruct (IH H) as (p & q & qs & Hs). rewrite Hs.
    now exists (String a p), q, qs.
Qed.

Lemma join_empty_cons (p : string) (ps : list string) :
  Str.join "" (p :: ps) = p ++ Str.join "" ps.
Proof.
  destruct ps as [|q qs]; simpl; [now rewrite append_empty_r | reflexivity].
Qed.

Lemma count_has_char (c : ascii) (s : string) :
  0 < Str.count c s <-> Str.has_char c s = true.
Proof.
  assert (Hnn : forall t, 0 <= Str.count c t).
  { induction t as [|a t IH]; cbn [Str.count]; [lia|].
    destruct (Ascii.eqb a c); lia. }
  induction s as [|a r IH]; cbn [Str.count Str.has_char].
  - split; [lia | discriminate].
  - specialize (Hnn r). destruct (Ascii.eqb a c); cbn [orb].
    + split; [reflexivity | lia].
    + rewrite <- IH. split; lia.
Qed.

Lemma drop_periods_one_or_none (s : string) :
  Str.count "." s <= 1 -> drop_periods_but_last s = s.
Proof.
  induction s as [|a r IH]; cbn [Str.count drop_periods_but_last];
    [reflexivity|].
  intros H. destruct (Ascii.eqb a ".") eqn:Ha; cbn [andb].
  - destruct (Str.has_char "." r) eqn:Hr.
    + apply count_has_char in Hr. lia.
    + rewrite IH; [reflexivity|].
      destruct (Z.ltb_spec 0 (Str.count "." r)) as [Hp|Hp]; [|lia].
      apply count_has_char in Hp. congruence.
  - rewrite IH; [reflexivity | lia].
Qed.

(** Joining all segments but the last and putting the separator back
    before the last one removes every separator but the last. *)
Lemma join_segments (s : string) :
  Str.has_char "." s = true ->
  exists ultimo,
    Str.item_last (Str.split "." s) = Ok ultimo /\
    Str.join "" (Str.all_but_last (Str.split "." s)) ++ "." ++ ultimo
    = drop_periods_but_last s.
Proof.
  induction s as [|a r IH]; [discriminate|].
  intros H. cbn [Str.split drop_periods_but_last].
  destruct (Ascii.eqb a ".") eqn:Ha.
  - apply Ascii.eqb_eq in Ha. subst a. cbn [andb Ascii.eqb Bool.eqb].
    destruct (Str.has_char "." r) eqn:Hr.
    + destruct (IH eq_refl) as (u & Hu & Hj).
      destruct (split_with_sep "." r Hr) as (p & q & qs & Hs).
      exists u. rewrite Hs in *. split; [exact Hu|].
      unfold Str.all_but_last in *.
      change (removelast ("" :: p :: q :: qs))
        with ("" :: removelast (p :: q :: qs)).
      rewrite join_empty_cons. exact Hj.
    + rewrite (split_no_sep "." r Hr). exists r. split; [reflexivity|].
      rewrite drop_periods_one_or_none; [reflexivity|].
      destruct (Z.ltb_spec 0 (Str.count "." r)) as [Hp|Hp]; [|lia].
      apply count_has_char in Hp. congruence.
  - cbn [andb]. simpl in H. rewrite Ha in H. simpl in H.
    destruct (IH H) as (u & Hu & Hj).
    destruct (split_with_sep "." r H) as (p & q & qs & Hs).
    rewrite Hs in *. exists u. split; [exact Hu|].
    unfold Str.all_but_last in *.
    change (removelast (String a p :: q :: qs))
      with (String a p :: removelast (q :: qs)).
    change (removelast (p :: q :: qs))
      with (p :: removelast (q :: qs)) in Hj.
    rewrite join_empty_cons in *. simpl. f_equal. exact Hj.
Qed.

Lemma of_string_raises_ValueError (s : string) (e : exn) :
  Flt.of_string s = Raise e -> e = ValueError.
Proof.
  unfold Flt.of_string.
  destruct (Str.drop_underscores "000" s) as [s1|]; [|congruence].
  destruct (Flt.split_sign (Str.strip s1)) as [neg body].
  destruct (Flt.parse_special neg body); [discriminate|].
  destruct (Flt.parse_decimal neg body); [discriminate|congruence].
Qed.

(** The source and the contract agree on every value. *)
Lemma normalizar_precio_spec (v : pyval) :
  normalizar_precio v = Ok (normalize_spec v).
Proof.
  unfold normalizar_precio, normalize_spec.
  destruct (truthy v); [|reflexivity].
  cbn [negb]. unfold normalize_text, decimal_or_zero.
  rewrite (keep_only_strip numeric_char (py_str v) space_not_numeric).
  set (kept := Str.keep_only numeric_char (py_str v)).
  destruct (1 <? Str.count "." kept) eqn:Hc.
  - assert (Hh : Str.has_char "." kept = true).
    { apply count_has_char. apply Z.ltb_lt in Hc. lia. }
    destruct (join_segments kept Hh) as (u & Hu & Hj).
    rewrite Hu. cbn [bind]. rewrite Hj.
    destruct (Flt.of_string _) as [x|e] eqn:Hf; [reflexivity|].
    apply of_string_raises_ValueError in Hf. subst e. reflexivity.
  - cbn [bind].
    destruct (Flt.of_string _) as [x|e] eqn:Hf; [reflexivity|].
    apply of_string_raises_ValueError in Hf. subst e. reflexivity.
Qed.

(* ================================================================== *)
(** * The price normalizer *)

(** C1: on every text the normalizer computes the specification's
    contract and never raises: the empty text gives 0.0; otherwise only
    digits, commas and periods are kept, every period but the last is
    dropped when more than one remains, a comma makes the periods go and
    becomes the decimal point, and the result is read as a decimal, 0.0
    when it is none.  The four documented values follow; 47473.63 is the
    binary64 number 6524726024716943 * 2^-37. *)
Theorem normalizar_precio_contract :
  (forall s : string,
      normalizar_precio (PStr s) =
      Ok (if String.eqb s "" then Flt.zero else normalize_text s)) /\
  (forall v : pyval, exists x : float, normalizar_precio v = Ok x) /\
  normalizar_precio (PStr "47.473,63")
    = Ok (S754_finite false 6524726024716943 (-37)) /\
  normalizar_precio (PStr "47473.63")
    = Ok (S754_finite false 6524726024716943 (-37)) /\
  Flt.of_decimal false 4747363 (-2)
    = S754_finite false 6524726024716943 (-37) /\
  normalizar_precio (PStr "") = Ok Flt.zero /\
  normalizar_precio (PStr "abc") = Ok Flt.zero.
Proof.
  split; [|split].
  - intros s. rewrite normalizar_precio_spec. unfold normalize_spec.
    cbn [truthy py_str]. now destruct (String.eqb s "").
  - intros v. exists (normalize_spec v). apply normalizar_precio_spec.
  - repeat split; vm_compute; reflexivity.
Qed.

(** ** Renderings in positional notation *)


Lemma digit_is_numeric (c : ascii) :
  Str.is_digit c = true ->
  numeric_char c = true /\ Ascii.eqb c "." = false /\ Ascii.eqb c "," = false.
Proof.
  destruct c as [[] [] [] [] [] [] [] []]; vm_compute; intuition congruence.
Qed.






(** ** The comma as decimal marker *)







(* ================================================================== *)
(** * Pricing *)






(* ================================================================== *)
(** * The sell operation *)

Lemma Forall2_map_self {A : Type} (R : A -> A -> Prop) (f : A -> A)
  (l : list A) :
  (forall a, R a (f a)) -> Forall2 R l (map f l).
Proof.
  intros H. induction l as [|a l IH]; cbn; constructor; auto.
Qed.

(** C3: with a session and a quantity SQLite can bind, the sale is one
    conditional update of the table followed by one commit: a row is
    decremented exactly when it bears the name and holds at least the
    quantity asked; a row holding less is left as it was; a row holding
    exactly the quantity goes to 0; no row goes negative through a sale.
    A quantity too large to bind raises before the table is touched. *)
Theorem vender_conditional_decrement :
  forall (nombre : string) (cantidad : N) (st : estado) (u : string),
    sesion st = Some u ->
    (Z.of_N cantidad <= Sql.int64_max ->
     exists st' : estado,
       vender nombre cantidad st = Ok (Redirect "lista_precios", st') /\
       productos st' =
         Sql.update
           (fun p => String.eqb (Producto.nombre p) nombre &&
                     (Z.of_N cantidad <=? Producto.cantidad p))
           (fun p => Producto.make (Producto.id p) (Producto.nombre p)
                       (Producto.cantidad p - Z.of_N cantidad)
                       (Producto.stock_minimo p) (Producto.precio_costo p)
                       (Producto.proveedor p) (Producto.ganancia p))
           (productos st) /\
       Forall2 (venta_de_fila nombre (Z.of_N cantidad))
         (productos st) (productos st') /\
       commits st' = commits st + 1) /\
    (Sql.int64_max < Z.of_N cantidad ->
     vender nombre cantidad st = Raise OverflowError).
Proof.
  intros nombre cantidad st u Hs. unfold vender. rewrite Hs.
  unfold Sql.bind_int, Sql.in_int64. split; intros Hc.
  - replace ((Sql.int64_min <=? Z.of_N cantidad) &&
             (Z.of_N cantidad <=? Sql.int64_max)) with true.
    2:{ symmetry. apply andb_true_iff. split; apply Z.leb_le; [|exact Hc].
        unfold Sql.int64_min. lia. }
    cbn [bind]. eexists. split; [reflexivity|].
    cbn [productos commits flash commit con_productos].
    split; [reflexivity|]. split; [|reflexivity].
    unfold Sql.update. apply Forall2_map_self. intros p.
    unfold venta_de_fila.
    destruct (String.eqb_spec (Producto.nombre p) nombre) as [He|He];
      destruct (Z.leb_spec (Z.of_N cantidad) (Producto.cantidad p)) as [Hl|Hl];
      cbn [andb Producto.cantidad]; repeat split; intros; try lia;
      try tauto; try reflexivity.
    destruct H as [H|H]; [contradiction | lia].
  - replace ((Sql.int64_min <=? Z.of_N cantidad) &&
             (Z.of_N cantidad <=? Sql.int64_max)) with false; [reflexivity|].
    symmetry. apply andb_false_iff. right. apply Z.leb_gt. exact Hc.
Qed.

Lemma vender_conditional_decrement_witness :
  (exists st' : estado,
      vender "alambre" 20 ejemplo = Ok (Redirect "lista_precios", st') /\
      map Producto.cantidad (productos st') = [5; 0; 0; 1]) /\
  (exists st' : estado,
      vender "Cable 2mm" 6 ejemplo = Ok (Redirect "lista_precios", st') /\
      productos st' = productos ejemplo).
Proof.
  split.
  - destruct (proj1 (vender_conditional_decrement "alambre" 20 ejemplo
                       "admin" eq_refl)) as (st' & Hv & Hp & _).
    + vm_compute. discriminate.
    + exists st'. split; [exact Hv|]. rewrite Hp. reflexivity.
  - destruct (proj1 (vender_conditional_decrement "Cable 2mm" 6 ejemplo
                       "admin" eq_refl)) as (st' & Hv & Hp & _).
    + vm_compute. discriminate.
    + exists st'. split; [exact Hv|]. rewrite Hp. reflexivity.
Defined.

(* ================================================================== *)
(** * The reorder generator *)

Lemma existsb_eqb_In (x : string) (l : list string) :
  existsb (String.eqb x) l = true <-> In x l.
Proof.
  rewrite existsb_exists. split.
  - intros (y & Hy & He). apply String.eqb_eq in He. now subst.
  - intros H. exists x. split; [exact H | apply String.eqb_refl].
Qed.

Lemma existsb_eqb_not_In (x : string) (l : list string) :
  existsb (String.eqb x) l = false <-> ~ In x l.
Proof.
  rewrite <- existsb_eqb_In. now destruct (existsb (String.eqb x) l).
Qed.

Lemma first_seen_snoc (seen l : list string) (x : string) :
  first_seen seen (l ++ [x]) =
  if existsb (String.eqb x) (first_seen seen l)
  then first_seen seen l else (first_seen seen l ++ [x])%list.
Proof.
  revert seen. induction l as [|a l IH]; intros seen; cbn [app first_seen].
  - now destruct (existsb (String.eqb x) seen).
  - destruct (existsb (String.eqb a) seen); apply IH.
Qed.

Lemma first_seen_In (seen l : list string) (k : string) :
  In k (first_seen seen l) <-> In k seen \/ In k l.
Proof.
  revert seen. induction l as [|a l IH]; intros seen; cbn [first_seen].
  - cbn. tauto.
  - destruct (existsb (String.eqb a) seen) eqn:Ha; rewrite IH.
    + apply existsb_eqb_In in Ha. cbn. intuition (subst; auto).
    + rewrite in_app_iff. cbn. tauto.
Qed.

Lemma first_seen_NoDup (seen l : list string) :
  NoDup seen -> NoDup (first_seen seen l).
Proof.
  revert seen. induction l as [|a l IH]; intros seen Hn; cbn [first_seen].
  - exact Hn.
  - destruct (existsb (String.eqb a) seen) eqn:Ha; apply IH; [exact Hn|].
    apply existsb_eqb_not_In in Ha.
    apply NoDup_rev in Hn. rewrite <- (rev_involutive (seen ++ [a])%list).
    apply NoDup_rev. rewrite rev_app_distr. cbn. constructor; [|exact Hn].
    now rewrite <- in_rev.
Qed.

Section DictOfKeys.

Context {V : Type} (g : string -> V).

Lemma mem_tabulate (k : string) (ks : list string) :
  Dict.mem k (map (fun k => (k, g k)) ks) = existsb (String.eqb k) ks.
Proof.
  induction ks as [|a ks IH]; cbn; [reflexivity|].
  now rewrite IH, (String.eqb_sym a k).
Qed.

Lemma getitem_tabulate (k : string) (ks : list string) :
  In k ks -> Dict.getitem k (map (fun k => (k, g k)) ks) = Ok (g k).
Proof.
  induction ks as [|a ks IH]; cbn; [tauto|].
  intros H. destruct (String.eqb_spec a k) as [->|Hn]; [reflexivity|].
  apply IH. destruct H; [contradiction | assumption].
Qed.

Lemma setitem_new (k : string) (v : V) (d : Dict.t V) :
  Dict.mem k d = false -> Dict.setitem k v d = (d ++ [(k, v)])%list.
Proof.
  induction d as [|[a w] d IH]; cbn; [reflexivity|].
  intros H. apply orb_false_iff in H as [Ha Hd]. rewrite Ha.
  now rewrite (IH Hd).
Qed.

Lemma getitem_last (k : string) (v : V) (d : Dict.t V) :
  Dict.mem k d = false -> Dict.getitem k (d ++ [(k, v)])%list = Ok v.
Proof.
  induction d as [|[a w] d IH]; cbn.
  - now rewrite String.eqb_refl.
  - intros H. apply orb_false_iff in H as [Ha Hd]. rewrite Ha. now apply IH.
Qed.

Lemma setitem_last (k : string) (v w : V) (d : Dict.t V) :
  Dict.mem k d = false ->
  Dict.setitem k v (d ++ [(k, w)])%list = (d ++ [(k, v)])%list.
Proof.
  induction d as [|[a x] d IH]; cbn.
  - now rewrite String.eqb_refl.
  - intros H. apply orb_false_iff in H as [Ha Hd]. rewrite Ha.
    now rewrite (IH Hd).
Qed.

Lemma setitem_tabulate (k : string) (v : V) (ks : list string) :
  NoDup ks -> In k ks ->
  Dict.setitem k v (map (fun k => (k, g k)) ks) =
  map (fun k' => (k', if String.eqb k' k then v else g k')) ks.
Proof.
  induction ks as [|a ks IH]; cbn; [tauto|].
  intros Hn Hin. inversion Hn as [|? ? Ha Hks]; subst.
  destruct (String.eqb_spec a k) as [->|Hne].
  - f_equal. apply map_ext_in. intros k' Hk'.
    destruct (String.eqb_spec k' k) as [->|]; [contradiction | reflexivity].
  - f_equal. apply IH; [exact Hks|]. destruct Hin; [contradiction|assumption].
Qed.

End DictOfKeys.

Lemma short_suppliers_snoc (done : list producto) (p : producto) :
  short_suppliers (done ++ [p]) =
  if is_short p then
    if existsb (String.eqb (Producto.proveedor p)) (short_suppliers done)
    then short_suppliers done
    else (short_suppliers done ++ [Producto.proveedor p])%list
  else short_suppliers done.
Proof.
  unfold short_suppliers. rewrite filter_app. cbn [filter].
  destruct (is_short p).
  - rewrite map_app. cbn [map]. apply first_seen_snoc.
  - now rewrite app_nil_r.
Qed.

Lemma lines_for_snoc (k : string) (done : list producto) (p : producto) :
  lines_for k (done ++ [p]) =
  (lines_for k done ++
   if is_short p && String.eqb (Producto.proveedor p) k
   then [line_of p] else [])%list.
Proof.
  unfold lines_for. rewrite filter_app, map_app. cbn [filter].
  now destruct (is_short p && String.eqb (Producto.proveedor p) k).
Qed.

Lemma lines_for_absent (k : string) (ps : list producto) :
  ~ In k (short_suppliers ps) -> lines_for k ps = [].
Proof.
  intros H. unfold lines_for.
  destruct (filter _ ps) as [|p r] eqn:Hf; [reflexivity|].
  exfalso. apply H. unfold short_suppliers. apply first_seen_In. right.
  assert (Hp : In p (filter (fun p => is_short p &&
                      String.eqb (Producto.proveedor p) k) ps))
    by (rewrite Hf; now left).
  apply filter_In in Hp as [Hin Hc].
  apply andb_true_iff in Hc as [Hs He]. apply String.eqb_eq in He.
  rewrite <- He. apply in_map. apply filter_In. now split.
Qed.

Lemma short_suppliers_NoDup (ps : list producto) : NoDup (short_suppliers ps).
Proof. apply first_seen_NoDup. constructor. Qed.

(** One turn of the loop takes the grouping of the products seen so far
    to the grouping with one product more. *)
Lemma generar_pedidos_paso_spec (done : list producto) (p : producto) :
  generar_pedidos_paso (reorder_spec done) p = Ok (reorder_spec (done ++ [p])).
Proof.
  unfold generar_pedidos_paso.
  change (0 <? Producto.stock_minimo p - Producto.cantidad p)
    with (is_short p).
  change (Linea.make (Producto.stock_minimo p - Producto.cantidad p)
            (Producto.nombre p) (Producto.precio_costo p))
    with (line_of p).
  set (d := reorder_spec done).
  unfold reorder_spec. rewrite short_suppliers_snoc. subst d.
  destruct (is_short p) eqn:Hs.
  - unfold reorder_spec. rewrite mem_tabulate.
    destruct (existsb (String.eqb (Producto.proveedor p))
                (short_suppliers done)) eqn:Hm; cbn [negb].
    + apply existsb_eqb_In in Hm.
      rewrite (getitem_tabulate _ _ _ Hm). cbn [bind].
      rewrite (setitem_tabulate _ _ _ _ (short_suppliers_NoDup done) Hm).
      f_equal. apply map_ext. intros k. rewrite lines_for_snoc, Hs.
      cbn [andb]. rewrite (String.eqb_sym k).
      destruct (String.eqb_spec (Producto.proveedor p) k) as [->|];
        [reflexivity | now rewrite app_nil_r].
    + assert (Hmem : Dict.mem (Producto.proveedor p)
                (map (fun prov => (prov, lines_for prov done))
                   (short_suppliers done)) = false)
        by (now rewrite mem_tabulate).
      rewrite (setitem_new _ _ _ Hmem), (getitem_last _ _ _ Hmem).
      cbn [bind app]. rewrite (setitem_last _ _ _ _ Hmem).
      rewrite map_app. cbn [map].
      f_equal. apply (f_equal2 (@app (string * list linea))).
      * apply map_ext_in. intros k Hk. rewrite lines_for_snoc, Hs.
        cbn [andb].
        destruct (String.eqb_spec (Producto.proveedor p) k) as [He|];
          [|now rewrite app_nil_r].
        apply existsb_eqb_not_In in Hm. subst k. contradiction.
      * rewrite lines_for_snoc, Hs, String.eqb_refl. cbn [andb].
        apply existsb_eqb_not_In in Hm.
        now rewrite (lines_for_absent _ _ Hm).
  - f_equal. unfold reorder_spec. apply map_ext. intros k.
    rewrite lines_for_snoc, Hs. cbn [andb]. now rewrite app_nil_r.
Qed.

Lemma generar_pedidos_bucle_spec (ps done : list producto) :
  generar_pedidos_bucle ps (reorder_spec done)
  = Ok (reorder_spec (done ++ ps)).
Proof.
  revert done. induction ps as [|p r IH]; intros done;
    cbn [generar_pedidos_bucle].
  - now rewrite app_nil_r.
  - rewrite generar_pedidos_paso_spec. cbn [bind]. rewrite IH.
    now rewrite <- app_assoc.
Qed.

Lemma generar_mensaje_fold (lista : list linea) (acc : string) :
  fold_left (fun mensaje p => mensaje ++ renglon p) lista acc
  = acc ++ String.concat "" (map renglon lista).
Proof.
  revert acc. induction lista as [|p r IH]; intros acc; cbn [fold_left map].
  - cbn. now rewrite append_empty_r.
  - rewrite IH, append_assoc_str. f_equal.
    destruct r; cbn; [now rewrite append_empty_r | reflexivity].
Qed.

(** First-seen order: each element once, where it first occurs. *)
Lemma first_seen_nodup (l : list string) :
  first_seen [] l = rev (nodup string_dec (rev l)).
Proof.
  induction l as [|x l IH] using rev_ind; [reflexivity|].
  rewrite first_seen_snoc, rev_app_distr. cbn [rev app nodup].
  destruct (in_dec string_dec x (rev l)) as [Hin|Hin].
  - rewrite <- in_rev in Hin.
    replace (existsb (String.eqb x) (first_seen [] l)) with true; [exact IH|].
    symmetry. apply existsb_eqb_In, first_seen_In. now right.
  - rewrite <- in_rev in Hin.
    replace (existsb (String.eqb x) (first_seen [] l)) with false.
    + cbn [rev]. now rewrite IH.
    + symmetry. apply existsb_eqb_not_In. rewrite first_seen_In.
      cbn. tauto.
Qed.

Lemma lines_for_In (k : string) (ps : list producto) (l : linea) :
  In l (lines_for k ps) <->
  exists p, In p ps /\ 0 < shortfall p /\ Producto.proveedor p = k /\
            l = line_of p.
Proof.
  unfold lines_for. rewrite in_map_iff. split.
  - intros (p & Hl & Hp). apply filter_In in Hp as [Hin Hc].
    apply andb_true_iff in Hc as [Hs He].
    apply Z.ltb_lt in Hs. apply String.eqb_eq in He. now exists p.
  - intros (p & Hin & Hs & He & Hl). exists p. split; [now symmetry|].
    apply filter_In. split; [exact Hin|]. apply andb_true_iff.
    split; [now apply Z.ltb_lt | now apply String.eqb_eq].
Qed.

Lemma short_suppliers_In (k : string) (ps : list producto) :
  In k (short_suppliers ps) <->
  exists p, In p ps /\ 0 < shortfall p /\ Producto.proveedor p = k.
Proof.
  unfold short_suppliers. rewrite first_seen_In, in_map_iff. split.
  - intros [[]|(p & He & Hp)]. apply filter_In in Hp as [Hin Hs].
    apply Z.ltb_lt in Hs. now exists p.
  - intros (p & Hin & Hs & He). right. exists p. split; [exact He|].
    apply filter_In. split; [exact Hin | now apply Z.ltb_lt].
Qed.

(** C4: the reorder generator returns the specification's grouping of
    the listed products.  The keys are the suppliers of the products
    with [stock_minimum - quantity > 0], each once and in first-seen
    order; under a key stand the lines (shortfall, name, cost price) of
    exactly its short products, in the order of the list; no key has an
    empty list, and with no short product the mapping is empty.  A
    supplier's message is the percent-encoding of the header naming the
    supplier followed by one line [- <shortfall> <name>] per product. *)
Theorem generar_pedidos_groups :
  (forall st : estado,
      generar_pedidos st = Ok (reorder_spec (obtener_productos st))) /\
  (forall ps : list producto,
      Dict.keys (reorder_spec ps)
      = rev (nodup string_dec
               (rev (map Producto.proveedor
                       (filter (fun p => 0 <? shortfall p) ps))))) /\
  (forall (ps : list producto) (prov : string) (lista : list linea),
      In (prov, lista) (reorder_spec ps) ->
      lista <> [] /\
      lista = map (fun p => Linea.make (shortfall p) (Producto.nombre p)
                              (Producto.precio_costo p))
                (filter (fun p => (0 <? shortfall p) &&
                                  String.eqb (Producto.proveedor p) prov)
                   ps)) /\
  (forall (ps : list producto) (p : producto),
      In p ps ->
      (0 < shortfall p <->
       exists lista, In (Producto.proveedor p, lista) (reorder_spec ps) /\
                     In (line_of p) lista)) /\
  (forall ps : list producto,
      (forall p, In p ps -> shortfall p <= 0) -> reorder_spec ps = []) /\
  (forall (prov : string) (lista : list linea),
      generar_mensaje_whatsapp prov lista
      = Url.quote (encabezado prov ++ String.concat "" (map renglon lista))) /\
  (forall (f : Z) (n : string) (c : float),
      renglon (Linea.make f n c) = "- " ++ Str.of_Z f ++ " " ++ n ++ nl) /\
  generar_mensaje_whatsapp "Acme" (lines_for "Acme" (obtener_productos ejemplo))
  = "%F0%9F%93%A6%20%2APedido%20para%20Acme%2A%20%F0%9F%93%A6%0A%0A-%204%20Bombilla%0A-%205%20Cable%202mm%0A".
Proof.
  repeat apply conj.
  - intros st. unfold generar_pedidos.
    apply (generar_pedidos_bucle_spec (obtener_productos st) []).
  - intros ps. unfold reorder_spec, Dict.keys. rewrite map_map. cbn [fst].
    rewrite map_id. unfold short_suppliers. apply first_seen_nodup.
  - intros ps prov lista H. unfold reorder_spec in H.
    apply in_map_iff in H as (k & He & Hk). inversion He; subst.
    split; [|reflexivity].
    apply short_suppliers_In in Hk as (p & Hin & Hs & Hp).
    intros Hnil.
    assert (Hl : In (line_of p) (lines_for prov ps))
      by (apply lines_for_In; now exists p).
    rewrite Hnil in Hl. exact Hl.
  - intros ps p Hin. split.
    + intros Hs. exists (lines_for (Producto.proveedor p) ps). split.
      * unfold reorder_spec. apply in_map_iff.
        exists (Producto.proveedor p). split; [reflexivity|].
        apply short_suppliers_In. now exists p.
      * apply lines_for_In. now exists p.
    + intros (lista & Hd & Hl). unfold reorder_spec in Hd.
      apply in_map_iff in Hd as (k & He & _). inversion He; subst.
      apply lines_for_In in Hl as (p' & _ & Hs & _ & Heq).
      unfold line_of in Heq. inversion Heq. lia.
  - intros ps H. unfold reorder_spec, short_suppliers.
    replace (filter is_short ps) with (@nil producto); [reflexivity|].
    symmetry. induction ps as [|p r IH]; [reflexivity|]. cbn [filter].
    unfold is_short at 1.
    destruct (Z.ltb_spec 0 (shortfall p)) as [Hp|Hp].
    + specialize (H p (or_introl eq_refl)). lia.
    + apply IH. intros q Hq. apply H. now right.
  - intros prov lista. unfold generar_mensaje_whatsapp.
    now rewrite generar_mensaje_fold.
  - reflexivity.
  - vm_compute. reflexivity.
Qed.

Lemma generar_pedidos_groups_witness :
  (0 < shortfall (Producto.make 1 "Cable 2mm" 5 10 (Flt.of_Z 100) "Acme"
                    (Some (Flt.of_Z 20))) <->
   exists lista,
     In ("Acme", lista) (reorder_spec ejemplo_productos) /\
     In (Linea.make 5 "Cable 2mm" (Flt.of_Z 100)) lista) /\
  reorder_spec [Producto.make 2 "alambre" 20 5 Flt.zero "Beta" None] = [].
Proof.
  split.
  - apply (proj1 (proj2 (proj2 (proj2 generar_pedidos_groups)))
             ejemplo_productos).
    cbn. tauto.
  - apply (proj1 (proj2 (proj2 (proj2 (proj2 generar_pedidos_groups))))).
    intros p [<-|[]]. vm_compute. discriminate.
Defined.

(* ================================================================== *)
(** * Spreadsheet import: one row *)

Lemma producto_eta (p : producto) :
  Producto.make (Producto.id p) (Producto.nombre p) (Producto.cantidad p)
    (Producto.stock_minimo p) (Producto.precio_costo p)
    (Producto.proveedor p) (Producto.ganancia p) = p.
Proof. now destruct p. Qed.

Lemma con_productos_same (st : estado) : con_productos (productos st) st = st.
Proof. now destruct st. Qed.

Lemma bind_int_ok (n m : Z) :
  Sql.bind_int n = Ok m -> m = n /\ Sql.in_int64 n = true.
Proof.
  unfold Sql.bind_int. destruct (Sql.in_int64 n); [|discriminate].
  intros H. inversion H. now split.
Qed.

Lemma find_some_In {A : Type} (f : A -> bool) (l : list A) :
  (exists a, In a l /\ f a = true) -> exists b, find f l = Some b.
Proof.
  intros (a & Hin & Hf). destruct (find f l) as [b|] eqn:Hfind;
    [now exists b|].
  now rewrite (find_none f l Hfind a Hin) in Hf.
Qed.

Lemma find_none_all {A : Type} (f : A -> bool) (l : list A) :
  (forall a, In a l -> f a = false) -> find f l = None.
Proof.
  induction l as [|a l IH]; cbn; [reflexivity|]. intros H.
  rewrite (H a (or_introl eq_refl)). apply IH. intros b Hb. apply H.
  now right.
Qed.

(** [UPDATE ... WHERE nombre=?] with assignments that succeed on every
    row of that name maps over the table. *)
Lemma actualizar_filas_map (ls : list ligada) (n : string)
  (h : producto -> producto) (t : list producto) :
  (forall p, In p t -> String.eqb (Producto.nombre p) n = true ->
             asignar_todas ls p = Ok (h p)) ->
  actualizar_filas ls n t
  = Ok (map (fun p => if String.eqb (Producto.nombre p) n then h p else p) t).
Proof.
  induction t as [|p t IH]; intros H; cbn [actualizar_filas map];
    [reflexivity|].
  rewrite IH by (intros q Hq; apply H; now right).
  destruct (String.eqb (Producto.nombre p) n) eqn:He.
  - now rewrite (H p (or_introl eq_refl) He).
  - reflexivity.
Qed.

(** ... and fails as a whole when they fail on the rows of that name and
    there is one. *)
Lemma actualizar_filas_raise (ls : list ligada) (n : string) (e : exn)
  (t : list producto) :
  (forall p, asignar_todas ls p = Raise e) ->
  (exists p, In p t /\ Producto.nombre p = n) ->
  actualizar_filas ls n t = Raise e.
Proof.
  intros Hr. induction t as [|p t IH]; intros (q & Hin & Hq);
    [destruct Hin|].
  cbn [actualizar_filas].
  destruct (String.eqb_spec (Producto.nombre p) n) as [He|He].
  - now rewrite Hr.
  - cbn [bind]. rewrite IH; [reflexivity|].
    exists q. destruct Hin as [->|Hin]; [contradiction | now split].
Qed.

Ltac campos_simpl :=
  cbn [c_nombre c_cantidad c_stock_minimo c_precio_costo c_ganancia
       c_proveedor Producto.id Producto.nombre Producto.cantidad
       Producto.stock_minimo Producto.precio_costo Producto.proveedor
       Producto.ganancia] in *.

Ltac storable_split H :=
  unfold storable in H;
  let H1 := fresh "Hcant" in
  let H2 := fresh "Hstock" in
  let H3 := fresh "Hprecio" in
  apply andb_true_iff in H as [H H3];
  apply andb_true_iff in H as [H1 H2].

Ltac run_update :=
  unfold ejecutar_update; cbn [ligar_todas ligar bind];
  unfold Sql.bind_int, Sql.bind_real;
  repeat match goal with
    | H : Sql.in_int64 _ = true |- _ => rewrite H; clear H
    | H : negb (Flt.is_nan _) = true |- _ =>
        apply negb_true_iff in H; rewrite H; clear H
    end;
  cbn [bind];
  erewrite actualizar_filas_map;
  [cbn [bind]; reflexivity
  |intros ? _ _; cbn [asignar_todas asignar bind Sql.not_null];
   unfold partial_update, stored_real; campos_simpl; reflexivity].

(** A row of an existing name whose values SQLite accepts rewrites the
    products of that name by [partial_update]. *)
Lemma upsert_existing (f : campos_fila) (st : estado) :
  (exists p, In p (productos st) /\ Producto.nombre p = c_nombre f) ->
  storable f = true ->
  upsert f st =
  Ok (con_productos
        (map (fun p => if String.eqb (Producto.nombre p) (c_nombre f)
                       then partial_update f p else p)
           (productos st)) st).
Proof.
  intros Hex Hst.
  assert (Hfind : exists q,
    Sql.fetchone (fun p => String.eqb (Producto.nombre p) (c_nombre f))
      (productos st) = Some q).
  { apply find_some_In. destruct Hex as (p & Hin & Hp). exists p.
    split; [exact Hin | now apply String.eqb_eq]. }
  destruct Hfind as (q & Hfind). clear Hex. storable_split Hst.
  unfold upsert. rewrite Hfind. clear Hfind.
  destruct f as [n [c|] [s|] [pc|] [g|] [pv|]]; campos_simpl;
    cbn [anexar app]; [> run_update .. | ].
  (* nothing provided *)
  f_equal. rewrite <- (con_productos_same st) at 1. f_equal.
  rewrite <- (map_id (productos st)) at 1. apply map_ext. intros p.
  unfold partial_update. cbn. rewrite producto_eta.
  now destruct (String.eqb (Producto.nombre p) n).
Qed.

Ltac split_cases :=
  repeat match goal with
    | |- context [Sql.in_int64 ?x] =>
        let E := fresh "E" in destruct (Sql.in_int64 x) eqn:E
    | |- context [Flt.is_nan ?x] =>
        let E := fresh "E" in destruct (Flt.is_nan x) eqn:E
    end.

(** A row is taken only when SQLite accepts its values. *)
Lemma upsert_ok_storable (f : campos_fila) (st st' : estado) :
  upsert f st = Ok st' -> storable f = true.
Proof.
  unfold upsert, storable.
  destruct (Sql.fetchone _ (productos st)) as [q|] eqn:Hfind.
  - assert (Hq : exists p, In p (productos st) /\
                           Producto.nombre p = c_nombre f).
    { apply find_some in Hfind as [Hin He]. apply String.eqb_eq in He.
      now exists q. }
    clear Hfind. revert Hq.
    destruct f as [n [c|] [s|] [pc|] [g|] [pv|]]; campos_simpl;
      cbn [anexar app]; intros Hq;
      unfold ejecutar_update; cbn [ligar_todas ligar bind];
      unfold Sql.bind_int, Sql.bind_real;
      split_cases; cbn [bind andb negb]; intros H;
      try reflexivity; try discriminate H;
      rewrite (actualizar_filas_raise _ _ IntegrityError) in H;
      solve [discriminate H | intros; reflexivity | exact Hq].
  - clear Hfind.
    destruct f as [n [c|] [s|] [pc|] [g|] [pv|]]; campos_simpl;
      unfold insertar; cbn [o_defecto option_map];
      unfold Sql.bind_int, Sql.bind_real;
      split_cases; cbn [bind andb negb Sql.not_null]; intros H;
      try reflexivity; discriminate H.
Qed.

(** A row of a new name whose values SQLite accepts appends
    [new_product] under the next rowid. *)
Lemma upsert_new (f : campos_fila) (st : estado) :
  (forall p, In p (productos st) -> Producto.nombre p <> c_nombre f) ->
  storable f = true ->
  upsert f st =
  Ok (con_seq (seq st + 1)
        (con_productos (productos st ++ [new_product (seq st + 1) f])%list
           st)).
Proof.
  intros Hnew Hst. unfold upsert, Sql.fetchone.
  rewrite find_none_all
    by (intros p Hp; apply String.eqb_neq; now apply Hnew).
  storable_split Hst. clear Hnew.
  destruct f as [n [c|] [s|] [pc|] [g|] [pv|]]; campos_simpl;
    unfold insertar, new_product, stored_real; campos_simpl;
    cbn [o_defecto option_map]; unfold Sql.bind_int, Sql.bind_real;
    repeat match goal with
      | H : Sql.in_int64 _ = true |- _ => rewrite H; clear H
      | H : negb (Flt.is_nan _) = true |- _ =>
          apply negb_true_iff in H; rewrite H; clear H
      end;
    reflexivity.
Qed.



(* ================================================================== *)
(** * Spreadsheet import: the batch *)




(** Processing rows touches the product table and its rowid counter
    only: nothing is committed or flashed before the loop ends. *)
Lemma upsert_frame (f : campos_fila) (st st' : estado) :
  upsert f st = Ok st' ->
  commits st' = commits st /\ mensajes st' = mensajes st /\
  usuarios st' = usuarios st /\ sesion st' = sesion st.
Proof.
  intros H. pose proof (upsert_ok_storable f st st' H) as Hst.
  destruct (Sql.fetchone
              (fun p => String.eqb (Producto.nombre p) (c_nombre f))
              (productos st)) as [q|] eqn:Hfind.
  - apply find_some in Hfind as [Hin He]. apply String.eqb_eq in He.
    rewrite (upsert_existing f st) in H; [|now exists q | exact Hst].
    inversion H. now repeat split.
  - rewrite (upsert_new f st) in H; [|  | exact Hst].
    + inversion H. now repeat split.
    + intros p Hp. apply String.eqb_neq. exact (find_none _ _ Hfind p Hp).
Qed.

Lemma importar_bucle_frame (cols : list string) (rows : list (list pyval))
  (st : estado) (ok err : Z) :
  let '(st', _, _) := importar_bucle cols rows st ok err in
  commits st' = commits st /\ mensajes st' = mensajes st /\
  usuarios st' = usuarios st /\ sesion st' = sesion st.
Proof.
  revert st ok err. induction rows as [|row rows IH]; intros st ok err;
    cbn [importar_bucle]; [now repeat split|].
  destruct (procesar_fila cols row st) as [st1|e] eqn:Hp.
  - unfold procesar_fila in Hp.
    destruct (leer_fila cols row) as [f|]; [|discriminate]. cbn [bind] in Hp.
    apply upsert_frame in Hp as (H1 & H2 & H3 & H4).
    specialize (IH st1 (ok + 1) err).
    destruct (importar_bucle cols rows st1 (ok + 1) err) as [[s o] e].
    rewrite <- H1, <- H2, <- H3, <- H4. exact IH.
  - apply IH.
Qed.



(* ================================================================== *)
(** * Export followed by import *)




Lemma insert_by_In (key : producto -> string) (p q : producto)
  (t : list producto) :
  In p (Sql.insert_by key q t) <-> p = q \/ In p t.
Proof.
  induction t as [|r t IH]; cbn [Sql.insert_by].
  - cbn. intuition.
  - destruct (Sql.text_leb (key q) (key r)); cbn [In].
    + intuition.
    + rewrite IH. intuition.
Qed.

Lemma order_by_In (key : producto -> string) (p : producto)
  (t : list producto) :
  In p (Sql.order_by key t) <-> In p t.
Proof.
  unfold Sql.order_by. induction t as [|q t IH]; cbn [fold_right In];
    [tauto|].
  rewrite insert_by_In, IH. intuition.
Qed.

Lemma insert_by_length (key : producto -> string) (q : producto)
  (t : list producto) :
  List.length (Sql.insert_by key q t) = S (List.length t).
Proof.
  induction t as [|r t IH]; cbn [Sql.insert_by]; [reflexivity|].
  destruct (Sql.text_leb (key q) (key r)); cbn [List.length];
    [reflexivity | now rewrite IH].
Qed.

Lemma order_by_length (key : producto -> string) (t : list producto) :
  List.length (Sql.order_by key t) = List.length t.
Proof.
  unfold Sql.order_by. induction t as [|q t IH]; cbn [fold_right];
    [reflexivity|].
  now rewrite insert_by_length, IH.
Qed.









(* ================================================================== *)
(** * The password change *)

Lemma buscar_usuario_same (name : string) (st st' : estado) :
  usuarios st' = usuarios st ->
  buscar_usuario name st' = buscar_usuario name st.
Proof. unfold buscar_usuario. now intros ->. Qed.

(** C9: a posted password change ends on the inventory page only when
    there is a session user, the user's stored hash verifies the current
    password and the new password equals its confirmation, and then the
    user's hash is replaced.  A confirmation mismatch and a wrong current
    password are each rejected with their own message; on every
    rejection the user table and the commit count stay as they were, so
    whatever password verified before still verifies. *)
Theorem cambiar_password_guarded :
  forall (check : string -> string -> bool)
         (gen : string -> string -> string)
         (f : cambio) (sal : string) (st : estado),
    let r := cambiar_password check gen (Some f) sal st in
    (fst r = Redirect "inventario" ->
     exists u user,
       sesion st = Some u /\ buscar_usuario u st = Some user /\
       check (Usuario.password user) (actual f) = true /\
       nueva f = confirmar f /\
       usuarios (snd r) =
         map (fun x => if String.eqb (Usuario.usuario x) u
                       then Usuario.make (Usuario.usuario x)
                              (gen sal (nueva f))
                       else x) (usuarios st)) /\
    (forall u, sesion st = Some u -> nueva f <> confirmar f ->
       r = (Redirect "cambiar_password",
            flash "❌ Las contraseñas nuevas no coinciden" "danger" st)) /\
    (forall u, sesion st = Some u -> nueva f = confirmar f ->
       (forall user, buscar_usuario u st = Some user ->
                     check (Usuario.password user) (actual f) = false) ->
       r = (Redirect "cambiar_password",
            flash "❌ Contraseña actual incorrecta" "danger" st)) /\
    (sesion st = None -> r = (Redirect "login", st)) /\
    (fst r <> Redirect "inventario" ->
     usuarios (snd r) = usuarios st /\ commits (snd r) = commits st /\
     forall name pw user,
       buscar_usuario name st = Some user ->
       check (Usuario.password user) pw = true ->
       buscar_usuario name (snd r) = Some user).
Proof.
  intros check gen f sal st r. subst r. unfold cambiar_password.
  destruct (sesion st) as [u|] eqn:Hs.
  2:{ cbn [fst snd].
      repeat split; intros; try discriminate; try assumption; tauto. }
  destruct (String.eqb_spec (nueva f) (confirmar f)) as [He|He];
    cbn [negb fst snd].
  - destruct (buscar_usuario u st) as [user|] eqn:Hb.
    + destruct (check (Usuario.password user) (actual f)) eqn:Hc;
        cbn [negb fst snd].
      * split; [|split; [|split; [|split]]].
        -- intros _. exists u, user. now repeat split.
        -- intros u' _ Hne. contradiction.
        -- intros u' Hu' _ Hall. inversion Hu'; subst u'.
           rewrite (Hall user Hb) in Hc. discriminate.
        -- discriminate.
        -- intros H. now contradiction H.
      * repeat split; intros; try discriminate; try contradiction;
          assumption.
    + repeat split; intros; try discriminate; try contradiction;
        assumption.
  - repeat split; intros; try discriminate; try contradiction;
      assumption.
Qed.

Lemma cambiar_password_guarded_witness :
  cambiar_password toy_check toy_generate
    (Some {| actual := "admin123"; nueva := "nuevo"; confirmar := "nueva" |})
    "salt1" ejemplo
  = (Redirect "cambiar_password",
     flash "❌ Las contraseñas nuevas no coinciden" "danger" ejemplo) /\
  cambiar_password toy_check toy_generate
    (Some {| actual := "admin124"; nueva := "nuevo"; confirmar := "nuevo" |})
    "salt1" ejemplo
  = (Redirect "cambiar_password",
     flash "❌ Contraseña actual incorrecta" "danger" ejemplo) /\
  (exists u user,
      sesion ejemplo = Some u /\ buscar_usuario u ejemplo = Some user /\
      toy_check (Usuario.password user) "admin123" = true /\
      "nuevo" = "nuevo" /\
      usuarios
        (snd (cambiar_password toy_check toy_generate
                (Some {| actual := "admin123"; nueva := "nuevo";
                         confirmar := "nuevo" |}) "salt1" ejemplo))
      = map (fun x => if String.eqb (Usuario.usuario x) u
                      then Usuario.make (Usuario.usuario x)
                             (toy_generate "salt1" "nuevo")
                      else x) (usuarios ejemplo)).
Proof.
  split; [|split].
  - apply (proj1 (proj2 (cambiar_password_guarded toy_check toy_generate
             {| actual := "admin123"; nueva := "nuevo"; confirmar := "nueva" |}
             "salt1" ejemplo)) "admin" eq_refl).
    cbn. discriminate.
  - apply (proj1 (proj2 (proj2 (cambiar_password_guarded toy_check
             toy_generate
             {| actual := "admin124"; nueva := "nuevo"; confirmar := "nuevo" |}
             "salt1" ejemplo))) "admin" eq_refl eq_refl).
    intros user H. vm_compute in H. inversion H. vm_compute. reflexivity.
  - apply (proj1 (cambiar_password_guarded toy_check toy_generate
             {| actual := "admin123"; nueva := "nuevo"; confirmar := "nuevo" |}
             "salt1" ejemplo)).
    vm_compute. reflexivity.
Defined.

(* ================================================================== *)
(** * Floats read from numerals are numbers *)

Lemma shr_1_nonneg (mrs : shr_record) :
  0 <= shr_m mrs -> 0 <= shr_m (shr_1 mrs).
Proof.
  destruct mrs as [m r s]. destruct m as [|[p|p|]|[p|p|]]; cbn; lia.
Qed.

Lemma iter_pos_invariant {A : Type} (P : A -> Prop) (f : A -> A) :
  (forall x, P x -> P (f x)) ->
  forall (p : positive) (x : A), P x -> P (iter_pos f p x).
Proof.
  intros Hf. induction p as [p IH|p IH|]; intros x Hx; cbn [iter_pos].
  - apply IH, IH, Hf, Hx.
  - apply IH, IH, Hx.
  - apply Hf, Hx.
Qed.

Lemma shr_fexp_nonneg (m e : Z) (l : location) :
  0 <= m -> 0 <= shr_m (fst (shr_fexp Flt.prec Flt.emax m e l)).
Proof.
  intros Hm. unfold shr_fexp, shr.
  assert (H0 : 0 <= shr_m (shr_record_of_loc m l))
    by (destruct l as [|[]]; exact Hm).
  destruct (fexp Flt.prec Flt.emax (Zdigits2 m + e) - e) as [|p|p];
    cbn [fst]; try exact H0.
  apply (iter_pos_invariant (fun x => 0 <= shr_m x)); [|exact H0].
  exact shr_1_nonneg.
Qed.

Lemma round_nearest_even_nonneg (mx : Z) (lx : location) :
  0 <= mx -> 0 <= round_nearest_even mx lx.
Proof.
  intros H. destruct lx as [|[]]; cbn; try destruct (Z.even mx); lia.
Qed.



(* ================================================================== *)
(** * The normalizer never returns NaN *)

Lemma all_chars_keep_only (cls : ascii -> bool) (s : string) :
  all_chars cls (Str.keep_only cls s) = true.
Proof.
  induction s as [|c s IH]; cbn [Str.keep_only]; [reflexivity|].
  destruct (cls c) eqn:Hc; [|exact IH]. cbn. now rewrite Hc.
Qed.

Lemma all_chars_app (cls : ascii -> bool) (a b : string) :
  all_chars cls (a ++ b) = all_chars cls a && all_chars cls b.
Proof.
  induction a as [|c a IH]; cbn; [reflexivity|].
  now rewrite IH, andb_assoc.
Qed.

Lemma all_chars_replace (cls : ascii -> bool) (c : ascii) (new s : string) :
  all_chars cls new = true -> all_chars cls s = true ->
  all_chars cls (Str.replace c new s) = true.
Proof.
  intros Hn. induction s as [|a s IH]; cbn [Str.replace all_chars];
    [reflexivity|].
  intros H. apply andb_true_iff in H as [Ha Hs].
  destruct (Ascii.eqb a c).
  - rewrite all_chars_app, Hn. now apply IH.
  - cbn. rewrite Ha. now apply IH.
Qed.

Lemma all_chars_drop_periods (cls : ascii -> bool) (s : string) :
  all_chars cls s = true -> all_chars cls (drop_periods_but_last s) = true.
Proof.
  induction s as [|a s IH]; cbn [drop_periods_but_last all_chars];
    [reflexivity|].
  intros H. apply andb_true_iff in H as [Ha Hs].
  destruct (Ascii.eqb a "." && Str.has_char "." s).
  - now apply IH.
  - cbn. rewrite Ha. now apply IH.
Qed.

Lemma numeric_char_facts (c : ascii) :
  numeric_char c = true ->
  Ascii.eqb c "_" = false /\ Str.is_space c = false /\
  Ascii.eqb (Str.lower_char c) "i" = false /\
  Ascii.eqb (Str.lower_char c) "n" = false /\
  forall r, Flt.split_sign (String c r) = (false, String c r).
Proof.
  destruct c as [[] [] [] [] [] [] [] []]; vm_compute;
    intros H; try discriminate H; repeat split.
Qed.

Lemma drop_underscores_numeric (prev : ascii) (t : string) :
  Ascii.eqb prev "_" = false -> all_chars numeric_char t = true ->
  Str.drop_underscores prev t = Some t.
Proof.
  revert prev. induction t as [|c t IH]; intros prev Hp;
    cbn [Str.drop_underscores all_chars].
  - now rewrite Hp.
  - intros H. apply andb_true_iff in H as [Hc Ht].
    destruct (numeric_char_facts c Hc) as (Hu & _).
    rewrite Hu, Hp. cbn [andb]. now rewrite (IH c Hu Ht).
Qed.

Lemma strip_numeric (t : string) :
  all_chars numeric_char t = true -> Str.strip t = t.
Proof.
  intros H. unfold Str.strip.
  assert (Hl : Str.lstrip t = t).
  { destruct t as [|c t]; [reflexivity|]. cbn in H |- *.
    apply andb_true_iff in H as [Hc _].
    destruct (numeric_char_facts c Hc) as (_ & Hs & _). now rewrite Hs. }
  rewrite Hl. clear Hl. induction t as [|c t IH]; [reflexivity|].
  cbn [all_chars] in H. apply andb_true_iff in H as [Hc Ht].
  cbn [Str.rstrip]. rewrite (IH Ht).
  destruct (numeric_char_facts c Hc) as (_ & Hs & _).
  destruct t; [now rewrite Hs | reflexivity].
Qed.

Lemma parse_special_numeric (neg : bool) (t : string) :
  all_chars numeric_char t = true -> Flt.parse_special neg t = None.
Proof.
  unfold Flt.parse_special. destruct t as [|c t]; [reflexivity|].
  cbn [all_chars Str.lower]. intros H. apply andb_true_iff in H as [Hc _].
  destruct (numeric_char_facts c Hc) as (_ & _ & Hi & Hn & _).
  cbn [String.eqb]. now rewrite Hi, Hn.
Qed.



(* ================================================================== *)
(** * Create and edit *)




(* ================================================================== *)
(** * The listing order *)

Lemma text_leb_total (s t : string) :
  Sql.text_leb s t = false -> Sql.text_leb t s = true.
Proof.
  revert t. induction s as [|a s IH]; intros t; [discriminate|].
  destruct t as [|b t]; [reflexivity|]. cbn [Sql.text_leb].
  destruct (N.ltb_spec (N_of_ascii a) (N_of_ascii b)) as [Hab|Hab];
    [discriminate|].
  destruct (Ascii.eqb_spec a b) as [->|Hne].
  - rewrite N.ltb_irrefl, Ascii.eqb_refl. apply IH.
  - intros _. destruct (N.ltb_spec (N_of_ascii b) (N_of_ascii a)) as [|Hba];
      [reflexivity|].
    exfalso. apply Hne.
    rewrite <- (ascii_N_embedding a), <- (ascii_N_embedding b).
    f_equal. lia.
Qed.

Lemma text_leb_trans (s t u : string) :
  Sql.text_leb s t = true -> Sql.text_leb t u = true ->
  Sql.text_leb s u = true.
Proof.
  revert t u. induction s as [|a s IH]; intros t u; [reflexivity|].
  destruct t as [|b t]; [discriminate|].
  destruct u as [|c u]; [intros _ H; discriminate H|].
  cbn [Sql.text_leb].
  destruct (N.ltb_spec (N_of_ascii a) (N_of_ascii b)) as [Hab|Hab].
  - intros _.
    destruct (N.ltb_spec (N_of_ascii b) (N_of_ascii c)) as [Hbc|Hbc].
    + intros _. replace (N_of_ascii a <? N_of_ascii c)%N with true;
        [reflexivity|]. symmetry. apply N.ltb_lt. lia.
    + destruct (Ascii.eqb_spec b c) as [->|]; [|discriminate].
      intros _. replace (N_of_ascii a <? N_of_ascii c)%N with true;
        [reflexivity|]. symmetry. now apply N.ltb_lt.
  - destruct (Ascii.eqb_spec a b) as [->|]; [|discriminate].
    intros Hst.
    destruct (N_of_ascii b <? N_of_ascii c)%N; [reflexivity|].
    destruct (Ascii.eqb b c); [|discriminate].
    now apply IH.
Qed.

Lemma insert_by_perm (key : producto -> string) (p : producto)
  (t : list producto) :
  Permutation (Sql.insert_by key p t) (p :: t).
Proof.
  induction t as [|q t IH]; cbn [Sql.insert_by]; [reflexivity|].
  destruct (Sql.text_leb (key p) (key q)); [reflexivity|].
  rewrite IH. apply perm_swap.
Qed.

Lemma insert_by_sorted (key : producto -> string) (p : producto)
  (t : list producto) :
  Sorted (fun a b => Sql.text_leb (key a) (key b) = true) t ->
  Sorted (fun a b => Sql.text_leb (key a) (key b) = true)
    (Sql.insert_by key p t).
Proof.
  induction t as [|q t IH]; intros Hs; cbn [Sql.insert_by].
  - repeat constructor.
  - destruct (Sql.text_leb (key p) (key q)) eqn:Hpq.
    + constructor; [exact Hs | now constructor].
    + inversion Hs as [|? ? Ht Hhd]; subst. constructor; [now apply IH|].
      destruct t as [|r t]; cbn [Sql.insert_by].
      * constructor. now apply text_leb_total.
      * destruct (Sql.text_leb (key p) (key r)).
        -- constructor. now apply text_leb_total.
        -- inversion Hhd; subst. now constructor.
Qed.

(** X1: The listing is the table reordered: every stored row once, each
    row's lowered name at most the lowered name of every later row, in
    byte order. *)
Theorem obtener_productos_sorted :
  forall st : estado,
    Permutation (obtener_productos st) (productos st) /\
    StronglySorted
      (fun a b => Sql.text_leb (Str.lower (Producto.nombre a))
                    (Str.lower (Producto.nombre b)) = true)
      (obtener_productos st).
Proof.
  intros st. unfold obtener_productos, Sql.order_by. split.
  - induction (productos st) as [|p t IH]; cbn [fold_right]; [reflexivity|].
    rewrite insert_by_perm. now constructor.
  - apply Sorted_StronglySorted.
    + intros a b c. apply text_leb_trans.
    + induction (productos st) as [|p t IH]; cbn [fold_right];
        [constructor|].
      now apply insert_by_sorted.
Qed.

(* ================================================================== *)
(** * Rowids *)

Lemma ids_ok_frame (st st' : estado) :
  productos st' = productos st -> seq st' = seq st ->
  ids_ok st -> ids_ok st'.
Proof. unfold ids_ok. intros -> ->. tauto. Qed.

Lemma update_ids (w : producto -> bool) (h : producto -> producto)
  (t : list producto) :
  (forall p, Producto.id (h p) = Producto.id p) ->
  map Producto.id (Sql.update w h t) = map Producto.id t.
Proof.
  intros Hh. unfold Sql.update. rewrite map_map. apply map_ext.
  intros p. now destruct (w p).
Qed.

Lemma ids_ok_update (w : producto -> bool) (h : producto -> producto)
  (st st' : estado) :
  (forall p, Producto.id (h p) = Producto.id p) ->
  productos st' = Sql.update w h (productos st) -> seq st' = seq st ->
  ids_ok st -> ids_ok st'.
Proof.
  intros Hh Hp Hs [Hn Hb]. unfold ids_ok. rewrite Hp, Hs.
  rewrite (update_ids w h _ Hh). split; [exact Hn|].
  intros p Hin. unfold Sql.update in Hin.
  apply in_map_iff in Hin as (q & Hq & Hin).
  destruct (w q); subst p; [rewrite Hh|]; now apply Hb.
Qed.

Lemma ids_ok_append (st st' : estado) (p : producto) :
  productos st' = (productos st ++ [p])%list -> seq st' = seq st + 1 ->
  Producto.id p = seq st + 1 ->
  ids_ok st -> ids_ok st'.
Proof.
  intros Hp Hs Hid [Hn Hb]. unfold ids_ok. rewrite Hp, Hs. split.
  - rewrite map_app. cbn [map]. apply NoDup_rev in Hn.
    rewrite <- (rev_involutive (_ ++ _)%list). apply NoDup_rev.
    rewrite rev_app_distr. cbn [rev app]. constructor; [|exact Hn].
    rewrite <- in_rev, in_map_iff. intros (q & Hq & Hin).
    specialize (Hb q Hin). lia.
  - intros q Hin. apply in_app_iff in Hin as [Hin|[<-|[]]]; [|lia].
    specialize (Hb q Hin). lia.
Qed.

Lemma ids_ok_delete (w : producto -> bool) (st st' : estado) :
  productos st' = Sql.delete w (productos st) -> seq st' = seq st ->
  ids_ok st -> ids_ok st'.
Proof.
  intros Hp Hs [Hn Hb]. unfold ids_ok. rewrite Hp, Hs. unfold Sql.delete.
  split.
  - clear Hb Hp. revert Hn. generalize (productos st). intros t.
    induction t as [|p t IH]; intros Hn; cbn [filter map]; [constructor|].
    inversion Hn as [|? ? Hp' Ht]; subst.
    destruct (negb (w p)); [|now apply IH].
    cbn [map]. constructor; [|now apply IH].
    rewrite in_map_iff. intros (q & Hq & Hin). apply filter_In in Hin.
    apply Hp'. rewrite <- Hq. now apply in_map.
  - intros p Hin. apply filter_In in Hin. now apply Hb.
Qed.

(** What a successful [INSERT] leaves behind. *)
Lemma insertar_ok (n : string) (c s : Z) (pc : num) (pv : string) (g : num)
  (st st' : estado) :
  insertar n c s pc pv g st = Ok st' ->
  exists pc' g',
    Sql.bind_real pc = Ok (Some pc') /\ Sql.bind_real g = Ok g' /\
    Sql.in_int64 c = true /\ Sql.in_int64 s = true /\
    st' = con_seq (seq st + 1)
            (con_productos
               (productos st ++
                [Producto.make (seq st + 1) n c s pc' pv g'])%list st).
Proof.
  unfold insertar, Sql.bind_int.
  destruct (Sql.in_int64 c); [|discriminate].
  destruct (Sql.in_int64 s); [|discriminate]. cbn [bind].
  destruct (Sql.bind_real pc) as [[pc'|]|]; try discriminate;
    destruct (Sql.bind_real g) as [g'|]; try discriminate.
  cbn [bind Sql.not_null]. intros H. inversion H.
  exists pc', g'. now repeat split.
Qed.

Lemma insertar_ids_ok (n : string) (c s : Z) (pc : num) (pv : string)
  (g : num) (st st' : estado) :
  insertar n c s pc pv g st = Ok st' -> ids_ok st -> ids_ok st'.
Proof.
  intros H Hok. apply insertar_ok in H as (pc' & g' & _ & _ & _ & _ & ->).
  now apply (ids_ok_append st _
               (Producto.make (seq st + 1) n c s pc' pv g')).
Qed.

Lemma partial_update_id (f : campos_fila) (p : producto) :
  Producto.id (partial_update f p) = Producto.id p.
Proof. reflexivity. Qed.

Lemma upsert_ids_ok (f : campos_fila) (st st' : estado) :
  upsert f st = Ok st' -> ids_ok st -> ids_ok st'.
Proof.
  intros H Hok. pose proof (upsert_ok_storable f st st' H) as Hst.
  destruct (Sql.fetchone
              (fun p => String.eqb (Producto.nombre p) (c_nombre f))
              (productos st)) as [q|] eqn:Hfind.
  - apply find_some in Hfind as [Hin He]. apply String.eqb_eq in He.
    rewrite (upsert_existing f st) in H; [|now exists q | exact Hst].
    inversion H. subst st'.
    now apply (ids_ok_update
                 (fun p => String.eqb (Producto.nombre p) (c_nombre f))
                 (partial_update f) st).
  - rewrite (upsert_new f st) in H; [| |exact Hst].
    + inversion H. subst st'.
      now apply (ids_ok_append st _ (new_product (seq st + 1) f)).
    + intros p Hp. apply String.eqb_neq. exact (find_none _ _ Hfind p Hp).
Qed.

Lemma importar_bucle_ids_ok (cols : list string) (rows : list (list pyval))
  (st : estado) (ok err : Z) :
  ids_ok st -> ids_ok (fst (fst (importar_bucle cols rows st ok err))).
Proof.
  revert st ok err. induction rows as [|row rows IH]; intros st ok err Hok;
    cbn [importar_bucle]; [exact Hok|].
  destruct (procesar_fila cols row st) as [st1|e] eqn:Hp; [|now apply IH].
  apply IH. unfold procesar_fila in Hp.
  destruct (leer_fila cols row) as [f|]; [|discriminate].
  now apply (upsert_ids_ok f st).
Qed.

Lemma migrar_bucle_ids_ok (ps : list entrada) (st st' : estado) :
  migrar_bucle ps st = Ok st' -> ids_ok st -> ids_ok st'.
Proof.
  revert st. induction ps as [|p ps IH]; intros st H Hok;
    cbn [migrar_bucle] in H.
  - inversion H. subst. exact Hok.
  - destruct (insertar _ _ _ _ _ _ st) as [st1|] eqn:Hi; [|discriminate].
    apply (IH st1 H). now apply (insertar_ids_ok _ _ _ _ _ _ _ _ Hi).
Qed.

(** X2: Every view operation that writes the product table keeps the rowids
    pairwise distinct and bounded by the largest one given out: create,
    update, delete, sell and import. *)
Theorem ids_ok_preserved :
  forall st : estado,
    ids_ok st ->
    (forall n c s pc pv g st',
        agregar_producto n c s pc pv g st = Ok st' -> ids_ok st') /\
    (forall id n c s pc pv g st',
        actualizar_producto id n c s pc pv g st = Ok st' -> ids_ok st') /\
    (forall id st', eliminar_producto id st = Ok st' -> ids_ok st') /\
    (forall n c r st', vender n c st = Ok (r, st') -> ids_ok st') /\
    (forall archivo, ids_ok (snd (importar_excel archivo st))).
Proof.
  intros st Hok. repeat apply conj.
  - intros n c s pc pv g st' H. unfold agregar_producto in H.
    destruct (insertar _ _ _ _ _ _ st) as [st1|] eqn:Hi; [|discriminate].
    inversion H. apply (ids_ok_frame st1); try reflexivity.
    now apply (insertar_ids_ok _ _ _ _ _ _ _ _ Hi).
  - intros id n c s pc pv g st' H. unfold actualizar_producto in H.
    destruct (Sql.bind_int c) as [c'|]; [|discriminate].
    destruct (Sql.bind_int s) as [s'|]; [|discriminate]. cbn [bind] in H.
    destruct (Sql.bind_real (NFloat pc)) as [pc0|]; [|discriminate].
    destruct (Sql.bind_real (NFloat g)) as [g'|]; [|discriminate].
    destruct (Sql.bind_int id) as [i|]; [|discriminate]. cbn [bind] in H.
    destruct (Sql.not_null pc0) as [pc'|]; [|discriminate].
    inversion H.
    eapply (ids_ok_update _ _ st); [| reflexivity | reflexivity | exact Hok].
    reflexivity.
  - intros id st' H. unfold eliminar_producto in H.
    destruct (Sql.bind_int id) as [i|]; [|discriminate]. inversion H.
    now eapply (ids_ok_delete _ st).
  - intros n c r st' H. unfold vender in H.
    destruct (sesion st); [|inversion H; now subst].
    destruct (Sql.bind_int (Z.of_N c)) as [c'|]; [|discriminate].
    inversion H.
    eapply (ids_ok_update _ _ st); [| reflexivity | reflexivity | exact Hok].
    reflexivity.
  - intros archivo. unfold importar_excel.
    destruct (sesion st); [|exact Hok].
    destruct archivo as [[filename df]|]; [|exact Hok].
    destruct (negb (ends_with ".xlsx" filename)); [exact Hok|].
    destruct (negb (has_column _ "Nombre")); [exact Hok|].
    pose proof (importar_bucle_ids_ok (map Str.strip (columns df))
                  (filas df) st 0 0 Hok) as H.
    destruct (importar_bucle _ (filas df) st 0 0) as [[st1 ok] err].
    exact H.
Qed.

Lemma ids_ok_ejemplo : ids_ok ejemplo.
Proof.
  split.
  - cbn. repeat constructor; cbn; intuition discriminate.
  - intros p Hp. cbn in Hp.
    destruct Hp as [<-|[<-|[<-|[<-|[]]]]]; cbn; lia.
Qed.

Lemma ids_ok_preserved_witness :
  ids_ok (snd (importar_excel (Some ("stock.xlsx", ejemplo_frame)) ejemplo)).
Proof.
  exact (proj2 (proj2 (proj2 (proj2
           (ids_ok_preserved ejemplo ids_ok_ejemplo))))
           (Some ("stock.xlsx", ejemplo_frame))).
Defined.

(* ================================================================== *)
(** * Create, update, delete and the lookup by rowid *)

Lemma find_app_last {A : Type} (f : A -> bool) (l : list A) (x : A) :
  find f (l ++ [x]) =
  match find f l with
  | Some y => Some y
  | None => if f x then Some x else None
  end.
Proof.
  induction l as [|a l IH]; cbn [app find]; [reflexivity|].
  now destruct (f a).
Qed.


Lemma find_delete (i j : Z) (t : list producto) :
  find (fun p : producto => Producto.id p =? j)
    (Sql.delete (fun p : producto => Producto.id p =? i) t) =
  if j =? i then None else find (fun p : producto => Producto.id p =? j) t.
Proof.
  unfold Sql.delete. induction t as [|p t IH]; cbn [filter find].
  - now destruct (j =? i).
  - destruct (Z.eqb_spec (Producto.id p) i) as [Hi|Hi]; cbn [negb find].
    + rewrite IH. destruct (Z.eqb_spec j i) as [Hj|Hj]; [reflexivity|].
      destruct (Z.eqb_spec (Producto.id p) j); [lia | reflexivity].
    + destruct (Z.eqb_spec (Producto.id p) j) as [Hj|Hj].
      * destruct (Z.eqb_spec j i); [lia | reflexivity].
      * exact IH.
Qed.

Lemma bind_real_float (x : float) :
  Sql.bind_real (NFloat x) = Ok (stored_real x).
Proof. reflexivity. Qed.

(** X3: In a store with well-kept rowids a successful create appends one
    row under the next rowid: looking that rowid up returns the row with
    the very fields given, and every other lookup answers as before. *)
Theorem agregar_producto_lookup :
  forall (st st' : estado) (n : string) (c s : Z) (pc : float)
         (pv : string) (g : float),
    ids_ok st ->
    agregar_producto n c s pc pv g st = Ok st' ->
    obtener_producto (seq st + 1) st'
      = Some (Producto.make (seq st + 1) n c s pc pv (stored_real g)) /\
    (forall id, id <> seq st + 1 ->
                obtener_producto id st' = obtener_producto id st) /\
    List.length (productos st') = S (List.length (productos st)) /\
    seq st' = seq st + 1.
Proof.
  intros st st' n c s pc pv g [Hn Hb] H. unfold agregar_producto in H.
  destruct (insertar _ _ _ _ _ _ st) as [st1|] eqn:Hi; [|discriminate].
  inversion H. subst st'. clear H.
  apply insertar_ok in Hi as (pc' & g' & Hpc & Hg & _ & _ & ->).
  rewrite bind_real_float in Hpc, Hg. inversion Hg. subst g'.
  assert (pc' = pc).
  { unfold stored_real in Hpc. destruct (Flt.is_nan pc); now inversion Hpc. }
  subst pc'.
  assert (Hnew : forall id,
    find (fun p : producto => Producto.id p =? id) (productos st) = None \/
    id <> seq st + 1).
  { intros id. destruct (Z.eq_dec id (seq st + 1)) as [->|]; [left|now right].
    apply find_none_all. intros p Hp. specialize (Hb p Hp).
    apply Z.eqb_neq. lia. }
  unfold obtener_producto, Sql.fetchone.
  cbn [productos seq commit con_seq con_productos].
  repeat split.
  - rewrite find_app_last.
    destruct (Hnew (seq st + 1)) as [->|]; [|lia].
    cbn [Producto.id]. now rewrite Z.eqb_refl.
  - intros id Hid. rewrite find_app_last. cbn [Producto.id].
    destruct (find _ (productos st)); [reflexivity|].
    destruct (Z.eqb_spec (seq st + 1) id); [lia | reflexivity].
  - rewrite length_app. cbn. lia.
Qed.

Lemma agregar_producto_lookup_witness :
  exists st' : estado,
    agregar_producto "Foco" 3 1 (Flt.of_Z 9) "Beta" Flt.nan ejemplo = Ok st' /\
    obtener_producto 5 st'
      = Some (Producto.make 5 "Foco" 3 1 (Flt.of_Z 9) "Beta" None) /\
    obtener_producto 2 st' = obtener_producto 2 ejemplo.
Proof.
  eexists. split; [vm_compute; reflexivity|].
  match goal with
  | |- obtener_producto _ ?s = _ /\ _ =>
      destruct (agregar_producto_lookup ejemplo s "Foco" 3 1 (Flt.of_Z 9)
                  "Beta" Flt.nan ids_ok_ejemplo eq_refl) as (H1 & H2 & _)
  end.
  split; [exact H1 | apply H2; discriminate].
Defined.



(** X5: Delete removes the row of that rowid and nothing else: its lookup
    then finds nothing, other lookups answer as before, the rowid
    counter stays, and with no such row the table is left as it was (the
    view still redirects to the index). *)
Theorem eliminar_lookup :
  forall (st st' : estado) (id : N) (u : string) (r : respuesta unit),
    sesion st = Some u ->
    eliminar id st = Ok (r, st') ->
    r = Redirect "index" /\
    obtener_producto (Z.of_N id) st' = None /\
    (forall j, j <> Z.of_N id ->
               obtener_producto j st' = obtener_producto j st) /\
    (obtener_producto (Z.of_N id) st = None ->
     productos st' = productos st) /\
    seq st' = seq st.
Proof.
  intros st st' id u r Hs H. unfold eliminar, eliminar_producto in H.
  rewrite Hs in H.
  destruct (Sql.bind_int (Z.of_N id)) as [i|] eqn:Hi; [|discriminate].
  apply bind_int_ok in Hi as [-> _]. cbn [bind] in H. inversion H.
  subst r st'. clear H. unfold obtener_producto, Sql.fetchone.
  cbn [productos seq commit con_productos]. repeat split.
  - now rewrite find_delete, Z.eqb_refl.
  - intros j Hj. rewrite find_delete.
    destruct (Z.eqb_spec j (Z.of_N id)); [contradiction | reflexivity].
  - intros Hnone. unfold Sql.delete.
    pose proof (find_none _ _ Hnone) as Hall. clear Hnone.
    induction (productos st) as [|p t IH]; cbn [filter]; [reflexivity|].
    rewrite (Hall p (or_introl eq_refl)). cbn [negb]. f_equal.
    apply IH. intros q Hq. apply Hall. now right.
Qed.

Lemma eliminar_lookup_witness :
  exists st' : estado,
    eliminar 2 ejemplo = Ok (Redirect "index", st') /\
    obtener_producto 2 st' = None /\
    obtener_producto 3 st' = obtener_producto 3 ejemplo.
Proof.
  eexists. split; [vm_compute; reflexivity|].
  match goal with
  | |- obtener_producto _ ?s = _ /\ _ =>
      destruct (eliminar_lookup ejemplo s 2 "admin" (Redirect "index")
                  eq_refl eq_refl) as (_ & H1 & H2 & _)
  end.
  split; [exact H1 | apply H2; discriminate].
Defined.

(* ================================================================== *)
(** * The session gate *)

(** X6: Without a session every gated view answers with the redirect to the
    login page, raises nothing and leaves the state as it was, whatever
    its arguments; and logout leaves no session. *)
Theorem sin_sesion_redirige :
  forall st : estado,
    sesion st = None ->
    (forall q, inventario q st = Redirect "login") /\
    (forall q, index q st = Redirect "login") /\
    (forall q, lista_precios q st = Redirect "login") /\
    (forall form, agregar form st = Ok (Redirect "login", st)) /\
    (forall id form, editar id form st = Ok (Redirect "login", st)) /\
    (forall id, eliminar id st = Ok (Redirect "login", st)) /\
    pedidos st = Ok (Redirect "login") /\
    (forall n c, vender n c st = Ok (Redirect "login", st)) /\
    exportar_precios st = Ir "login" /\
    (forall fecha, backup fecha st = Ir "login") /\
    (forall archivo, importar_excel archivo st = (Redirect "login", st)) /\
    (forall fecha, exportar_excel fecha st = IrA "login") /\
    (forall check gen form sal,
        cambiar_password check gen form sal st = (Redirect "login", st)) /\
    (forall st0, sesion (snd (logout st0)) = None).
Proof.
  intros st Hs.
  unfold inventario, index, lista_precios, agregar, editar, eliminar,
    pedidos, vender, exportar_precios, backup, importar_excel,
    exportar_excel, cambiar_password.
  rewrite Hs. repeat split.
Qed.

Lemma sin_sesion_redirige_witness :
  vender "alambre" 1 (snd (logout ejemplo))
  = Ok (Redirect "login", snd (logout ejemplo)).
Proof.
  exact (proj1 (proj2 (proj2 (proj2 (proj2 (proj2 (proj2 (proj2
           (sin_sesion_redirige (snd (logout ejemplo)) eq_refl))))))))
           "alambre" 1%N).
Defined.

(** X7: Login opens a session exactly when the user exists and the stored
    hash verifies the password, and binds it to that user name.  Every
    failed login gives the same page and the same message, whether or
    not the user exists, and opens no session.  No table changes. *)
Theorem login_sesion :
  forall (check : string -> string -> bool) (usuario password : string)
         (st : estado),
    let r := login check (Some (usuario, password)) st in
    (fst r = Redirect "lista_precios" <->
     exists user, buscar_usuario usuario st = Some user /\
                  check (Usuario.password user) password = true) /\
    (fst r = Redirect "lista_precios" -> sesion (snd r) = Some usuario) /\
    (fst r <> Redirect "lista_precios" ->
     r = (Render "login.html" tt,
          flash "❌ Usuario o contraseña incorrectos" "danger" st)) /\
    usuarios (snd r) = usuarios st /\
    productos (snd r) = productos st /\
    commits (snd r) = commits st.
Proof.
  intros check usuario password st r. subst r. unfold login.
  destruct (buscar_usuario usuario st) as [user|] eqn:Hb.
  - destruct (check (Usuario.password user) password) eqn:Hc; cbn [fst snd].
    + repeat split; try reflexivity.
      * intros _. now exists user.
      * intros H. now contradiction H.
    + repeat split; try reflexivity; try discriminate.
      intros (user' & Hu & Hc'). inversion Hu. subst user'.
      rewrite Hc in Hc'. discriminate.
  - cbn [fst snd]. repeat split; try reflexivity; try discriminate.
    intros (user' & Hu & _). discriminate.
Qed.

Lemma login_sesion_witness :
  sesion (snd (login toy_check (Some ("admin", "admin123"))
                 (snd (logout ejemplo)))) = Some "admin" /\
  login toy_check (Some ("admin", "admin124")) (snd (logout ejemplo))
  = login toy_check (Some ("nadie", "admin123")) (snd (logout ejemplo)).
Proof.
  split.
  - apply (proj1 (proj2 (login_sesion toy_check "admin" "admin123"
                           (snd (logout ejemplo))))).
    vm_compute. reflexivity.
  - rewrite (proj1 (proj2 (proj2 (login_sesion toy_check "admin" "admin124"
                                    (snd (logout ejemplo))))))
      by (vm_compute; discriminate).
    rewrite (proj1 (proj2 (proj2 (login_sesion toy_check "nadie" "admin123"
                                    (snd (logout ejemplo))))))
      by (vm_compute; discriminate).
    reflexivity.
Defined.

(* ================================================================== *)
(** * The price list *)



(* ================================================================== *)
(** * The reorder view *)

Lemma mem_app_none {V : Type} (k : string) (d : Dict.t V) (k' : string)
  (v : V) :
  Dict.mem k d = false -> k' <> k ->
  Dict.mem k (d ++ [(k', v)])%list = false.
Proof.
  induction d as [|[a w] d IH]; cbn.
  - intros _ Hne. apply orb_false_iff. split; [|reflexivity].
    now apply String.eqb_neq.
  - intros H Hne. apply orb_false_iff in H as [Ha Hd]. rewrite Ha.
    now apply IH.
Qed.

(** Filling dictionaries from a dictionary with distinct keys keeps its
    keys and their order. *)
Lemma pedidos_fold (d : Dict.t (list linea)) (e : Dict.t string)
  (t : Dict.t num) (g : num) :
  NoDup (map fst d) ->
  (forall k, In k (map fst d) -> Dict.mem k e = false /\ Dict.mem k t = false) ->
  fold_left
    (fun '(enlaces, totales, total_general) '(prov, lista) =>
       (Dict.setitem prov (enlace prov lista) enlaces,
        Dict.setitem prov (total_proveedor lista) totales,
        Num.add total_general (total_proveedor lista)))
    d (e, t, g)
  = ((e ++ map (fun x => (fst x, enlace (fst x) (snd x))) d)%list,
     (t ++ map (fun x => (fst x, total_proveedor (snd x))) d)%list,
     fold_left Num.add (map (fun x => total_proveedor (snd x)) d) g).
Proof.
  revert e t g. induction d as [|[k l] d IH]; intros e t g Hn Hd;
    cbn [fold_left map].
  - now rewrite !app_nil_r.
  - cbn [map fst] in Hn, Hd. inversion Hn as [|? ? Hk Hn']; subst.
    destruct (Hd k (or_introl eq_refl)) as [He Ht].
    rewrite (setitem_new k _ e He), (setitem_new k _ t Ht).
    rewrite IH; [|exact Hn'|].
    + cbn [fst snd]. now rewrite <- !app_assoc.
    + intros k' Hk'. destruct (Hd k' (or_intror Hk')) as [He' Ht'].
      assert (k <> k') by (intros ->; contradiction).
      split; now apply mem_app_none.
Qed.

(** X9: The reorder view lists the same suppliers, in the same order, in
    its orders, links and totals: each link is the share URL followed by
    the supplier's encoded message, each total is the sum of
    shortfall times cost price over the supplier's lines, and the grand
    total is the sum of the suppliers' totals. *)
Theorem pedidos_enlaces_totales :
  forall (st : estado) (u : string),
    sesion st = Some u ->
    exists ctx : pedidos_ctx,
      pedidos st = Ok (Render "pedidos.html" ctx) /\
      ctx_pedidos ctx = reorder_spec (obtener_productos st) /\
      enlaces ctx =
        map (fun x => (fst x, "https://wa.me/?text=" ++
                              generar_mensaje_whatsapp (fst x) (snd x)))
          (ctx_pedidos ctx) /\
      totales ctx =
        map (fun x => (fst x, total_proveedor (snd x))) (ctx_pedidos ctx) /\
      total_general ctx =
        Num.sum (map (fun x => total_proveedor (snd x)) (ctx_pedidos ctx)) /\
      Dict.keys (enlaces ctx) = Dict.keys (ctx_pedidos ctx) /\
      Dict.keys (totales ctx) = Dict.keys (ctx_pedidos ctx).
Proof.
  intros st u Hs. unfold pedidos. rewrite Hs.
  unfold generar_pedidos.
  pose proof (generar_pedidos_bucle_spec (obtener_productos st) []) as Hb.
  change (reorder_spec []) with (@nil (string * list linea)) in Hb.
  cbn [app] in Hb. rewrite Hb. clear Hb. cbn [bind].
  set (d := reorder_spec (obtener_productos st)).
  assert (Hn : NoDup (map fst d)).
  { unfold d, reorder_spec. rewrite map_map. cbn [fst]. rewrite map_id.
    apply short_suppliers_NoDup. }
  assert (Hf := pedidos_fold d [] [] (NInt 0) Hn
                  (fun k _ => conj eq_refl eq_refl)).
  match type of Hf with
  | _ = ?r =>
      match goal with
      | |- context [fold_left ?f d ?a] =>
          replace (fold_left f d a) with r by (symmetry; exact Hf)
      end
  end.
  clear Hf. cbn [app]. eexists. split; [reflexivity|].
  cbn [ctx_pedidos enlaces totales total_general].
  repeat split; unfold Dict.keys; rewrite map_map; reflexivity.
Qed.

Lemma pedidos_enlaces_totales_witness :
  exists ctx : pedidos_ctx,
    pedidos ejemplo = Ok (Render "pedidos.html" ctx) /\
    Dict.keys (enlaces ctx) = ["Acme"; "beta SRL"] /\
    Dict.keys (totales ctx) = ["Acme"; "beta SRL"].
Proof.
  destruct (pedidos_enlaces_totales ejemplo "admin" eq_refl)
    as (ctx & Hp & Hd & _ & _ & _ & He & Ht).
  exists ctx. split; [exact Hp|]. rewrite He, Ht, Hd. split; reflexivity.
Defined.

(* ================================================================== *)
(** * What the normalizer drops *)

Lemma binary_round_aux_no_negativo (mx ex : Z) (lx : location) :
  0 <= mx ->
  no_negativo (binary_round_aux Flt.prec Flt.emax false mx ex lx) = true.
Proof.
  intros Hm. unfold binary_round_aux.
  pose proof (shr_fexp_nonneg mx ex lx Hm) as H1.
  destruct (shr_fexp Flt.prec Flt.emax mx ex lx) as [mrs' e'].
  cbn [fst] in H1.
  pose proof (shr_fexp_nonneg
                (round_nearest_even (shr_m mrs') (loc_of_shr_record mrs'))
                e' loc_Exact (round_nearest_even_nonneg _ _ H1)) as H2.
  destruct (shr_fexp Flt.prec Flt.emax _ e' loc_Exact) as [mrs'' e''].
  cbn [fst] in H2.
  destruct (shr_m mrs'') as [|p|p]; [reflexivity| |lia].
  now destruct (e'' <=? Flt.emax - Flt.prec).
Qed.

Lemma of_decimal_no_negativo (m e10 : Z) :
  no_negativo (Flt.of_decimal false m e10) = true.
Proof.
  unfold Flt.of_decimal. destruct m as [|p|p]; try reflexivity.
  destruct (Z.leb_spec 0 e10) as [He|He].
  - unfold binary_round.
    destruct (shl_align _ 0 _) as [mz ez].
    apply binary_round_aux_no_negativo. lia.
  - unfold SFdiv_core_binary.
    set (m' := match _ - _ with Z0 => Zpos p | Zpos _ => _ | Zneg _ => 0 end).
    assert (Hm' : 0 <= m').
    { unfold m'. destruct (_ - _); try lia. apply Z.shiftl_nonneg. lia. }
    destruct (Z.div_eucl m' (10 ^ (- e10))) as [q r] eqn:Hd.
    apply binary_round_aux_no_negativo.
    assert (Hq : q = m' / 10 ^ (- e10))
      by (unfold Z.div; now rewrite Hd).
    rewrite Hq. apply Z.div_pos; [exact Hm'|].
    apply Z.pow_pos_nonneg; lia.
Qed.

(** Reading a text of digits, commas and periods. *)
Lemma of_string_numeric (t : string) :
  all_chars numeric_char t = true ->
  Flt.of_string t =
  match Flt.parse_decimal false t with
  | Some x => Ok x
  | None => Raise ValueError
  end.
Proof.
  intros Ht. unfold Flt.of_string.
  rewrite (drop_underscores_numeric "000" t eq_refl Ht), (strip_numeric t Ht).
  assert (Hs : Flt.split_sign t = (false, t)).
  { destruct t as [|c r]; [reflexivity|]. cbn in Ht.
    apply andb_true_iff in Ht as [Hc _].
    now destruct (numeric_char_facts c Hc) as (_ & _ & _ & _ & Hss). }
  now rewrite Hs, (parse_special_numeric false t Ht).
Qed.

Lemma normalize_spec_no_negativo (v : pyval) :
  no_negativo (normalize_spec v) = true.
Proof.
  unfold normalize_spec. destruct (truthy v); [|reflexivity].
  unfold normalize_text, decimal_or_zero.
  match goal with |- context [Flt.of_string ?d] => set (dec := d) end.
  assert (Hd : all_chars numeric_char dec = true).
  { unfold dec.
    pose proof (all_chars_keep_only numeric_char (py_str v)) as Hk.
    set (kept := Str.keep_only numeric_char (py_str v)) in *.
    assert (Hj : all_chars numeric_char
                   (if 1 <? Str.count "." kept
                    then drop_periods_but_last kept else kept) = true).
    { destruct (1 <? Str.count "." kept);
        [now apply all_chars_drop_periods | exact Hk]. }
    destruct (Str.has_char "," _); [|exact Hj].
    apply all_chars_replace; [reflexivity|].
    apply all_chars_replace; [reflexivity | exact Hj]. }
  rewrite (of_string_numeric dec Hd). unfold Flt.parse_decimal.
  destruct (Str.span_digits dec) as [ip r1].
  destruct (match r1 with String "." t0 => _ | _ => _ end) as [fp r2].
  destruct (String.eqb ip "" && String.eqb fp ""); [reflexivity|].
  destruct (Flt.parse_exponent r2); [|reflexivity].
  apply of_decimal_no_negativo.
Qed.

(** ** More than one comma *)

Lemma digit_or_period_numeric (c : ascii) :
  digit_or_period c = true -> numeric_char c = true.
Proof.
  unfold digit_or_period, numeric_char.
  destruct (Str.is_digit c), (Ascii.eqb c "."), (Ascii.eqb c ",");
    cbn; congruence.
Qed.

Lemma all_chars_weaken (f g : ascii -> bool) (s : string) :
  (forall c, f c = true -> g c = true) ->
  all_chars f s = true -> all_chars g s = true.
Proof.
  intros Hfg. induction s as [|c s IH]; cbn [all_chars]; [reflexivity|].
  intros H. apply andb_true_iff in H as [Hc Hs].
  now rewrite (Hfg c Hc), (IH Hs).
Qed.

Lemma count_nonneg (c : ascii) (s : string) : 0 <= Str.count c s.
Proof.
  induction s as [|a s IH]; cbn [Str.count]; [lia|].
  destruct (Ascii.eqb a c); lia.
Qed.

Lemma span_digits_rest (d ip r1 : string) :
  all_chars digit_or_period d = true ->
  Str.span_digits d = (ip, r1) ->
  all_chars digit_or_period r1 = true /\
  Str.count "." r1 = Str.count "." d /\
  (r1 = "" \/ exists t, r1 = String "." t).
Proof.
  revert ip r1. induction d as [|c d IH]; intros ip r1;
    cbn [all_chars Str.span_digits].
  - intros _ H. inversion H. repeat split. now left.
  - intros H. apply andb_true_iff in H as [Hc Hd].
    destruct (Str.is_digit c) eqn:Hdig.
    + destruct (Str.span_digits d) as [ip' r1'] eqn:Hs.
      intros H. inversion H. subst.
      destruct (IH ip' r1 Hd eq_refl) as (H1 & H2 & H3).
      repeat split; try assumption. cbn [Str.count].
      destruct (digit_is_numeric c Hdig) as (_ & Hp & _). rewrite Hp. lia.
    + intros H. inversion H. subst. repeat split.
      * cbn [all_chars]. now rewrite Hc, Hd.
      * right. exists d. f_equal. unfold digit_or_period in Hc.
        rewrite Hdig in Hc. cbn in Hc. now apply Ascii.eqb_eq in Hc.
Qed.

Lemma parse_decimal_two_periods (d : string) :
  all_chars digit_or_period d = true -> 2 <= Str.count "." d ->
  Flt.parse_decimal false d = None.
Proof.
  intros Hd Hc. unfold Flt.parse_decimal.
  destruct (Str.span_digits d) as [ip r1] eqn:Hs1.
  destruct (span_digits_rest d ip r1 Hd Hs1) as (Hr1 & Hc1 & [->|(t & ->)]).
  { change (Str.count "." "") with 0 in Hc1. lia. }
  cbn [all_chars] in Hr1. apply andb_true_iff in Hr1 as [_ Ht].
  change (Str.count "." (String "." t)) with (1 + Str.count "." t) in Hc1.
  destruct (Str.span_digits t) as [fp r2] eqn:Hs2.
  destruct (span_digits_rest t fp r2 Ht Hs2) as (_ & Hc2 & [->|(t' & ->)]).
  { change (Str.count "." "") with 0 in Hc2. lia. }
  destruct (String.eqb ip "" && String.eqb fp ""); reflexivity.
Qed.

Lemma count_comma_keep_only (s : string) :
  Str.count "," (Str.keep_only numeric_char s) = Str.count "," s.
Proof.
  induction s as [|a s IH]; cbn [Str.keep_only Str.count]; [reflexivity|].
  destruct (numeric_char a) eqn:Ha; cbn [Str.count]; rewrite IH;
    [reflexivity|].
  destruct (Ascii.eqb_spec a ",") as [->|]; [discriminate Ha | reflexivity].
Qed.

Lemma count_comma_drop_periods (s : string) :
  Str.count "," (drop_periods_but_last s) = Str.count "," s.
Proof.
  induction s as [|a s IH]; cbn [drop_periods_but_last Str.count];
    [reflexivity|].
  destruct (Ascii.eqb_spec a ".") as [->|Hn]; cbn [andb].
  - destruct (Str.has_char "." s); cbn [Str.count]; rewrite IH; reflexivity.
  - cbn [Str.count]. now rewrite IH.
Qed.

Lemma comma_to_period (j : string) :
  all_chars numeric_char j = true ->
  all_chars digit_or_period
    (Str.replace "," "." (Str.replace "." "" j)) = true /\
  Str.count "." (Str.replace "," "." (Str.replace "." "" j))
  = Str.count "," j.
Proof.
  induction j as [|a j IH]; cbn [all_chars]; [now split|].
  intros H. apply andb_true_iff in H as [Ha Hj].
  destruct (IH Hj) as [I1 I2]. cbn [Str.replace Str.count].
  destruct (Ascii.eqb_spec a ".") as [->|Hp].
  - cbn [append]. now split.
  - cbn [Str.replace]. destruct (Ascii.eqb_spec a ",") as [->|Hc].
    + cbn [append all_chars Str.count]. rewrite I1, I2.
      change (Ascii.eqb "." ".") with true.
      change (digit_or_period ".") with true. now split.
    + cbn [all_chars Str.count]. rewrite I1, I2.
      replace (Ascii.eqb a ".") with false
        by (symmetry; now apply Ascii.eqb_neq).
      split; [|reflexivity].
      unfold numeric_char in Ha. unfold digit_or_period.
      replace (Ascii.eqb a ",") with false in Ha
        by (symmetry; now apply Ascii.eqb_neq).
      replace (Ascii.eqb a ".") with false in Ha
        by (symmetry; now apply Ascii.eqb_neq).
      rewrite !orb_false_r in Ha. now rewrite Ha.
Qed.

(** X10: The normalizer looks at digits, commas and periods only: two texts
    with the same such characters get the same value, so a sign or a
    currency mark changes nothing; the value is a number without a minus
    sign (possibly infinite); and a text with more than one comma is
    read as 0.0. *)
Theorem normalizar_precio_descarta :
  (forall s t : string,
      Str.keep_only numeric_char s = Str.keep_only numeric_char t ->
      normalizar_precio (PStr s) = normalizar_precio (PStr t)) /\
  (forall v : pyval, exists x : float,
      normalizar_precio v = Ok x /\ no_negativo x = true) /\
  (forall s : string,
      2 <= Str.count "," s -> normalizar_precio (PStr s) = Ok Flt.zero) /\
  normalizar_precio (PStr "-$ 1.234,50") = normalizar_precio (PStr "1234,5") /\
  normalizar_precio (PStr "1,234,567") = Ok Flt.zero.
Proof.
  repeat apply conj.
  - intros s t H. rewrite !normalizar_precio_spec. f_equal.
    unfold normalize_spec, normalize_text. cbn [truthy py_str].
    destruct s as [|a s], t as [|b t]; cbn [String.eqb negb].
    + reflexivity.
    + rewrite <- H. reflexivity.
    + rewrite H. reflexivity.
    + now rewrite H.
  - intros v. exists (normalize_spec v).
    split; [apply normalizar_precio_spec | apply normalize_spec_no_negativo].
  - intros s Hc. rewrite normalizar_precio_spec. f_equal.
    unfold normalize_spec. cbn [truthy py_str].
    destruct (String.eqb s "") eqn:He; [reflexivity|]. cbn [negb].
    unfold normalize_text.
    pose proof (all_chars_keep_only numeric_char s) as Hk.
    pose proof (count_comma_keep_only s) as Hck.
    set (kept := Str.keep_only numeric_char s) in *.
    set (joined := if 1 <? Str.count "." kept
                   then drop_periods_but_last kept else kept).
    assert (Hj : all_chars numeric_char joined = true).
    { unfold joined. destruct (1 <? Str.count "." kept);
        [now apply all_chars_drop_periods | exact Hk]. }
    assert (Hcj : Str.count "," joined = Str.count "," s).
    { unfold joined. destruct (1 <? Str.count "." kept);
        [now rewrite count_comma_drop_periods | exact Hck]. }
    assert (Hh : Str.has_char "," joined = true)
      by (apply count_has_char; lia).
    rewrite Hh. destruct (comma_to_period joined Hj) as [Hd Hcd].
    unfold decimal_or_zero.
    rewrite of_string_numeric
      by (apply (all_chars_weaken digit_or_period);
          [exact digit_or_period_numeric | exact Hd]).
    rewrite parse_decimal_two_periods; [reflexivity | exact Hd | lia].
  - vm_compute. reflexivity.
  - vm_compute. reflexivity.
Qed.

Lemma normalizar_precio_descarta_witness :
  normalizar_precio (PStr "USD 47.473,63") = normalizar_precio (PStr "47.473,63")
  /\ normalizar_precio (PStr "1,5,0") = Ok Flt.zero.
Proof.
  split.
  - apply (proj1 normalizar_precio_descarta). vm_compute. reflexivity.
  - apply (proj1 (proj2 (proj2 normalizar_precio_descarta))).
    vm_compute. discriminate.
Defined.

(* ================================================================== *)
(** * Start-up *)

Lemma migrar_bucle_filas (ps : list entrada) (st st' : estado) :
  migrar_bucle ps st = Ok st' ->
  usuarios st' = usuarios st /\
  exists nuevas,
    productos st' = (productos st ++ nuevas)%list /\
    map Producto.nombre nuevas = map e_nombre ps /\
    seq st' = seq st + Z.of_nat (List.length ps).
Proof.
  revert st. induction ps as [|p ps IH]; intros st H; cbn [migrar_bucle] in H.
  - inversion H. subst st'. split; [reflexivity|]. exists [].
    rewrite app_nil_r. cbn. repeat split. lia.
  - destruct (insertar _ _ _ _ _ _ st) as [st1|] eqn:Hi; [|discriminate].
    cbn [bind] in H. apply IH in H as (Hu & nuevas & Hp & Hn & Hs).
    apply insertar_ok in Hi as (pc' & g' & _ & _ & _ & _ & ->).
    cbn [usuarios productos seq con_seq con_productos] in Hu, Hp, Hs.
    split; [exact Hu|].
    exists (Producto.make (seq st + 1) (e_nombre p) (e_cantidad p)
              (e_stock_minimo p) pc' (e_proveedor p) g' :: nuevas).
    rewrite Hp, <- app_assoc. cbn [app map Producto.nombre List.length].
    repeat split; [now rewrite Hn | lia].
Qed.

(** X11: Start-up creates the default administrator only when there is no
    user at all and reads the legacy file only into an empty product
    table, one row per entry; it keeps the rowids well formed; and
    starting again, with the legacy file still in place, changes neither
    table. *)
Theorem init_db_una_vez :
  forall (gen : string -> string -> string) (sal sal' : string)
         (json : option (list entrada)) (st st1 : estado),
    init_db gen sal json st = Ok st1 ->
    (usuarios st = [] ->
     usuarios st1 = [Usuario.make "admin" (gen sal "admin123")]) /\
    (usuarios st <> [] -> usuarios st1 = usuarios st) /\
    (productos st <> [] ->
     productos st1 = productos st /\ seq st1 = seq st) /\
    (json = None -> productos st1 = productos st /\ seq st1 = seq st) /\
    (forall ps, json = Some ps -> productos st = [] ->
       map Producto.nombre (productos st1) = map e_nombre ps) /\
    (ids_ok st -> ids_ok st1) /\
    exists st2 : estado,
      init_db gen sal' json st1 = Ok st2 /\
      usuarios st2 = usuarios st1 /\ productos st2 = productos st1 /\
      seq st2 = seq st1.
Proof.
  intros gen sal sal' json st st1 H. unfold init_db in H.
  set (st0 := commit _) in H.
  assert (Hp0 : productos st0 = productos st)
    by (unfold st0; now destruct (usuarios st)).
  assert (Hs0 : seq st0 = seq st)
    by (unfold st0; now destruct (usuarios st)).
  assert (Hu0 : usuarios st0 =
                match usuarios st with
                | [] => [Usuario.make "admin" (gen sal "admin123")]
                | _ => usuarios st
                end)
    by (unfold st0; destruct (usuarios st) eqn:E;
        cbn [usuarios commit con_usuarios]; [reflexivity | exact E]).
  assert (Hu1 : usuarios st1 = usuarios st0 /\
                ((productos st <> [] \/ json = None) ->
                 productos st1 = productos st /\ seq st1 = seq st) /\
                (forall ps, json = Some ps -> productos st = [] ->
                   map Producto.nombre (productos st1) = map e_nombre ps) /\
                (ids_ok st -> ids_ok st1) /\
                (productos st1 = [] -> json <> None ->
                 json = Some [])).
  { unfold migrate_from_json in H. destruct json as [ps|].
    - rewrite Hp0 in H. destruct (productos st) as [|p t] eqn:Hp.
      + destruct (migrar_bucle ps st0) as [st'|] eqn:Hm; [|discriminate].
        cbn [bind] in H. inversion H. subst st1. clear H.
        pose proof (migrar_bucle_ids_ok ps st0 st' Hm) as Hok.
        apply migrar_bucle_filas in Hm as (Hu & nuevas & Hn & Hnom & Hs).
        cbn [usuarios productos seq commit]. rewrite Hp0 in Hn.
        cbn [app] in Hn.
        split; [exact Hu|]. split; [|split; [|split]].
        * intros [Hne|Hne]; [now contradiction Hne | discriminate Hne].
        * intros ps' Hps _. inversion Hps. subst ps'. now rewrite Hn.
        * intros Hi. apply (ids_ok_frame st'); try reflexivity. apply Hok.
          apply (ids_ok_frame st); [now rewrite Hp0, Hp | exact Hs0 | exact Hi].
        * intros He _. rewrite Hn in He. subst nuevas.
          rewrite He in Hnom.
          destruct ps; [reflexivity | cbn [map] in Hnom; discriminate Hnom].
      + inversion H. subst st1.
        split; [reflexivity|]. split; [|split; [|split]].
        * intros _. now rewrite Hp0, Hs0.
        * intros ps' _ Hne. discriminate Hne.
        * intros Hi.
          apply (ids_ok_frame st); [now rewrite Hp0, Hp | exact Hs0 | exact Hi].
        * intros He. rewrite Hp0 in He. discriminate He.
    - inversion H. subst st1.
      split; [reflexivity|]. split; [|split; [|split]].
      + intros _. now rewrite Hp0, Hs0.
      + intros ps' Hps. discriminate Hps.
      + intros Hi. now apply (ids_ok_frame st).
      + intros _ Hne. now contradiction Hne. }
  destruct Hu1 as (Hu1 & Hk & Hnom & Hok & Hvac).
  repeat apply conj.
  - intros He. now rewrite Hu1, Hu0, He.
  - intros Hne. rewrite Hu1, Hu0. now destruct (usuarios st).
  - intros Hne. apply Hk. now left.
  - intros Hj. apply Hk. now right.
  - exact Hnom.
  - exact Hok.
  - assert (Hne : usuarios st1 <> []).
    { rewrite Hu1, Hu0. destruct (usuarios st); discriminate. }
    unfold init_db. destruct (usuarios st1) as [|a us] eqn:Hus;
      [now contradiction Hne|].
    unfold migrate_from_json. cbn [productos commit].
    destruct json as [ps|].
    + destruct (productos st1) as [|p t] eqn:Hp1.
      * assert (Hps : Some ps = Some [])
          by (apply Hvac; [reflexivity | discriminate]).
        inversion Hps. subst ps. cbn [migrar_bucle bind].
        eexists. split; [reflexivity|]. cbn. now rewrite Hus, Hp1.
      * eexists. split; [reflexivity|]. cbn. now rewrite Hus, Hp1.
    + eexists. split; [reflexivity|]. cbn. now rewrite Hus.
Qed.

Lemma init_db_una_vez_witness :
  exists st1 st2 : estado,
    init_db toy_generate "s1" (Some ejemplo_json) estado_inicial = Ok st1 /\
    map Producto.nombre (productos st1) = ["Foco"; "Cable"] /\
    init_db toy_generate "s2" (Some ejemplo_json) st1 = Ok st2 /\
    usuarios st2 = usuarios st1 /\ productos st2 = productos st1.
Proof.
  eexists.
  match goal with
  | |- exists st2, init_db _ _ _ _ = Ok ?s /\ _ =>
      destruct (init_db_una_vez toy_generate "s1" "s2" (Some ejemplo_json)
                  estado_inicial s eq_refl)
        as (_ & _ & _ & _ & Hn & _ & st2 & H2 & Hu & Hp & _)
  end.
  exists st2. split; [reflexivity|]. split; [|now repeat split].
  now apply (Hn ejemplo_json).
Defined.

(* ================================================================== *)
(** * Stock after a sale *)

Lemma stock_de_cons (n : string) (p : producto) (t : list producto) :
  stock_de n (p :: t) =
  (if String.eqb (Producto.nombre p) n then Producto.cantidad p else 0)
  + stock_de n t.
Proof.
  unfold stock_de. cbn [filter].
  destruct (String.eqb (Producto.nombre p) n); reflexivity.
Qed.

(** X12: A sale takes the quantity from every row of that name that holds
    enough, so the stock of the name falls by the quantity times the
    number of such rows; the stock of every other name, the rowids and
    the names stay; stock that was nowhere negative stays so; and the
    success message is flashed even when no row held enough and the
    table is left as it was. *)
Theorem vender_existencias :
  forall (nombre : string) (cantidad : N) (st st' : estado) (u : string)
         (r : respuesta unit),
    sesion st = Some u ->
    vender nombre cantidad st = Ok (r, st') ->
    let vendidas :=
      filter (fun p : producto =>
                String.eqb (Producto.nombre p) nombre &&
                (Z.of_N cantidad <=? Producto.cantidad p))
        (productos st) in
    stock_de nombre (productos st')
      = stock_de nombre (productos st)
        - Z.of_N cantidad * Z.of_nat (List.length vendidas) /\
    (forall otro : string,
        otro <> nombre ->
        stock_de otro (productos st') = stock_de otro (productos st)) /\
    (Forall (fun p => 0 <= Producto.cantidad p) (productos st) ->
     Forall (fun p => 0 <= Producto.cantidad p) (productos st')) /\
    map Producto.id (productos st') = map Producto.id (productos st) /\
    map Producto.nombre (productos st')
      = map Producto.nombre (productos st) /\
    (vendidas = [] -> productos st' = productos st) /\
    mensajes st' =
      (mensajes st ++
       [(("✅ Se vendieron " ++ Str.of_Z (Z.of_N cantidad) ++
          " unidades de " ++ nombre ++ ".")%string, "success")])%list.
Proof.
  intros nombre cantidad st st' u r Hs H vendidas. unfold vender in H.
  rewrite Hs in H.
  destruct (Sql.bind_int (Z.of_N cantidad)) as [c|] eqn:Hc; [|discriminate].
  apply bind_int_ok in Hc as [-> _]. cbn [bind] in H. inversion H.
  subst r st'. clear H. cbn [productos mensajes flash commit con_productos].
  unfold vendidas. clear vendidas. unfold Sql.update.
  generalize (productos st). intros t. set (c := Z.of_N cantidad).
  assert (Hc0 : 0 <= c) by (unfold c; lia).
  repeat apply conj.
  - induction t as [|p t IH]; cbn [map filter]; [cbn; lia|].
    rewrite !stock_de_cons, IH.
    destruct (String.eqb (Producto.nombre p) nombre) eqn:En;
      destruct (c <=? Producto.cantidad p) eqn:El;
      cbn [andb Producto.nombre Producto.cantidad List.length];
      rewrite ?En; lia.
  - intros otro Ho. induction t as [|p t IH]; cbn [map]; [reflexivity|].
    rewrite !stock_de_cons, IH.
    destruct (String.eqb_spec (Producto.nombre p) nombre) as [En|En];
      destruct (c <=? Producto.cantidad p);
      cbn [andb Producto.nombre Producto.cantidad]; try reflexivity.
    replace (String.eqb (Producto.nombre p) otro) with false; [reflexivity|].
    symmetry. apply String.eqb_neq. congruence.
  - intros Hall. induction Hall as [|p t Hp Hall IH]; cbn [map];
      constructor; [|exact IH].
    destruct (String.eqb (Producto.nombre p) nombre);
      destruct (Z.leb_spec c (Producto.cantidad p));
      cbn [andb Producto.cantidad]; lia.
  - rewrite map_map. apply map_ext. intros p.
    now destruct (String.eqb (Producto.nombre p) nombre && _).
  - rewrite map_map. apply map_ext. intros p.
    now destruct (String.eqb (Producto.nombre p) nombre && _).
  - intros Hv. rewrite <- (map_id t) at 2. apply map_ext_in. intros p Hp.
    destruct (String.eqb (Producto.nombre p) nombre &&
              (c <=? Producto.cantidad p)) eqn:E; [|reflexivity].
    assert (Hin : In p (filter (fun p : producto =>
                    String.eqb (Producto.nombre p) nombre &&
                    (c <=? Producto.cantidad p)) t))
      by (apply filter_In; now split).
    rewrite Hv in Hin. destruct Hin.
  - reflexivity.
Qed.

Lemma vender_existencias_witness :
  exists st' : estado,
    vender "alambre" 5 ejemplo = Ok (Redirect "lista_precios", st') /\
    stock_de "alambre" (productos st')
      = stock_de "alambre" (productos ejemplo) - 5 * 1 /\
    stock_de "Bombilla" (productos st')
      = stock_de "Bombilla" (productos ejemplo).
Proof.
  eexists. split; [vm_compute; reflexivity|].
  match goal with
  | |- stock_de _ (productos ?s) = _ /\ _ =>
      destruct (vender_existencias "alambre" 5 ejemplo s "admin"
                  (Redirect "lista_precios") eq_refl eq_refl)
        as (H1 & H2 & _)
  end.
  split; [exact H1 | apply H2; discriminate].
Defined.

(* ================================================================== *)
(** * The price-list export *)

(** X13: The price-list file has a row for every product, in listing order,
    with the name, the cost price, the markup, the sale price and the
    supplier; names and sale prices are those of the price-list page.
    With products there are the five columns and every row fills them;
    with none the file has no column at all, whereas the general export
    of an empty store still has its six columns. *)
Theorem exportar_precios_filas :
  forall (st : estado) (u : string),
    sesion st = Some u ->
    exists df : dataframe,
      exportar_precios st = Enviar "lista_precios.xlsx" df /\
      filas df =
        map (fun p => [PStr (Producto.nombre p);
                       PFloat (Producto.precio_costo p);
                       pyval_of_num (ganancia_o_0 p);
                       pyval_of_num (sale_price p);
                       PStr (Producto.proveedor p)])
          (obtener_productos st) /\
      (productos st <> [] ->
       columns df = ["Nombre"; "Precio Costo"; "% Ganancia"; "Precio Venta";
                     "Proveedor"]) /\
      (forall fila, In fila (filas df) ->
                    List.length fila = List.length (columns df)) /\
      (forall ctx : lista_ctx,
          lista_precios "" st = Render "lista_precios.html" ctx ->
          map (fun it => (PStr (Precio.nombre it),
                          pyval_of_num (Precio.precio_venta it))) (lista ctx)
          = map (fun fila => (nth 0 fila PNone, nth 3 fila PNone))
              (filas df)) /\
      (productos st = [] ->
       columns df = [] /\ filas df = [] /\
       (forall fecha : string,
           exportar_excel fecha st =
           Archivo ("productos_export_" ++ fecha ++ ".xlsx")
             {| columns := ["Nombre"; "Precio Costo"; "% Ganancia";
                            "Cantidad"; "Stock Mínimo"; "Proveedor"];
                filas := [] |})).
Proof.
  intros st u Hs. unfold exportar_precios. rewrite Hs.
  pose proof (order_by_length (fun p => Str.lower (Producto.nombre p))
                (productos st)) as Hlen.
  fold (obtener_productos st) in Hlen.
  eexists. split; [reflexivity|].
  destruct (obtener_productos st) as [|p t] eqn:Ho; cbn [map columns filas].
  - assert (Hp : productos st = [])
      by (destruct (productos st); [reflexivity | discriminate Hlen]).
    split; [reflexivity|]. split; [intros Hne; now contradiction Hne|].
    split; [intros fila []|]. split.
    + intros ctx Hl. unfold lista_precios in Hl. rewrite Hs, Ho in Hl.
      cbn in Hl. inversion Hl. reflexivity.
    + intros _. split; [reflexivity|]. split; [reflexivity|].
      intros fecha. unfold exportar_excel, exportar_frame.
      rewrite Hs, Ho. reflexivity.
  - split; [reflexivity|]. split; [reflexivity|]. split; [|split].
    + intros fila [<-|Hin]; [reflexivity|].
      apply in_map_iff in Hin as (q & <- & _). reflexivity.
    + intros ctx Hl. unfold lista_precios in Hl. rewrite Hs, Ho in Hl.
      cbn [Str.lower truthy py_str String.eqb negb] in Hl. inversion Hl.
      cbn [lista map Precio.nombre Precio.precio_venta nth fila_precios].
      f_equal. rewrite !map_map. apply map_ext. intros q. reflexivity.
    + intros Hp. rewrite Hp in Hlen. discriminate Hlen.
Qed.

Lemma exportar_precios_filas_witness :
  exists df : dataframe,
    exportar_precios ejemplo = Enviar "lista_precios.xlsx" df /\
    List.length (filas df) = 4%nat /\
    List.length (columns df) = 5%nat.
Proof.
  destruct (exportar_precios_filas ejemplo "admin" eq_refl)
    as (df & He & Hf & Hc & _).
  exists df. split; [exact He|]. split.
  - rewrite Hf. reflexivity.
  - rewrite Hc; [reflexivity | discriminate].
Defined.

(* ================================================================== *)
(** * The text of a link *)

Lemma quote_char_encoded (c : ascii) (s : string) :
  percent_encoded (Url.quote_char c ++ s) = percent_encoded s.
Proof. destruct c as [[] [] [] [] [] [] [] []]; reflexivity. Qed.

Lemma quote_char_unreserved (c : ascii) :
  all_chars (fun a => Url.unreserved a || Ascii.eqb a "%") (Url.quote_char c)
  = true.
Proof. destruct c as [[] [] [] [] [] [] [] []]; reflexivity. Qed.

Lemma all_chars_has_char (cls : ascii -> bool) (c : ascii) (s : string) :
  all_chars cls s = true -> cls c = false -> Str.has_char c s = false.
Proof.
  intros Hs Hc. induction s as [|a s IH]; cbn [Str.has_char]; [reflexivity|].
  cbn [all_chars] in Hs. apply andb_true_iff in Hs as [Ha Hs].
  rewrite (IH Hs), orb_false_r. apply Ascii.eqb_neq. intros ->.
  rewrite Ha in Hc. discriminate Hc.
Qed.

(** X14: The message put in a supplier's link is percent-encoded whatever the
    supplier and the product names contain: only letters, digits and
    [_.-~/] stand for themselves, everything else is an escape of a
    percent sign and two hexadecimal digits.  So no space, line break,
    ampersand, number sign, plus sign or question mark occurs in it. *)
Theorem mensaje_whatsapp_escapado :
  forall (proveedor : string) (lista_productos : list linea),
    let m := generar_mensaje_whatsapp proveedor lista_productos in
    percent_encoded m = true /\
    (forall c : ascii,
        Url.unreserved c = false -> c <> "%"%char ->
        Str.has_char c m = false) /\
    Str.has_char " " m = false /\
    Str.has_char "010" m = false /\
    Str.has_char "&" m = false /\
    Str.has_char "#" m = false /\
    Str.has_char "+" m = false /\
    Str.has_char "?" m = false.
Proof.
  intros proveedor lista_productos m. unfold m, generar_mensaje_whatsapp.
  clear m. generalize (fold_left (fun mensaje p => mensaje ++ renglon p)
                         lista_productos (encabezado proveedor)).
  intros t.
  assert (Hall : all_chars (fun a => Url.unreserved a || Ascii.eqb a "%")
                   (Url.quote t) = true).
  { induction t as [|c t IH]; cbn [Url.quote]; [reflexivity|].
    now rewrite all_chars_app, quote_char_unreserved, IH. }
  assert (Hno : forall c : ascii,
             Url.unreserved c = false -> c <> "%"%char ->
             Str.has_char c (Url.quote t) = false).
  { intros c Hu Hp. apply (all_chars_has_char _ c _ Hall).
    rewrite Hu. apply Ascii.eqb_neq. exact Hp. }
  split; [|split; [exact Hno|]].
  - clear Hall Hno. induction t as [|c t IH]; cbn [Url.quote];
      [reflexivity|].
    now rewrite quote_char_encoded.
  - repeat split; apply Hno; (reflexivity || discriminate).
Qed.

(* ================================================================== *)
(** * Listing, opening and deleting by rowid *)

Lemma same_id_same_row (t : list producto) (p q : producto) :
  NoDup (map Producto.id t) -> In p t -> In q t ->
  Producto.id q = Producto.id p -> q = p.
Proof.
  induction t as [|a t IH]; cbn [map In]; [intros _ []|].
  intros Hn Hp Hq He. inversion Hn as [|? ? Ha Ht]; subst.
  destruct Hp as [<-|Hp], Hq as [<-|Hq]; try reflexivity.
  - contradiction Ha. rewrite <- He. now apply in_map.
  - contradiction Ha. rewrite He. now apply in_map.
  - now apply IH.
Qed.

Lemma find_by_id (t : list producto) (p : producto) :
  NoDup (map Producto.id t) -> In p t ->
  find (fun q : producto => Producto.id q =? Producto.id p) t = Some p.
Proof.
  intros Hn Hp.
  destruct (find_some_In (fun q : producto => Producto.id q =? Producto.id p)
              t) as (q & Hq).
  { exists p. split; [exact Hp | apply Z.eqb_refl]. }
  rewrite Hq. apply find_some in Hq as [Hin He]. apply Z.eqb_eq in He.
  f_equal. now apply (same_id_same_row t p q).
Qed.

(** X15: In a store with well-kept rowids the listing and the lookup agree:
    a product is listed exactly when looking up its rowid returns it.
    So every listed product opens in the edit page under its rowid, and
    deleting it by that rowid takes it, and nothing else, off the
    listing. *)
Theorem listado_y_busqueda :
  forall (st : estado) (u : string),
    ids_ok st -> sesion st = Some u ->
    (forall p : producto,
        In p (obtener_productos st) <->
        obtener_producto (Producto.id p) st = Some p) /\
    (forall p : producto,
        In p (obtener_productos st) -> 0 <= Producto.id p ->
        editar (Z.to_N (Producto.id p)) None st
        = Ok (Render "editar.html" p, st)) /\
    (forall (p : producto) (st' : estado) (r : respuesta unit),
        In p (obtener_productos st) -> 0 <= Producto.id p ->
        eliminar (Z.to_N (Producto.id p)) st = Ok (r, st') ->
        forall q : producto,
          In q (obtener_productos st') <->
          In q (obtener_productos st) /\ q <> p).
Proof.
  intros st u [Hn Hb] Hs.
  assert (Hlook : forall p, In p (obtener_productos st) ->
                            obtener_producto (Producto.id p) st = Some p).
  { intros p Hp. apply order_by_In in Hp. now apply find_by_id. }
  repeat apply conj.
  - intros p. split; [apply Hlook|]. intros H. apply order_by_In.
    now apply find_some in H as [Hin _].
  - intros p Hp Hid. unfold editar. rewrite Hs, Z2N.id by exact Hid.
    now rewrite (Hlook p Hp).
  - intros p st' r Hp Hid H q. unfold eliminar, eliminar_producto in H.
    rewrite Hs, Z2N.id in H by exact Hid.
    destruct (Sql.bind_int (Producto.id p)) as [i|] eqn:Hi; [|discriminate].
    apply bind_int_ok in Hi as [-> _]. cbn [bind] in H. inversion H.
    subst r st'. clear H. unfold obtener_productos.
    rewrite !order_by_In. cbn [productos commit con_productos].
    apply order_by_In in Hp. unfold Sql.delete. rewrite filter_In.
    split; intros [Hq Hne]; (split; [exact Hq|]).
    + intros ->. rewrite Z.eqb_refl in Hne. discriminate Hne.
    + apply negb_true_iff, Z.eqb_neq. intros He. apply Hne.
      now apply (same_id_same_row (productos st) p q).
Qed.

Lemma listado_y_busqueda_witness :
  obtener_producto 3 ejemplo
  = Some (Producto.make 3 "Bombilla" 0 4 (Flt.of_decimal false 4747363 (-2))
            "Acme" None).
Proof.
  apply (proj1 (proj1 (listado_y_busqueda ejemplo "admin" ids_ok_ejemplo
                         eq_refl)
                  (Producto.make 3 "Bombilla" 0 4
                     (Flt.of_decimal false 4747363 (-2)) "Acme" None))).
  vm_compute. tauto.
Defined.



(* ================================================================== *)
(** * Importing a file again *)

Ltac igual_terna :=
  match goal with
  | |- (?a, ?b, ?c) = (?a', ?b', ?c') =>
      replace b' with b by lia; replace c' with c by lia; reflexivity
  end.

Lemma upsert_total (f : campos_fila) (st : estado) :
  storable f = true -> exists st', upsert f st = Ok st'.
Proof.
  intros Hst.
  destruct (Sql.fetchone
              (fun p => String.eqb (Producto.nombre p) (c_nombre f))
              (productos st)) as [q|] eqn:Hfind.
  - apply find_some in Hfind as [Hin He]. apply String.eqb_eq in He.
    eexists. apply upsert_existing; [now exists q | exact Hst].
  - eexists. apply upsert_new; [|exact Hst].
    intros p Hp. apply String.eqb_neq.
    exact (find_none _ _ Hfind p Hp).
Qed.

Lemma upsert_casos (f : campos_fila) (st st' : estado) :
  upsert f st = Ok st' ->
  (con_nombre (c_nombre f) (productos st) /\
   st' = con_productos (map (fun q => paso q f) (productos st)) st) \/
  ((forall p, In p (productos st) -> Producto.nombre p <> c_nombre f) /\
   st' = con_seq (seq st + 1)
           (con_productos
              (productos st ++ [new_product (seq st + 1) f])%list st)).
Proof.
  intros H. pose proof (upsert_ok_storable f st st' H) as Hst.
  destruct (Sql.fetchone
              (fun p => String.eqb (Producto.nombre p) (c_nombre f))
              (productos st)) as [q|] eqn:Hfind.
  - apply find_some in Hfind as [Hin He]. apply String.eqb_eq in He.
    assert (Hex : con_nombre (c_nombre f) (productos st)) by now exists q.
    rewrite (upsert_existing f st Hex Hst) in H. inversion H.
    left. now split.
  - assert (Hnew : forall p, In p (productos st) ->
                             Producto.nombre p <> c_nombre f).
    { intros p Hp. apply String.eqb_neq. exact (find_none _ _ Hfind p Hp). }
    rewrite (upsert_new f st Hnew Hst) in H. inversion H.
    right. now split.
Qed.

Lemma tomadas_storable (cols : list string) (rows : list (list pyval)) :
  Forall (fun f => storable f = true) (tomadas cols rows).
Proof.
  unfold tomadas. induction rows as [|row rows IH]; cbn [flat_map];
    [constructor|].
  apply Forall_app. split; [|exact IH].
  destruct (leer_fila cols row) as [f|]; [|constructor].
  destruct (storable f) eqn:Hst; repeat constructor. exact Hst.
Qed.

(** The loop applies the rows taken and counts the others as errors;
    which rows are taken does not depend on the store. *)
Lemma importar_bucle_tomadas (cols : list string) (rows : list (list pyval))
  (st : estado) (ok err : Z) :
  importar_bucle cols rows st ok err =
  (aplicar (tomadas cols rows) st,
   ok + Z.of_nat (List.length (tomadas cols rows)),
   err + (Z.of_nat (List.length rows)
          - Z.of_nat (List.length (tomadas cols rows)))).
Proof.
  revert st ok err. induction rows as [|row rows IH]; intros st ok err.
  - cbn. igual_terna.
  - cbn [importar_bucle]. unfold procesar_fila, tomadas. cbn [flat_map].
    fold (tomadas cols rows).
    destruct (leer_fila cols row) as [f|e]; cbn [bind].
    + destruct (storable f) eqn:Hst.
      * destruct (upsert_total f st Hst) as [st' Hu]. rewrite Hu, IH.
        cbn [app aplicar fold_left]. rewrite Hu.
        fold (aplicar (tomadas cols rows) st').
        cbn [List.length]. igual_terna.
      * destruct (upsert f st) as [st'|e] eqn:Hu.
        { apply upsert_ok_storable in Hu. congruence. }
        rewrite IH. cbn [app List.length]. igual_terna.
    + rewrite IH. cbn [app List.length]. igual_terna.
Qed.

Lemma paso_nombre (q : producto) (f : campos_fila) :
  Producto.nombre (paso q f) = Producto.nombre q.
Proof.
  unfold paso. now destruct (String.eqb (Producto.nombre q) (c_nombre f)).
Qed.

Lemma efecto_nombre (fs : list campos_fila) (q : producto) :
  Producto.nombre (efecto fs q) = Producto.nombre q.
Proof.
  revert q. induction fs as [|f fs IH]; intros q; [reflexivity|].
  unfold efecto. cbn [fold_left]. fold (efecto fs (paso q f)).
  now rewrite IH, paso_nombre.
Qed.

Lemma efecto_snoc (fs : list campos_fila) (f : campos_fila) (q : producto) :
  efecto (fs ++ [f]) q = paso (efecto fs q) f.
Proof. unfold efecto. now rewrite fold_left_app. Qed.

Lemma efecto_ajeno (fs : list campos_fila) (q : producto) :
  (forall f, In f fs -> c_nombre f <> Producto.nombre q) -> efecto fs q = q.
Proof.
  induction fs as [|f fs IH]; intros H; [reflexivity|].
  unfold efecto. cbn [fold_left]. fold (efecto fs (paso q f)).
  assert (Hq : paso q f = q).
  { unfold paso.
    destruct (String.eqb_spec (Producto.nombre q) (c_nombre f)) as [E|E];
      [|reflexivity].
    exfalso. apply (H f (or_introl eq_refl)). now symmetry. }
  rewrite Hq. apply IH. intros f' Hf'. apply H. now right.
Qed.

Lemma partial_update_sin_campos (q : producto) :
  partial_update sin_campos q = q.
Proof. unfold partial_update. cbn. apply producto_eta. Qed.

Lemma partial_update_combinar (f g : campos_fila) (q : producto) :
  partial_update g (partial_update f q) = partial_update (combinar f g) q.
Proof.
  destruct f as [nf cf sf pf gf vf], g as [ng cg sg pg gg vg].
  unfold partial_update, combinar. cbn.
  f_equal; [destruct cg | destruct sg | destruct pg | destruct vg
           | destruct gg]; reflexivity.
Qed.

Lemma partial_update_absorbe (f g : campos_fila) (p : producto) :
  partial_update g p = p ->
  partial_update f (partial_update g (partial_update f p))
  = partial_update f p.
Proof.
  intros H.
  pose proof (f_equal Producto.cantidad H) as H1.
  pose proof (f_equal Producto.stock_minimo H) as H2.
  pose proof (f_equal Producto.precio_costo H) as H3.
  pose proof (f_equal Producto.proveedor H) as H4.
  pose proof (f_equal Producto.ganancia H) as H5. clear H.
  destruct f as [nf cf sf pf gf vf], g as [ng cg sg pg gg vg].
  unfold partial_update in *. cbn in *.
  f_equal; [destruct cf | destruct sf | destruct pf | destruct vf
           | destruct gf]; try reflexivity; assumption.
Qed.

Lemma partial_update_idem (f : campos_fila) (q : producto) :
  partial_update f (partial_update f q) = partial_update f q.
Proof.
  destruct f as [nf [cf|] [sf|] [pf|] [gf|] [vf|]]; reflexivity.
Qed.

Lemma partial_update_new (f : campos_fila) (id : Z) :
  partial_update f (new_product id f) = new_product id f.
Proof.
  destruct f as [nf [cf|] [sf|] [pf|] [gf|] [vf|]]; reflexivity.
Qed.

Lemma efecto_forma (fs : list campos_fila) (n : string) :
  exists g : campos_fila,
    forall q, Producto.nombre q = n -> efecto fs q = partial_update g q.
Proof.
  induction fs as [|f fs [g Hg]].
  - exists sin_campos. intros q _. now rewrite partial_update_sin_campos.
  - destruct (String.eqb n (c_nombre f)) eqn:E.
    + exists (combinar f g). intros q Hq. unfold efecto. cbn [fold_left].
      fold (efecto fs (paso q f)). unfold paso. rewrite Hq, E.
      rewrite Hg by exact Hq. apply partial_update_combinar.
    + exists g. intros q Hq. unfold efecto. cbn [fold_left].
      fold (efecto fs (paso q f)). unfold paso. rewrite Hq, E.
      now apply Hg.
Qed.

Lemma upsert_nombres (f : campos_fila) (st st' : estado) :
  upsert f st = Ok st' ->
  (forall n, con_nombre n (productos st) -> con_nombre n (productos st')) /\
  con_nombre (c_nombre f) (productos st').
Proof.
  intros H. apply upsert_casos in H as [[Hex ->]|[Hnew ->]];
    cbn [productos con_seq con_productos].
  - assert (Hk : forall n, con_nombre n (productos st) ->
                   con_nombre n (map (fun q => paso q f) (productos st))).
    { intros n (p & Hp & Hn). exists (paso p f). split.
      - apply in_map_iff. now exists p.
      - now rewrite paso_nombre. }
    split; [exact Hk | now apply Hk].
  - split.
    + intros n (p & Hp & Hn). exists p. split; [|exact Hn].
      apply in_app_iff. now left.
    + exists (new_product (seq st + 1) f). split; [|reflexivity].
      apply in_app_iff. right. now left.
Qed.

Lemma aplicar_snoc (fs : list campos_fila) (f : campos_fila) (st : estado) :
  aplicar (fs ++ [f]) st =
  match upsert f (aplicar fs st) with
  | Ok st' => st'
  | Raise _ => aplicar fs st
  end.
Proof. unfold aplicar. now rewrite fold_left_app. Qed.

Lemma aplicar_nombres (fs : list campos_fila) (st : estado) :
  Forall (fun f => storable f = true) fs ->
  (forall n, con_nombre n (productos st) ->
             con_nombre n (productos (aplicar fs st))) /\
  (forall f, In f fs -> con_nombre (c_nombre f) (productos (aplicar fs st))).
Proof.
  intros Hall. revert st. induction Hall as [|f fs Hst Hall IH]; intros st.
  - split; [now intros n H | intros f []].
  - unfold aplicar. cbn [fold_left].
    destruct (upsert_total f st Hst) as [st' Hu]. rewrite Hu.
    fold (aplicar fs st'). destruct (IH st') as [IH1 IH2].
    apply upsert_nombres in Hu as [Hu1 Hu2]. split.
    + intros n Hn. now apply IH1, Hu1.
    + intros f' [<-|Hf']; [now apply IH1 | now apply IH2].
Qed.

(** When every name of the rows is in the table already, no row
    inserts: each product takes the effect of the rows of its name. *)
Lemma aplicar_cubierto (fs : list campos_fila) (st : estado) :
  Forall (fun f => storable f = true) fs ->
  (forall f, In f fs -> con_nombre (c_nombre f) (productos st)) ->
  productos (aplicar fs st) = map (efecto fs) (productos st) /\
  seq (aplicar fs st) = seq st.
Proof.
  intros Hall. revert st. induction Hall as [|f fs Hst Hall IH]; intros st Hc.
  - cbn. now rewrite map_id.
  - unfold aplicar. cbn [fold_left].
    rewrite (upsert_existing f st (Hc f (or_introl eq_refl)) Hst).
    match goal with
    | |- context [fold_left _ fs ?s] => fold (aplicar fs s); set (st' := s)
    end.
    destruct (IH st') as [IH1 IH2].
    + intros f' Hf'. destruct (Hc f' (or_intror Hf')) as (p & Hp & Hn).
      exists (paso p f). split.
      * unfold st'. cbn [productos con_productos]. apply in_map_iff.
        now exists p.
      * now rewrite paso_nombre.
    + rewrite IH1, IH2. unfold st'. cbn [productos seq con_productos].
      split; [|reflexivity]. rewrite map_map. apply map_ext.
      intros q. reflexivity.
Qed.

(** After the rows are applied, applying to a product the rows of its
    name changes nothing more. *)
Lemma aplicar_fijo (fs : list campos_fila) (st : estado) :
  Forall (fun f => storable f = true) fs ->
  forall p, In p (productos (aplicar fs st)) -> efecto fs p = p.
Proof.
  induction fs as [|f fs IH] using rev_ind; intros Hall p Hp;
    [reflexivity|].
  apply Forall_app in Hall as [Hall Hf]. inversion Hf as [|? ? Hst _]; subst.
  specialize (IH Hall). rewrite aplicar_snoc in Hp.
  destruct (upsert_total f (aplicar fs st) Hst) as [st1 Hu].
  rewrite Hu in Hp. rewrite efecto_snoc.
  apply upsert_casos in Hu as [[Hex ->]|[Hnew ->]];
    cbn [productos con_seq con_productos] in Hp.
  - apply in_map_iff in Hp as (p0 & <- & Hp0). specialize (IH p0 Hp0).
    unfold paso at 2.
    destruct (String.eqb (Producto.nombre p0) (c_nombre f)) eqn:E.
    + destruct (efecto_forma fs (Producto.nombre p0)) as [g Hg].
      rewrite (Hg (partial_update f p0)) by reflexivity.
      rewrite (Hg p0 eq_refl) in IH. unfold paso.
      cbn [partial_update Producto.nombre]. rewrite E.
      now apply partial_update_absorbe.
    + rewrite IH. unfold paso. now rewrite E.
  - apply in_app_iff in Hp as [Hp|[<-|[]]].
    + rewrite (IH p Hp). unfold paso.
      destruct (String.eqb_spec (Producto.nombre p) (c_nombre f)) as [E|E];
        [now contradiction (Hnew p Hp) | reflexivity].
    + rewrite efecto_ajeno.
      * unfold paso. cbn [new_product Producto.nombre].
        rewrite String.eqb_refl. apply partial_update_new.
      * intros f' Hf' He. cbn [new_product Producto.nombre] in He.
        destruct (proj2 (aplicar_nombres fs st Hall) f' Hf')
          as (q & Hq & Hn).
        apply (Hnew q Hq). congruence.
Qed.

(** X17: Importing the same upload a second time changes neither the product
    table nor the rowid counter, answers as the first time and reports
    the same counts; whether a row is taken does not depend on the
    store.  In particular a row applied twice is a row applied once. *)
Theorem importar_excel_idempotente :
  (forall (archivo : option (string * dataframe)) (st : estado),
      let r1 := importar_excel archivo st in
      let r2 := importar_excel archivo (snd r1) in
      productos (snd r2) = productos (snd r1) /\
      seq (snd r2) = seq (snd r1) /\
      fst r2 = fst r1 /\
      exists ms : list (string * string),
        mensajes (snd r1) = (mensajes st ++ ms)%list /\
        mensajes (snd r2) = (mensajes (snd r1) ++ ms)%list) /\
  (forall (f : campos_fila) (st st1 : estado),
      upsert f st = Ok st1 -> upsert f st1 = Ok st1) /\
  (forall (cols : list string) (row : list pyval) (st st' : estado),
      (exists st1, procesar_fila cols row st = Ok st1) ->
      exists st1', procesar_fila cols row st' = Ok st1').
Proof.
  repeat apply conj.
  - intros archivo st r1 r2. subst r2 r1. unfold importar_excel.
    destruct (sesion st) as [u|] eqn:Hs.
    2:{ cbn [snd fst]. rewrite Hs. repeat split. exists [].
        now rewrite !app_nil_r. }
    destruct archivo as [[filename df]|].
    2:{ cbn [snd fst sesion flash]. rewrite Hs. repeat split.
        eexists. split; reflexivity. }
    destruct (negb (ends_with ".xlsx" filename)).
    { cbn [snd fst sesion flash]. rewrite Hs. repeat split.
      eexists. split; reflexivity. }
    destruct (negb (has_column (map Str.strip (columns df)) "Nombre")).
    { cbn [snd fst sesion flash]. rewrite Hs. repeat split.
      eexists. split; reflexivity. }
    set (cols := map Str.strip (columns df)).
    pose proof (importar_bucle_frame cols (filas df) st 0 0) as Hfr.
    rewrite importar_bucle_tomadas in Hfr. rewrite importar_bucle_tomadas.
    destruct Hfr as (_ & Hmen & _ & Hses).
    set (fs := tomadas cols (filas df)) in *.
    pose proof (tomadas_storable cols (filas df)) as Hall. fold fs in Hall.
    cbn [snd fst sesion flash commit]. rewrite Hses, Hs.
    rewrite importar_bucle_tomadas. fold fs.
    cbn [snd fst productos seq mensajes flash commit].
    match goal with
    | |- context [aplicar fs ?s] =>
        match s with
        | st => fail 1
        | _ => set (s1 := s)
        end
    end.
    assert (Hp1 : productos s1 = productos (aplicar fs st)) by reflexivity.
    assert (Hq1 : seq s1 = seq (aplicar fs st)) by reflexivity.
    destruct (aplicar_cubierto fs s1 Hall) as [Hc1 Hc2].
    { intros f Hf. rewrite Hp1.
      now apply (proj2 (aplicar_nombres fs st Hall)). }
    pose proof (importar_bucle_frame cols (filas df) s1 0 0) as Hfr.
    rewrite importar_bucle_tomadas in Hfr. fold fs in Hfr.
    destruct Hfr as (_ & Hmen1 & _ & _).
    rewrite Hc1, Hc2, Hp1, Hq1, Hmen1, Hmen. repeat split.
    + rewrite <- (map_id (productos (aplicar fs st))) at 2.
      apply map_ext_in. intros p Hp. now apply (aplicar_fijo fs st).
    + eexists. split; [reflexivity|]. unfold s1.
      cbn [mensajes flash commit]. now rewrite Hmen.
  - intros f st st1 H. pose proof (upsert_ok_storable f st st1 H) as Hst.
    pose proof (upsert_nombres f st st1 H) as [_ Hex].
    rewrite (upsert_existing f st1 Hex Hst). f_equal.
    apply upsert_casos in H as [[Hex0 ->]|[Hnew ->]].
    + cbn [productos con_productos]. unfold con_productos. cbn.
      f_equal. rewrite map_map. apply map_ext. intros q.
      fold (paso q f). fold (paso (paso q f) f). unfold paso at 1 3.
      rewrite paso_nombre.
      unfold paso.
      destruct (String.eqb (Producto.nombre q) (c_nombre f));
        [apply partial_update_idem | reflexivity].
    + cbn [productos con_seq con_productos]. unfold con_productos, con_seq.
      cbn. f_equal. rewrite map_app. cbn [map new_product Producto.nombre].
      rewrite String.eqb_refl.
      rewrite partial_update_new. f_equal.
      rewrite <- (map_id (productos st)) at 2. apply map_ext_in.
      intros q Hq.
      destruct (String.eqb_spec (Producto.nombre q) (c_nombre f)) as [E|E];
        [now contradiction (Hnew q Hq) | reflexivity].
  - intros cols row st st' (st1 & H). unfold procesar_fila in *.
    destruct (leer_fila cols row) as [f|]; [|discriminate]. cbn [bind] in *.
    apply upsert_total. now apply (upsert_ok_storable f st st1).
Qed.

Lemma importar_excel_idempotente_witness :
  productos (snd (importar_excel (Some ("stock.xlsx", ejemplo_frame))
                    (snd (importar_excel (Some ("stock.xlsx", ejemplo_frame))
                            ejemplo))))
  = productos (snd (importar_excel (Some ("stock.xlsx", ejemplo_frame))
                      ejemplo)).
Proof.
  exact (proj1 (proj1 importar_excel_idempotente
                  (Some ("stock.xlsx", ejemplo_frame)) ejemplo)).
Defined.

(* ================================================================== *)
(** * Logging in after a password change *)

Lemma find_usuario_map (h : Usuario.t -> Usuario.t) (name : string)
  (us : list Usuario.t) :
  (forall x, Usuario.usuario (h x) = Usuario.usuario x) ->
  find (fun x => String.eqb (Usuario.usuario x) name) (map h us)
  = option_map h (find (fun x => String.eqb (Usuario.usuario x) name) us).
Proof.
  intros Hh. induction us as [|x us IH]; cbn [map find]; [reflexivity|].
  rewrite Hh. destruct (String.eqb (Usuario.usuario x) name);
    [reflexivity | exact IH].
Qed.

(** X18: After a password change that went through, the user is still in
    session and logs in again exactly with the passwords the new hash
    verifies, the old one no longer counting for anything; every other
    user logs in as before; no user is added or removed; and the change
    is committed once. *)
Theorem cambiar_password_y_login :
  forall (check : string -> string -> bool)
         (gen : string -> string -> string)
         (f : cambio) (sal : string) (st : estado) (u : string),
    sesion st = Some u ->
    fst (cambiar_password check gen (Some f) sal st) = Redirect "inventario" ->
    let st' := snd (cambiar_password check gen (Some f) sal st) in
    (forall pw : string,
        fst (login check (Some (u, pw)) (snd (logout st')))
          = Redirect "lista_precios" <->
        check (gen sal (nueva f)) pw = true) /\
    (forall otro pw : string,
        otro <> u ->
        fst (login check (Some (otro, pw)) (snd (logout st')))
        = fst (login check (Some (otro, pw)) (snd (logout st)))) /\
    sesion st' = Some u /\
    map Usuario.usuario (usuarios st') = map Usuario.usuario (usuarios st) /\
    productos st' = productos st /\
    commits st' = commits st + 1.
Proof.
  intros check gen f sal st u Hs Hr st'. subst st'.
  unfold cambiar_password in *. rewrite Hs in *.
  destruct (negb (String.eqb (nueva f) (confirmar f)));
    [discriminate Hr|].
  destruct (buscar_usuario u st) as [user|] eqn:Hb; [|discriminate Hr].
  destruct (check (Usuario.password user) (actual f));
    [|discriminate Hr].
  cbn [negb snd] in *. clear Hr.
  set (h := fun x => if String.eqb (Usuario.usuario x) u
                     then Usuario.make (Usuario.usuario x)
                            (gen sal (nueva f))
                     else x).
  assert (Hh : forall x, Usuario.usuario (h x) = Usuario.usuario x).
  { intros x. unfold h. now destruct (String.eqb (Usuario.usuario x) u). }
  assert (Hfind : forall name st0,
             usuarios st0 = map h (usuarios st) ->
             buscar_usuario name st0
             = option_map h (buscar_usuario name st)).
  { intros name st0 Hst0. unfold buscar_usuario. rewrite Hst0.
    now apply find_usuario_map. }
  repeat apply conj.
  - intros pw. unfold login. rewrite (Hfind u) by reflexivity.
    rewrite Hb. cbn [option_map].
    assert (Hu : Usuario.usuario user = u).
    { unfold buscar_usuario in Hb. apply find_some in Hb as [_ He].
      now apply String.eqb_eq in He. }
    unfold h. rewrite Hu, String.eqb_refl. cbn [Usuario.password].
    destruct (check (gen sal (nueva f)) pw); cbn [fst];
      split; intros H; (reflexivity || discriminate H).
  - intros otro pw Hne. unfold login. rewrite (Hfind otro) by reflexivity.
    assert (Hl : buscar_usuario otro (snd (logout st))
                 = buscar_usuario otro st) by reflexivity.
    rewrite Hl.
    destruct (buscar_usuario otro st) as [x|] eqn:Hx; cbn [option_map];
      [|reflexivity].
    assert (Hxu : Usuario.usuario x = otro).
    { unfold buscar_usuario in Hx. apply find_some in Hx as [_ He].
      now apply String.eqb_eq in He. }
    unfold h. replace (String.eqb (Usuario.usuario x) u) with false.
    + now destruct (check (Usuario.password x) pw).
    + symmetry. apply String.eqb_neq. congruence.
  - exact Hs.
  - cbn [usuarios flash commit con_usuarios]. rewrite map_map.
    apply map_ext. exact Hh.
  - reflexivity.
  - reflexivity.
Qed.

Lemma cambiar_password_y_login_witness :
  fst (login toy_check (Some ("admin", "nueva1"))
         (snd (logout
                 (snd (cambiar_password toy_check toy_generate
                         (Some {| actual := "admin123"; nueva := "nueva1";
                                  confirmar := "nueva1" |})
                         "s9" ejemplo)))))
  = Redirect "lista_precios".
Proof.
  apply (proj1 (cambiar_password_y_login toy_check toy_generate
                  {| actual := "admin123"; nueva := "nueva1";
                     confirmar := "nueva1" |}
                  "s9" ejemplo "admin" eq_refl eq_refl)).
  vm_compute. reflexivity.
Defined.

(* ================================================================== *)
(** * The price filter read back *)






(** A function on texts that works character by character, drops the
    comma and keeps the digits undoes the grouping of digits. *)
Section Agrupados.

Variable F : string -> string.
Hypothesis F_app : forall a b : string, F (a ++ b) = F a ++ F b.
Hypothesis F_coma : F "," = "".
Hypothesis F_digito :
  forall c : ascii, Str.is_digit c = true -> F (String c "") = String c "".






End Agrupados.





(** ** The digits of [str(n)] *)








(** ** Reading digits, a period, digits *)










